(** * AutomacaoN8N: the seed / reconcile workflow and the watcher gate

    A shallow embedding of [src/AutomacaoBanco.py] (existence check,
    content-id resolution, seeding, identifier resolution, frame building,
    the two update passes and the orchestrating [main]) and of
    [should_process] and one polling tick of [src/watch_run.py].

    Modelling conventions.
    - The SQL Server database is a record of four tables, each a list of
      rows in storage order (duplicates are possible: the script never
      relies on a key constraint, it tests [IF NOT EXISTS] itself).
    - A Python [dict] of integers is a [gmap Z Z], a Python [set] a
      [gset Z]; both are only ever iterated through [sorted(...)].
    - Code that talks to the database runs in [Prog], a state and
      exception monad over [World]: the tables, the snapshot of the open
      T-SQL transaction, the trace of executed statements and the log.
    - A statement raises only when an [INSERT] it really performs is
      rejected by the database (a constraint of the schema, which is not
      part of the repository and is therefore a parameter of the model).
      Loss of the connection and failures of [SELECT] / [UPDATE] are not
      modelled.
    - A spreadsheet cell is an integer, a text or empty: a cell that
      pandas and [int()] both read as a number is [CInt], any other
      non-empty cell is [CStr], an empty cell (NaN / None / NA) is [CNull].
    - [--abort-if-missing-ratio] and [missing_ratio] are Python floats:
      binary64 numbers, divided and compared with the primitive operations
      of the kernel.  [ratio_gt_agrees_with_exact] compares the test with the
      one in exact arithmetic for the two thresholds the repository uses.
    - [BEGIN TRAN] keeps the tables as they are, [ROLLBACK] puts them back and
      [COMMIT] forgets them; the implicit transaction of the ODBC driver is
      not modelled.
    - A text is a sequence of one-byte characters. *)

From Stdlib Require Import ZArith String Ascii PrimFloat FloatOps SpecFloat FloatAxioms.
From stdpp Require Import base list gmap sets strings pretty sorting.

Set Default Proof Using "Type".

Open Scope string_scope.
Open Scope list_scope.
Open Scope Z_scope.

(** ** Python and pandas helpers *)

Module Py.

(** [Series.unique()] / [drop_duplicates()]: first occurrences, in order. *)
Fixpoint unique {A} `{EqDecision A} (l : list A) : list A :=
  match l with
  | [] => []
  | x :: l' => x :: filter (λ y, y ≠ x) (unique l')
  end.

(** [sorted(...)] on integers. *)
Definition sorted (l : list Z) : list Z := merge_sort Z.le l.

(** The order of Python tuples [(int, int)]. *)
Definition pair_le (p q : Z * Z) : Prop :=
  p.1 < q.1 ∨ (p.1 = q.1 ∧ p.2 ≤ q.2).

Global Instance pair_le_dec p q : Decision (pair_le p q).
Proof. unfold pair_le. apply _. Defined.

(** [sorted(d.items())]. *)
Definition sorted_items (d : gmap Z Z) : list (Z * Z) :=
  merge_sort pair_le (map_to_list d).

(** [for (k, v) in rows: d[k] = v]. *)
Definition dict_update {K} `{Countable K} {V} (d : gmap K V) (rows : list (K * V))
  : gmap K V :=
  foldl (λ m p, <[p.1 := p.2]> m) d rows.

(** [str.lower()] on ASCII letters. *)
Definition lower_ascii (c : ascii) : ascii :=
  let n := nat_of_ascii c in
  if (65 <=? n)%nat && (n <=? 90)%nat then ascii_of_nat (n + 32) else c.

Fixpoint lower (s : string) : string :=
  match s with
  | EmptyString => EmptyString
  | String c s' => String (lower_ascii c) (lower s')
  end.

(** [l[i:i+1000] for i in range(0, len(l), 1000)]; the fuel is [len(l)]. *)
Fixpoint chunks {A} (fuel : nat) (l : list A) : list (list A) :=
  match fuel with
  | O => []
  | S fuel' =>
      match l with
      | [] => []
      | _ :: _ => take 1000 l :: chunks fuel' (drop 1000 l)
      end
  end.

Definition chunked {A} (l : list A) : list (list A) := chunks (length l) l.

End Py.

(** ** Spreadsheet cells and the normalised sheet *)

Inductive Cell := CInt (z : Z) | CStr (s : string) | CNull.

Global Instance Cell_eq_dec : EqDecision Cell.
Proof. solve_decision. Defined.

(** [pd.isna(x)]. *)
Definition isna (c : Cell) : bool :=
  match c with CNull => true | _ => false end.

(** [pd.to_numeric(x, errors="coerce")], [None] standing for NaN. *)
Definition to_numeric (c : Cell) : option Z :=
  match c with CInt z => Some z | _ => None end.

(** [int(x)]; [None] when Python raises. *)
Definition py_int (c : Cell) : option Z :=
  match c with CInt z => Some z | _ => None end.

(** [str(x)], and what [astype(str)] does to one cell (pandas 2: the missing
    value becomes the text [nan]). *)
Definition py_str (c : Cell) : string :=
  match c with
  | CInt z => pretty z
  | CStr s => s
  | CNull => "nan"
  end.

(** One line of the sheet; the cell of a column that the sheet does not have
    is never read. *)
Record Row := {
  id_tipo : Cell;
  id_cat : Cell;
  id_grupo : Cell;
  Texto_Principal : Cell;
  Texto_Secundario : Cell;
  Texto_Title : Cell;
  Texto_Meta_Description : Cell;
}.

(** The sheet after [normalize_dataframe]: which of the known columns are
    present, and the lines. *)
Record DataFrame := {
  has_id_tipo : bool;
  has_id_cat : bool;
  has_id_grupo : bool;
  has_Texto_Principal : bool;
  has_Texto_Secundario : bool;
  has_Texto_Title : bool;
  has_Texto_Meta_Description : bool;
  rows : list Row;
}.

(** [df.get(col, pd.Series([None]*len(df)))] at one line. *)
Definition df_get (present : bool) (c : Cell) : Cell :=
  if present then c else CNull.

(** ** The database *)

(** [PMP.dbo.PUB_TIPOS_TEXTOS]. *)
Record TTRow := {
  tt_idTipo : Z;
  tt_TextoPrimario : option string;
  tt_TextoSecundario : option string;
  tt_Ativo : Z;
  tt_IdConteudo : option Z;
  tt_Header : option string;
}.

(** [PMP.dbo.PUB_TIPOS_TEXTOS_TITULOS]. *)
Record TLRow := {
  tl_idTipo : Z;
  tl_TextoTitle : option string;
  tl_TextoMetaDescription : option string;
  tl_Ativo : Z;
  tl_IdConteudo : option Z;
}.

Global Instance TTRow_eq_dec : EqDecision TTRow.
Proof. solve_decision. Defined.

Global Instance TLRow_eq_dec : EqDecision TLRow.
Proof. solve_decision. Defined.

Record Store := {
  PUB_TIPOS_TEXTOS : list TTRow;
  PUB_TIPOS_TEXTOS_TITULOS : list TLRow;
  (** the mapping table [(tipo_col, conteudo_col)], the second nullable *)
  TEMATICOS_CONTEUDO_ITEM : list (Z * option Z);
  (** [(idCategoria, idGrupo, idTipo)] *)
  PROCESSADO_BUSCA_TIPOS : list (Z * Z * Z);
}.

Inductive Agg := MIN | MAX.

(** The statements the script sends through [cur.execute] and
    [conn.commit]. *)
Inductive Stmt :=
| SelectExisting (chunk : list Z)
| SelectIdConteudo (fn : Agg) (chunk : list Z)
| SelectBuscaTipos (cats grupos : list Z)
| BeginTran
| Commit
| Rollback
| SeedTT (idt idc : Z)
| SeedTL (idt idc : Z)
| UpdateTT (t1 t2 : option string) (idt : Z)
| UpdateTL (ttitle tmeta : option string) (idt : Z)
| ConnCommit.

Definition is_write (st : Stmt) : bool :=
  match st with
  | SeedTT _ _ | SeedTL _ _ | UpdateTT _ _ _ | UpdateTL _ _ _ => true
  | _ => false
  end.

(** The messages of [log_print], one constructor per call site. *)
Inductive LogMsg :=
| Log_DrySeedSugerido (n : nat)
| Log_DrySeedItem (idt idc : Z)
| Log_AvisoSemIdTipo (pares : list (Cell * Cell))
| Log_Lidas (n_tt n_tl : nat)
| Log_NoPMP (existem faltam : nat)
| Log_IdsFaltando (ids : list Z)
| Log_AtencaoRatio (ratio limite : float)
| Log_AtencaoMaxSeed (necessarios : nat) (max_seed : Z)
| Log_Mapeados (mapeados sem : nat)
| Log_Fallback (idc : Z) (n : nat)
| Log_SeedInseridos (tt_ins tl_ins : Z)
| Log_SemIdConteudo (ids : list Z) (mais : bool)
| Log_DryRunEncerrando
| Log_AtualizadosTT (n : Z)
| Log_AtualizadosTL (n : Z)
| Log_Concluido.

Inductive Exn :=
| ValueError (msg : string)
| KeyError (col : string)
| StoreError (st : Stmt).

(** ** The monad of the script *)

Record World := {
  db : Store;
  tx : option Store;       (* tables as they were at [BEGIN TRAN] *)
  trace : list Stmt;       (* statements executed so far, oldest first *)
  log : list LogMsg;       (* messages printed so far, oldest first *)
}.

Inductive Res (A : Type) :=
| Ok (a : A)
| Raise (e : Exn).

Arguments Ok {A} a.
Arguments Raise {A} e.

Definition Prog (A : Type) : Type := World → Res A * World.

Definition ret {A} (a : A) : Prog A := λ w, (Ok a, w).

Definition raise {A} (e : Exn) : Prog A := λ w, (Raise e, w).

Definition bind {A B} (c : Prog A) (k : A → Prog B) : Prog B :=
  λ w, match c w with
       | (Ok a, w') => k a w'
       | (Raise e, w') => (Raise e, w')
       end.

(** [try: c  except Exception as e: h e]. *)
Definition try_except {A} (c : Prog A) (h : Exn → Prog A) : Prog A :=
  λ w, match c w with
       | (Ok a, w') => (Ok a, w')
       | (Raise e, w') => h e w'
       end.

Declare Scope prog_scope.
Delimit Scope prog_scope with prog.
Notation "x <- c ;; k" := (bind c (λ x, k))
  (at level 100, c at next level, right associativity) : prog_scope.
Notation "c ;; k" := (bind c (λ _, k))
  (at level 100, right associativity) : prog_scope.
Open Scope prog_scope.

(** [for x in l: body x]. *)
Fixpoint for_each {A} (l : list A) (body : A → Prog unit) : Prog unit :=
  match l with
  | [] => ret ()
  | x :: l' => body x ;; for_each l' body
  end.

(** [for x in l: s = body s x]. *)
Fixpoint fold_each {A S} (l : list A) (s : S) (body : S → A → Prog S) : Prog S :=
  match l with
  | [] => ret s
  | x :: l' => s' <- body s x ;; fold_each l' s' body
  end.

Definition set_db (d : Store) (w : World) : World :=
  {| db := d; tx := tx w; trace := trace w; log := log w |}.

Definition set_tx (t : option Store) (w : World) : World :=
  {| db := db w; tx := t; trace := trace w; log := log w |}.

Definition record (st : Stmt) (w : World) : World :=
  {| db := db w; tx := tx w; trace := trace w ++ [st]; log := log w |}.

Definition log_print (m : LogMsg) : Prog unit :=
  λ w, (Ok (), {| db := db w; tx := tx w; trace := trace w; log := log w ++ [m] |}).

(** ** The watcher ([watch_run.py]) *)

(** [sanitize_filename]: a name is the list of its characters, each of them
    a code below 256 (Latin-1), the range in which the classes of the regular
    expressions and of [str.strip] are written out here. *)
Module Sanitize.

(** [_WIN_FORBIDDEN], by code: less-than, greater-than, colon, double
    quote, slash, backslash, bar, question mark, star. *)
Definition WIN_FORBIDDEN : list N := [60; 62; 58; 34; 47; 92; 124; 63; 42]%N.

(** [_SANITIZE_PATTERN]: a forbidden character or a control character
    (codes 0 to 31). *)
Definition is_forbidden (c : ascii) : bool :=
  existsb (N.eqb (N_of_ascii c)) WIN_FORBIDDEN || (N_of_ascii c <? 32)%N.

(** [str.isspace] and the class [\s] on the characters below 256. *)
Definition isspace (c : ascii) : bool :=
  let n := N_of_ascii c in
  ((9 <=? n) && (n <=? 13) || (28 <=? n) && (n <=? 32) || (n =? 133) || (n =? 160))%N.

(** [str.lower] on one character below 256. *)
Definition lower_char (c : ascii) : ascii :=
  let n := N_of_ascii c in
  if ((65 <=? n) && (n <=? 90) || (192 <=? n) && (n <=? 222) && negb (n =? 215))%N
  then ascii_of_N (n + 32) else c.

(** [s.replace(a, " ")] for a one-character [a]. *)
Definition replace_by_space (a : ascii) (l : list ascii) : list ascii :=
  (λ c, if Ascii.eqb c a then " "%char else c) <$> l.

Fixpoint lstrip (l : list ascii) : list ascii :=
  match l with
  | c :: l' => if isspace c then lstrip l' else l
  | [] => []
  end.

(** [s.strip()]. *)
Definition strip (l : list ascii) : list ascii :=
  reverse (lstrip (reverse (lstrip l))).

(** [_SANITIZE_PATTERN.sub("_", s)]. *)
Definition sub_forbidden (l : list ascii) : list ascii :=
  (λ c, if is_forbidden c then "_"%char else c) <$> l.

(** [re.sub(r"\s+", " ", s)]; [in_run] says that the previous character was
    part of the run of spaces being replaced. *)
Fixpoint collapse_spaces (in_run : bool) (l : list ascii) : list ascii :=
  match l with
  | [] => []
  | c :: l' =>
      if isspace c
      then if in_run then collapse_spaces true l' else " "%char :: collapse_spaces true l'
      else c :: collapse_spaces false l'
  end.

(** [s.lower().endswith(".xlsx")]. *)
Definition endswith_xlsx (l : list ascii) : bool :=
  bool_decide (list_ascii_of_string ".xlsx" `suffix_of` (lower_char <$> l)).

Definition sanitize_chars (name : list ascii) : list ascii :=
  let clean :=
    strip (replace_by_space "009" (replace_by_space "010" (replace_by_space "013" name))) in
  let clean := sub_forbidden clean in
  let clean := collapse_spaces false clean in
  let clean := if bool_decide (clean = []) then list_ascii_of_string "arquivo.xlsx"
               else clean in
  if endswith_xlsx clean then clean else clean ++ list_ascii_of_string ".xlsx".

Definition sanitize_filename (name : string) : string :=
  string_of_list_ascii (sanitize_chars (list_ascii_of_string name)).

(** Every run of spaces of [l] is one blank. *)
Fixpoint single_spaced (after_space : bool) (l : list ascii) : bool :=
  match l with
  | [] => true
  | c :: l' =>
      if isspace c
      then Ascii.eqb c " " && negb after_space && single_spaced true l'
      else single_spaced false l'
  end.

Definition starts_clean (l : list ascii) : bool :=
  match l with c :: _ => negb (isspace c) | [] => true end.

(** A name that needs no cleaning: no forbidden or control character, no
    space at either end, and no space but single blanks. *)
Definition tidy (l : list ascii) : bool :=
  forallb (λ c, negb (is_forbidden c)) l && single_spaced false l
  && starts_clean l && starts_clean (reverse l).

End Sanitize.

(** ** [normalize_dataframe] *)

(** The column names of the sheet after [normalize_dataframe]; the cells are
    left alone.  A column name is a text of characters below 256, as above. *)
Module Normalize.

(** [str(c).strip()] of one column name. *)
Definition strip (c : string) : string :=
  string_of_list_ascii (Sanitize.strip (list_ascii_of_string c)).

(** The accented name, its [a] with acute accent being the character 225. *)
Definition Texto_Secundario_accented : string :=
  "Texto Secund" ++ String (ascii_of_N 225) "rio".

Definition rename_map : list (string * string) :=
  [ ("Texto Principal", "Texto Principal");
    (Texto_Secundario_accented, Texto_Secundario_accented);
    ("Texto Secundario", Texto_Secundario_accented);
    ("Texto Title", "Texto Title");
    ("Texto Meta Description", "Texto Meta Description");
    ("id_tipo", "id_tipo");
    ("id_cat", "id_cat");
    ("id_grupo", "id_grupo") ].

(** [df.rename(columns={k: v})]. *)
Definition rename (k v : string) (columns : list string) : list string :=
  (λ c, if String.eqb c k then v else c) <$> columns.

Definition normalize_columns (columns : list string) : list string :=
  foldl (λ cols p, if bool_decide (p.1 ∈ cols) then rename p.1 p.2 cols else cols)
        (strip <$> columns) rename_map.

End Normalize.

Module Watcher.

(** The per-file record kept in [processados.json] and the [cur_info] built
    at every tick: a JSON object whose values are texts or [null]. *)
Abbreviation Info := (gmap string (option string)).

(** [d.get(k)]: [None] for a missing key and for a [null] value. *)
Definition get (d : Info) (k : string) : option string := mjoin (d !! k).

(** Truth value of a text or [None]. *)
Definition truthy (v : option string) : bool :=
  match v with
  | Some s => negb (String.eqb s "")
  | None => false
  end.

(** [prev_info] is [processed.get(fid)]: [None] for a file never recorded. *)
Definition should_process (prev_info : option Info) (current_info : Info) : bool :=
  match prev_info with
  | None => true
  | Some prev =>
      if bool_decide (prev = ∅) then true
      else
        let prev_md5 := get prev "md5Checksum" in
        let cur_md5 := get current_info "md5Checksum" in
        if truthy cur_md5 && truthy prev_md5 && bool_decide (cur_md5 ≠ prev_md5)
        then true
        else if negb (truthy cur_md5)
        then bool_decide (get current_info "modifiedTime" ≠ get prev "modifiedTime")
        else false
  end.

(** What [get_most_recent_xlsx] returns for the newest file of the folder. *)
Record DriveFile := {
  id : string;
  name : string;
  createdTime : option string;
  modifiedTime : option string;
  md5Checksum : option string;
}.

(** What one tick does outside the process. *)
Inductive Action :=
| Download (fid : string) (safe_name : string)
| RunAutomacao (safe_name : string)
| SaveProcessed (processed : gmap string Info).

Section Tick.

(** [sanitize_filename] only shapes the local file name; whether the download
    and the child process succeed is decided outside the program. *)
Context (sanitize_filename : string → string)
        (download_ok : string → bool)
        (automacao_ok : string → bool).

Definition cur_info_of (f : DriveFile) : Info :=
  <["name" := Some (sanitize_filename (name f))]>
  (<["createdTime" := createdTime f]>
  (<["modifiedTime" := modifiedTime f]>
  (<["md5Checksum" := md5Checksum f]> ∅))).

(** The body of the [while] loop of [main] for one poll: the new table of
    processed files and the actions taken, oldest first. An exception of
    the download or of [run_automacao] is caught by the loop and leaves the
    table as it was. *)
Definition tick (processed : gmap string Info) (newest : option DriveFile)
  : gmap string Info * list Action :=
  match newest with
  | None => (processed, [])
  | Some f =>
      let fid := id f in
      let safe_name := sanitize_filename (name f) in
      let cur_info := cur_info_of f in
      let prev_info := processed !! fid in
      if should_process prev_info cur_info then
        if download_ok fid then
          if automacao_ok safe_name then
            let processed' := <[fid := cur_info]> processed in
            (processed', [Download fid safe_name; RunAutomacao safe_name;
                          SaveProcessed processed'])
          else (processed, [Download fid safe_name; RunAutomacao safe_name])
        else (processed, [Download fid safe_name])
      else (processed, [])
  end.

(** The successive polls of the [while] loop: the table is carried from one
    tick to the next; the actions are those of every tick, in order. *)
Fixpoint ticks (processed : gmap string Info) (polls : list (option DriveFile))
  : gmap string Info * list Action :=
  match polls with
  | [] => (processed, [])
  | newest :: polls' =>
      let r := tick processed newest in
      let r' := ticks r.1 polls' in
      (r'.1, r.2 ++ r'.2)
  end.

End Tick.

(** The fingerprint of the file as it is now (its md5 checksum, or its
    modification time when Drive gives no checksum) is the one recorded. *)
Definition same_fingerprint (prev cur : Info) : Prop :=
  if truthy (get cur "md5Checksum")
  then get prev "md5Checksum" = get cur "md5Checksum"
  else get prev "modifiedTime" = get cur "modifiedTime".

End Watcher.

(** ** Statements and their effect on the tables *)

Definition has_tt (idt : Z) (d : Store) : bool :=
  existsb (λ r, tt_idTipo r =? idt) (PUB_TIPOS_TEXTOS d).

Definition has_tl (idt : Z) (d : Store) : bool :=
  existsb (λ r, tl_idTipo r =? idt) (PUB_TIPOS_TEXTOS_TITULOS d).

(** [VALUES (?, '', '', 1, ?, NULL)]. *)
Definition seed_row_tt (idt idc : Z) : TTRow :=
  {| tt_idTipo := idt; tt_TextoPrimario := Some ""; tt_TextoSecundario := Some "";
     tt_Ativo := 1; tt_IdConteudo := Some idc; tt_Header := None |}.

(** [VALUES (?, '', '', 1, ?)]. *)
Definition seed_row_tl (idt idc : Z) : TLRow :=
  {| tl_idTipo := idt; tl_TextoTitle := Some ""; tl_TextoMetaDescription := Some "";
     tl_Ativo := 1; tl_IdConteudo := Some idc |}.

Definition insert_tt (r : TTRow) (d : Store) : Store :=
  {| PUB_TIPOS_TEXTOS := PUB_TIPOS_TEXTOS d ++ [r];
     PUB_TIPOS_TEXTOS_TITULOS := PUB_TIPOS_TEXTOS_TITULOS d;
     TEMATICOS_CONTEUDO_ITEM := TEMATICOS_CONTEUDO_ITEM d;
     PROCESSADO_BUSCA_TIPOS := PROCESSADO_BUSCA_TIPOS d |}.

Definition insert_tl (r : TLRow) (d : Store) : Store :=
  {| PUB_TIPOS_TEXTOS := PUB_TIPOS_TEXTOS d;
     PUB_TIPOS_TEXTOS_TITULOS := PUB_TIPOS_TEXTOS_TITULOS d ++ [r];
     TEMATICOS_CONTEUDO_ITEM := TEMATICOS_CONTEUDO_ITEM d;
     PROCESSADO_BUSCA_TIPOS := PROCESSADO_BUSCA_TIPOS d |}.

(** [SET TextoPrimario=?, TextoSecundario=?, Ativo=1 WHERE idTipo=?] on one
    stored row. *)
Definition update_tt_row (t1 t2 : option string) (idt : Z) (r : TTRow) : TTRow :=
  if tt_idTipo r =? idt then
    {| tt_idTipo := tt_idTipo r; tt_TextoPrimario := t1; tt_TextoSecundario := t2;
       tt_Ativo := 1; tt_IdConteudo := tt_IdConteudo r; tt_Header := tt_Header r |}
  else r.

(** [SET TextoTitle=?, TextoMetaDescription=?, Ativo=1 WHERE idTipo=?]. *)
Definition update_tl_row (ttitle tmeta : option string) (idt : Z) (r : TLRow) : TLRow :=
  if tl_idTipo r =? idt then
    {| tl_idTipo := tl_idTipo r; tl_TextoTitle := ttitle; tl_TextoMetaDescription := tmeta;
       tl_Ativo := 1; tl_IdConteudo := tl_IdConteudo r |}
  else r.

Definition update_tt (t1 t2 : option string) (idt : Z) (d : Store) : Store :=
  {| PUB_TIPOS_TEXTOS := update_tt_row t1 t2 idt <$> PUB_TIPOS_TEXTOS d;
     PUB_TIPOS_TEXTOS_TITULOS := PUB_TIPOS_TEXTOS_TITULOS d;
     TEMATICOS_CONTEUDO_ITEM := TEMATICOS_CONTEUDO_ITEM d;
     PROCESSADO_BUSCA_TIPOS := PROCESSADO_BUSCA_TIPOS d |}.

Definition update_tl (ttitle tmeta : option string) (idt : Z) (d : Store) : Store :=
  {| PUB_TIPOS_TEXTOS := PUB_TIPOS_TEXTOS d;
     PUB_TIPOS_TEXTOS_TITULOS := update_tl_row ttitle tmeta idt <$> PUB_TIPOS_TEXTOS_TITULOS d;
     TEMATICOS_CONTEUDO_ITEM := TEMATICOS_CONTEUDO_ITEM d;
     PROCESSADO_BUSCA_TIPOS := PROCESSADO_BUSCA_TIPOS d |}.

(** [cur.rowcount] after the two [UPDATE]s: the rows the [WHERE] matched. *)
Definition rowcount_tt (idt : Z) (d : Store) : Z :=
  Z.of_nat (length (filter (λ r, tt_idTipo r = idt) (PUB_TIPOS_TEXTOS d))).

Definition rowcount_tl (idt : Z) (d : Store) : Z :=
  Z.of_nat (length (filter (λ r, tl_idTipo r = idt) (PUB_TIPOS_TEXTOS_TITULOS d))).

(** [SELECT idTipo FROM PUB_TIPOS_TEXTOS WHERE idTipo IN (chunk)]. *)
Definition select_existing (chunk : list Z) (d : Store) : list Z :=
  tt_idTipo <$> filter (λ r, tt_idTipo r ∈ chunk) (PUB_TIPOS_TEXTOS d).

(** The non-null content ids the mapping table holds for one idTipo. *)
Definition conteudos_of (idt : Z) (tbl : list (Z * option Z)) : list Z :=
  omap (λ p, if decide (p.1 = idt) then p.2 else None) tbl.

Definition agg_op (fn : Agg) : Z → Z → Z :=
  match fn with MIN => Z.min | MAX => Z.max end.

(** [MIN(col)] / [MAX(col)] over the rows of one group. *)
Definition agg (fn : Agg) (l : list Z) : option Z :=
  match l with
  | [] => None
  | x :: l' => Some (foldl (agg_op fn) x l')
  end.

(** [SELECT tipo, fn(conteudo) FROM map WHERE tipo IN (chunk)
     AND conteudo IS NOT NULL GROUP BY tipo]. *)
Definition select_idconteudo (fn : Agg) (chunk : list Z) (d : Store) : list (Z * Z) :=
  let tbl := TEMATICOS_CONTEUDO_ITEM d in
  let kept := filter (λ p, p.1 ∈ chunk ∧ is_Some p.2) tbl in
  let groups := Py.unique (kept.*1) in
  omap (λ t, (λ c, (t, c)) <$> agg fn (conteudos_of t tbl)) groups.

(** [SELECT DISTINCT idCategoria, idGrupo, idTipo FROM PROCESSADO_BUSCA_TIPOS
     WHERE idCategoria IN (cats) AND idGrupo IN (grupos)]. *)
Definition select_busca_tipos (cats grupos : list Z) (d : Store) : list (Z * Z * Z) :=
  Py.unique (filter (λ r, r.1.1 ∈ cats ∧ r.1.2 ∈ grupos) (PROCESSADO_BUSCA_TIPOS d)).

Definition execute_select_existing (chunk : list Z) : Prog (list Z) :=
  λ w, (Ok (select_existing chunk (db w)), record (SelectExisting chunk) w).

Definition execute_select_idconteudo (fn : Agg) (chunk : list Z) : Prog (list (Z * Z)) :=
  λ w, (Ok (select_idconteudo fn chunk (db w)), record (SelectIdConteudo fn chunk) w).

Definition execute_select_busca_tipos (cats grupos : list Z) : Prog (list (Z * Z * Z)) :=
  λ w, (Ok (select_busca_tipos cats grupos (db w)), record (SelectBuscaTipos cats grupos) w).

Definition execute_begin_tran : Prog unit :=
  λ w, (Ok (), set_tx (Some (db w)) (record BeginTran w)).

Definition execute_commit : Prog unit :=
  λ w, (Ok (), set_tx None (record Commit w)).

Definition execute_rollback : Prog unit :=
  λ w, (Ok (), match tx w with
               | Some d => set_tx None (set_db d (record Rollback w))
               | None => record Rollback w
               end).

Definition conn_commit : Prog unit :=
  λ w, (Ok (), set_tx None (record ConnCommit w)).

Definition execute_update_tt (t1 t2 : option string) (idt : Z) : Prog Z :=
  λ w, (Ok (rowcount_tt idt (db w)),
        set_db (update_tt t1 t2 idt (db w)) (record (UpdateTT t1 t2 idt) w)).

Definition execute_update_tl (ttitle tmeta : option string) (idt : Z) : Prog Z :=
  λ w, (Ok (rowcount_tl idt (db w)),
        set_db (update_tl ttitle tmeta idt (db w)) (record (UpdateTL ttitle tmeta idt) w)).

Section Script.

(** What the schema accepts at an [INSERT]: the constraints of the two target
    tables are not in the repository. *)
Context (tt_accepts : Store → TTRow → bool) (tl_accepts : Store → TLRow → bool).

(** [IF NOT EXISTS (SELECT 1 FROM TT WHERE idTipo=?) INSERT INTO TT(...)]. *)
Definition execute_seed_tt (idt idc : Z) : Prog unit :=
  λ w, let w1 := record (SeedTT idt idc) w in
       if has_tt idt (db w) then (Ok (), w1)
       else if tt_accepts (db w) (seed_row_tt idt idc)
            then (Ok (), set_db (insert_tt (seed_row_tt idt idc) (db w)) w1)
            else (Raise (StoreError (SeedTT idt idc)), w1).

(** [IF NOT EXISTS (SELECT 1 FROM TL WHERE idTipo=?) INSERT INTO TL(...)]. *)
Definition execute_seed_tl (idt idc : Z) : Prog unit :=
  λ w, let w1 := record (SeedTL idt idc) w in
       if has_tl idt (db w) then (Ok (), w1)
       else if tl_accepts (db w) (seed_row_tl idt idc)
            then (Ok (), set_db (insert_tl (seed_row_tl idt idc) (db w)) w1)
            else (Raise (StoreError (SeedTL idt idc)), w1).

(** ** [fetch_existing_idtipos] *)

Definition fetch_existing_idtipos (ids : list Z) : Prog (gset Z) :=
  match ids with
  | [] => ret ∅
  | _ :: _ =>
      fold_each (Py.chunked ids) (∅ : gset Z)
        (λ out chunk,
           fetched <- execute_select_existing chunk ;;
           ret (out ∪ list_to_set fetched))
  end.

(** ** [resolve_idconteudo] *)

Definition resolve_idconteudo (missing_ids : list Z) (pick : string) : Prog (gmap Z Z) :=
  let ids := Py.sorted (elements (list_to_set missing_ids : gset Z)) in
  match ids with
  | [] => ret ∅
  | _ :: _ =>
      let fn := if bool_decide (Py.lower pick = "min") then MIN else MAX in
      fold_each (Py.chunked ids) (∅ : gmap Z Z)
        (λ mapping chunk,
           fetched <- execute_select_idconteudo fn chunk ;;
           ret (Py.dict_update mapping fetched))
  end.

(** ** [seed_missing] *)

(** The body of the [try]: the two conditional inserts of every pair. *)
Definition seed_rows (to_do : list (Z * Z)) : Prog unit :=
  for_each to_do (λ p, execute_seed_tt p.1 p.2 ;; execute_seed_tl p.1 p.2).

Definition seed_missing (idtipo_to_idconteudo : gmap Z Z) (dry_run : bool)
  : Prog (Z * Z) :=
  if bool_decide (idtipo_to_idconteudo = ∅) then ret (0, 0)
  else
    let to_do := Py.sorted_items idtipo_to_idconteudo in
    if dry_run then
      log_print (Log_DrySeedSugerido (length to_do)) ;;
      for_each (take 20 to_do) (λ p, log_print (Log_DrySeedItem p.1 p.2)) ;;
      ret (0, 0)
    else
      execute_begin_tran ;;
      try_except
        (seed_rows to_do ;; execute_commit)
        (λ e, execute_rollback ;; raise e) ;;
      ret (0, 0).

(** ** [ensure_id_tipo] *)

(** [_map_row]: the idTipo of one line, [pd.NA] when a key is not an integer
    or the pair is not in [mapa]. *)
Definition map_row (mapa : gmap (Z * Z) Z) (r : Row) : Cell :=
  match py_int (id_cat r), py_int (id_grupo r) with
  | Some idc, Some idg =>
      match mapa !! (idc, idg) with
      | Some idt => CInt idt
      | None => CNull
      end
  | _, _ => CNull
  end.

Definition set_id_tipo (c : Cell) (r : Row) : Row :=
  {| id_tipo := c; id_cat := id_cat r; id_grupo := id_grupo r;
     Texto_Principal := Texto_Principal r; Texto_Secundario := Texto_Secundario r;
     Texto_Title := Texto_Title r;
     Texto_Meta_Description := Texto_Meta_Description r |}.

(** [df["id_tipo"] = df.apply(_map_row, axis=1)]. *)
Definition with_id_tipo (mapa : gmap (Z * Z) Z) (df : DataFrame) : DataFrame :=
  {| has_id_tipo := true; has_id_cat := has_id_cat df; has_id_grupo := has_id_grupo df;
     has_Texto_Principal := has_Texto_Principal df;
     has_Texto_Secundario := has_Texto_Secundario df;
     has_Texto_Title := has_Texto_Title df;
     has_Texto_Meta_Description := has_Texto_Meta_Description df;
     rows := (λ r, set_id_tipo (map_row mapa r) r) <$> rows df |}.

(** [sorted(pd.to_numeric(col, errors="coerce").dropna().astype(int).unique())]. *)
Definition numeric_keys (col : Row → Cell) (df : DataFrame) : list Z :=
  Py.sorted (Py.unique (omap (λ r, to_numeric (col r)) (rows df))).

(** [df[df["id_tipo"].isna()][["id_cat","id_grupo"]].drop_duplicates()]. *)
Definition pares_sem_id_tipo (df : DataFrame) : list (Cell * Cell) :=
  Py.unique ((λ r, (id_cat r, id_grupo r)) <$>
             filter (λ r, isna (id_tipo r) = true) (rows df)).

Definition ensure_id_tipo (df : DataFrame) : Prog DataFrame :=
  if has_id_tipo df then ret df
  else if negb (has_id_cat df && has_id_grupo df) then
    raise (ValueError "Planilha precisa ter 'id_tipo' ou ('id_cat' e 'id_grupo').")
  else
    let cats := numeric_keys id_cat df in
    let grupos := numeric_keys id_grupo df in
    match cats, grupos with
    | _ :: _, _ :: _ =>
        fetched <- execute_select_busca_tipos cats grupos ;;
        let mapa := Py.dict_update (∅ : gmap (Z * Z) Z)
                      ((λ r, ((r.1.1, r.1.2), r.2)) <$> fetched) in
        let df' := with_id_tipo mapa df in
        let faltam := pares_sem_id_tipo df' in
        match faltam with
        | [] => ret df'
        | _ :: _ => log_print (Log_AvisoSemIdTipo (take 20 faltam)) ;; ret df'
        end
    | _, _ =>
        raise (ValueError "Colunas 'id_cat' e 'id_grupo' nao tem valores validos para mapear id_tipo.")
    end.

(** ** [build_frames] *)

Record FrameTT := {
  idTipo : Z;
  TextoPrimario : Cell;
  TextoSecundario : Cell;
}.

Record FrameTL := {
  idTipo_tl : Z;
  TextoTitle : Cell;
  TextoMetaDescription : Cell;
}.

(** [col.astype(str).str.slice(0, n)] at one cell. *)
Definition astype_str_slice (n : nat) (c : Cell) : Cell :=
  CStr (substring 0 n (py_str c)).

(** The line of [df_textos] a sheet line gives; no line when [idTipo] is not
    a number ([df_textos[df_textos["idTipo"].notna()]]). *)
Definition frame_tt_of (df : DataFrame) (r : Row) : option FrameTT :=
  idt ← to_numeric (id_tipo r);
  Some {| idTipo := idt;
          TextoPrimario := df_get (has_Texto_Principal df) (Texto_Principal r);
          TextoSecundario := df_get (has_Texto_Secundario df) (Texto_Secundario r) |}.

Definition frame_tl_of (df : DataFrame) (r : Row) : option FrameTL :=
  idt ← to_numeric (id_tipo r);
  let title := df_get (has_Texto_Title df) (Texto_Title r) in
  let meta := df_get (has_Texto_Meta_Description df) (Texto_Meta_Description r) in
  Some {| idTipo_tl := idt;
          TextoTitle := if has_Texto_Title df then astype_str_slice 80 title else title;
          TextoMetaDescription :=
            if has_Texto_Meta_Description df then astype_str_slice 320 meta else meta |}.

(** [df_textos]: one line per sheet line with a numeric idTipo. *)
Definition df_textos_of (df : DataFrame) : list FrameTT :=
  omap (frame_tt_of df) (rows df).

(** [df_titulos]: empty unless the sheet has one of the two title columns. *)
Definition df_titulos_of (df : DataFrame) : list FrameTL :=
  if has_Texto_Title df || has_Texto_Meta_Description df
  then omap (frame_tl_of df) (rows df)
  else [].

(** [df["id_tipo"]] raises [KeyError] when the column is absent. *)
Definition build_frames (df : DataFrame) : Prog (list FrameTT * list FrameTL) :=
  if negb (has_id_tipo df) then raise (KeyError "id_tipo")
  else ret (df_textos_of df, df_titulos_of df).

(** ** [update_textos] and [update_titulos] *)

(** [None if pd.isna(x) else str(x)]: the parameter bound to the [?]. *)
Definition sql_text (c : Cell) : option string :=
  if isna c then None else Some (py_str c).

Definition update_textos (df_textos : list FrameTT) : Prog Z :=
  match df_textos with
  | [] => ret 0
  | _ :: _ =>
      updated <- fold_each df_textos 0
        (λ updated r,
           let idt := idTipo r in
           let t1 := sql_text (TextoPrimario r) in
           let t2 := sql_text (TextoSecundario r) in
           rowcount <- execute_update_tt t1 t2 idt ;;
           ret (updated + rowcount)) ;;
      conn_commit ;;
      ret updated
  end.

Definition update_titulos (df_titulos : list FrameTL) : Prog Z :=
  match df_titulos with
  | [] => ret 0
  | _ :: _ =>
      updated <- fold_each df_titulos 0
        (λ updated r,
           let idt := idTipo_tl r in
           let ttitle := sql_text (TextoTitle r) in
           let tmeta := sql_text (TextoMetaDescription r) in
           rowcount <- execute_update_tl ttitle tmeta idt ;;
           ret (updated + rowcount)) ;;
      conn_commit ;;
      ret updated
  end.

(** ** [main] *)

Inductive Modo := LOCAL_MODE | HOMOLOGACAO | PRODUCAO.

Inductive Kind := LOCAL | SQLSERVER.

Definition MODO : Modo := HOMOLOGACAO.

(** The [kind] that [get_connection] returns. *)
Definition get_connection_kind (m : Modo) : Kind :=
  match m with
  | LOCAL_MODE => LOCAL
  | HOMOLOGACAO | PRODUCAO => SQLSERVER
  end.

(** The command line after [argparse]; the three names of the mapping table
    and its columns select the table that [TEMATICOS_CONTEUDO_ITEM] models. *)
Record Args := {
  auto_seed : bool;
  dry_run : bool;
  max_seed : Z;
  abort_if_missing_ratio : float;
  pick_idconteudo : string;
  default_idconteudo : option Z;
}.

(** How a run of [main] ends when no exception escapes. *)
Inductive Outcome :=
| AbortMissingRatio            (* the [return] of step 6 *)
| AbortMaxSeed                 (* the [return] of step 7, too many seeds *)
| DryRunEnd                    (* the [return] after a dry-run seed *)
| Concluido (upd_tt upd_tl : Z).

(** [pd.to_numeric(df["id_tipo"], errors="coerce").dropna().astype(int)
     .unique().tolist()]. *)
Definition ids_plan_of (df : DataFrame) : list Z :=
  Py.unique (omap (λ r, to_numeric (id_tipo r)) (rows df)).

(** [sorted(set(ids) - s)]. *)
Definition sorted_difference (ids : list Z) (s : gset Z) : list Z :=
  Py.sorted (elements ((list_to_set ids : gset Z) ∖ s)).

(** [float(n)] for a length [n], from the binary digits of [n]; exact below
    [2^53]. *)
Fixpoint float_of_pos (p : positive) : float :=
  match p with
  | xH => PrimFloat.one
  | xO p' => PrimFloat.mul PrimFloat.two (float_of_pos p')
  | xI p' => PrimFloat.add (PrimFloat.mul PrimFloat.two (float_of_pos p')) PrimFloat.one
  end.

Definition float_of_nat (n : nat) : float :=
  match N.of_nat n with
  | N0 => PrimFloat.zero
  | Npos p => float_of_pos p
  end.

(** [len(faltam_all) / len(ids_plan)]: the true division of two lengths, a
    binary64 number. *)
Definition missing_ratio (n_faltam n_ids : nat) : float :=
  PrimFloat.div (float_of_nat n_faltam) (float_of_nat n_ids).

(** [x > y] on two binary64 numbers, as Python evaluates it; false when one
    of them is not a number. *)
Definition ratio_gt (x y : float) : bool := PrimFloat.ltb y x.

(** [float("0.35")], the default of [--abort-if-missing-ratio]. *)
Definition threshold_default : float := 0x1.6666666666666p-2%float.

(** [float("1.0")], the threshold [watch_run.py] passes. *)
Definition threshold_watcher : float := PrimFloat.one.

(** [float("0.66666666666666663")]: the binary64 number nearest to two
    thirds, which lies just below two thirds. *)
Definition threshold_two_thirds : float := 0x1.5555555555555p-1%float.

(** [n_faltam / n_ids > num / den] in exact arithmetic: the comparison read
    over the rationals, to be set beside the binary64 test of the code. *)
Definition exact_ratio_gt (n_faltam n_ids : nat) (num : Z) (den : positive) : bool :=
  num * Z.of_nat n_ids <? Z.of_nat n_faltam * Z.pos den.

(** The binary64 test agrees with the exact one, and [<=] with the negation
    of [>], for every [0 <= n_faltam <= n_ids], [1 <= n_ids <= bound]. *)
Definition ratio_tests_agree (bound : nat) (threshold : float)
    (num : Z) (den : positive) : bool :=
  forallb (λ n_ids,
    forallb (λ n_faltam,
      Bool.eqb (ratio_gt (missing_ratio n_faltam n_ids) threshold)
               (exact_ratio_gt n_faltam n_ids num den)
      && Bool.eqb (PrimFloat.leb (missing_ratio n_faltam n_ids) threshold)
                  (negb (ratio_gt (missing_ratio n_faltam n_ids) threshold)))
      (seq 0 (S n_ids)))
    (seq 1 bound).

(** Step 9: the two update passes. *)
Definition apply_updates (df_tt : list FrameTT) (df_tl : list FrameTL) : Prog Outcome :=
  upd_tt <- match df_tt with [] => ret 0 | _ :: _ => update_textos df_tt end ;;
  upd_tl <- match df_tl with [] => ret 0 | _ :: _ => update_titulos df_tl end ;;
  log_print (Log_AtualizadosTT upd_tt) ;;
  log_print (Log_AtualizadosTL upd_tl) ;;
  log_print Log_Concluido ;;
  ret (Concluido upd_tt upd_tl).

(** Steps 8 and 9: keep the lines whose idTipo exists, then update. *)
Definition filter_and_update (existentes : gset Z)
    (df_tt : list FrameTT) (df_tl : list FrameTL) : Prog Outcome :=
  apply_updates (filter (λ r, idTipo r ∈ existentes) df_tt)
                (filter (λ r, idTipo_tl r ∈ existentes) df_tl).

(** The optional fallback of step 7: [mapa[idt] = default] for every idTipo
    left without a content id. *)
Definition apply_fallback (args : Args) (mapa : gmap Z Z) (sem_mapa : list Z)
  : Prog (gmap Z Z * list Z) :=
  match default_idconteudo args, sem_mapa with
  | Some idc, _ :: _ =>
      log_print (Log_Fallback idc (length sem_mapa)) ;;
      ret (foldl (λ m idt, <[idt := idc]> m) mapa sem_mapa, [])
  | _, _ => ret (mapa, sem_mapa)
  end.

(** What follows the seed in step 7: the report, the early [return] of a
    dry run, and otherwise the second existence check and steps 8 and 9. *)
Definition after_seed (args : Args) (ids_plan : list Z) (sem_mapa : list Z)
    (ins : Z * Z) (df_tt : list FrameTT) (df_tl : list FrameTL) : Prog Outcome :=
  log_print (Log_SeedInseridos ins.1 ins.2) ;;
  match sem_mapa with
  | [] => ret ()
  | _ :: _ =>
      log_print (Log_SemIdConteudo (take 20 sem_mapa)
                                   (bool_decide (20 < length sem_mapa)%nat))
  end ;;
  if dry_run args then
    log_print Log_DryRunEncerrando ;;
    ret DryRunEnd
  else
    existentes <- fetch_existing_idtipos ids_plan ;;
    filter_and_update existentes df_tt df_tl.

(** Step 7, reached with [--auto-seed] and at least one missing idTipo. *)
Definition seed_step (args : Args) (ids_plan faltam_all : list Z)
    (df_tt : list FrameTT) (df_tl : list FrameTL) : Prog Outcome :=
  if Z.of_nat (length faltam_all) >? max_seed args then
    log_print (Log_AtencaoMaxSeed (length faltam_all) (max_seed args)) ;;
    ret AbortMaxSeed
  else
    mapa <- resolve_idconteudo faltam_all (pick_idconteudo args) ;;
    let sem_mapa := sorted_difference faltam_all (dom mapa) in
    log_print (Log_Mapeados (size mapa) (length sem_mapa)) ;;
    fb <- apply_fallback args mapa sem_mapa ;;
    ins <- seed_missing fb.1 (dry_run args) ;;
    after_seed args ids_plan fb.2 ins df_tt df_tl.

(** Steps 6 to 9. *)
Definition guard_seed_update (args : Args) (ids_plan : list Z) (existentes : gset Z)
    (faltam_all : list Z) (df_tt : list FrameTT) (df_tl : list FrameTL)
  : Prog Outcome :=
  let ratio := missing_ratio (length faltam_all) (length ids_plan) in
  if bool_decide (ids_plan ≠ []) && negb (auto_seed args)
     && ratio_gt ratio (abort_if_missing_ratio args)
  then
    log_print (Log_AtencaoRatio ratio (abort_if_missing_ratio args)) ;;
    ret AbortMissingRatio
  else if auto_seed args && bool_decide (faltam_all ≠ []) then
    seed_step args ids_plan faltam_all df_tt df_tl
  else filter_and_update existentes df_tt df_tl.

(** Steps 5 to 9, the branch [kind == "SQLSERVER"]. *)
Definition reconcile (args : Args) (ids_plan : list Z)
    (df_tt : list FrameTT) (df_tl : list FrameTL) : Prog Outcome :=
  existentes <- fetch_existing_idtipos ids_plan ;;
  let faltam_all := sorted_difference ids_plan existentes in
  log_print (Log_NoPMP (size existentes) (length faltam_all)) ;;
  log_print (Log_IdsFaltando faltam_all) ;;
  guard_seed_update args ids_plan existentes faltam_all df_tt df_tl.

(** [main] from the normalised sheet on (steps 2 to 9). *)
Definition main_kind (kind : Kind) (args : Args) (df : DataFrame) : Prog Outcome :=
  df1 <- match kind with
         | SQLSERVER => ensure_id_tipo df
         | LOCAL => ret df
         end ;;
  frames <- build_frames df1 ;;
  log_print (Log_Lidas (length frames.1) (length frames.2)) ;;
  let ids_plan := ids_plan_of df1 in
  match kind with
  | SQLSERVER => reconcile args ids_plan frames.1 frames.2
  | LOCAL => apply_updates frames.1 frames.2
  end.

Definition main (args : Args) (df : DataFrame) : Prog Outcome :=
  main_kind (get_connection_kind MODO) args df.

(** ** Vocabulary of the statements *)

(** From [w] to [w'] the log only grew. *)
Definition log_grows (w w' : World) : Prop :=
  ∃ msgs, log w' = log w ++ msgs.

(** [w'] is reached from [w] with zero writes: the tables and the open
    transaction are the same, only statements that write nothing were added
    to the trace, and the log only grew. *)
Definition no_writes (w w' : World) : Prop :=
  db w' = db w ∧ tx w' = tx w ∧
  (∃ sts, trace w' = trace w ++ sts ∧ Forall (λ st, is_write st = false) sts) ∧
  log_grows w w'.

(** A computation that always returns, returns a value that only depends on
    the tables, and writes nothing. *)
Definition quiet {A} (c : Prog A) (f : Store → A) : Prop :=
  ∀ w, ∃ w', c w = (Ok (f (db w)), w') ∧ no_writes w w'.

(** The identifiers of [ids] that have a row in [PUB_TIPOS_TEXTOS]. *)
Definition existing_idtipos (ids : list Z) (d : Store) : gset Z :=
  list_to_set (filter (λ x, has_tt x d = true) ids).

(** The identifiers of [ids] with no row in [PUB_TIPOS_TEXTOS]. *)
Definition missing_idtipos (ids : list Z) (d : Store) : list Z :=
  filter (λ x, has_tt x d = false) ids.

(** The aggregate that [--pick-idconteudo] selects. *)
Definition agg_of_pick (pick : string) : Agg :=
  if bool_decide (Py.lower pick = "min") then MIN else MAX.

(** What the chunk loop of [resolve_idconteudo] leaves in [mapping]. *)
Definition mapping_of (missing_ids : list Z) (pick : string) (d : Store) : gmap Z Z :=
  foldl (λ mapping chunk,
           Py.dict_update mapping (select_idconteudo (agg_of_pick pick) chunk d))
        ∅ (Py.chunked (Py.sorted (elements (list_to_set missing_ids : gset Z)))).

(** The rows a table holds for one identifier. *)
Definition rows_tt (idt : Z) (d : Store) : list TTRow :=
  filter (λ r, tt_idTipo r = idt) (PUB_TIPOS_TEXTOS d).

Definition rows_tl (idt : Z) (d : Store) : list TLRow :=
  filter (λ r, tl_idTipo r = idt) (PUB_TIPOS_TEXTOS_TITULOS d).

(** The effect of the seed statements on the tables alone. *)
Definition seed_tt_db (idt idc : Z) (d : Store) : Res Store :=
  if has_tt idt d then Ok d
  else if tt_accepts d (seed_row_tt idt idc)
       then Ok (insert_tt (seed_row_tt idt idc) d)
       else Raise (StoreError (SeedTT idt idc)).

Definition seed_tl_db (idt idc : Z) (d : Store) : Res Store :=
  if has_tl idt d then Ok d
  else if tl_accepts d (seed_row_tl idt idc)
       then Ok (insert_tl (seed_row_tl idt idc) d)
       else Raise (StoreError (SeedTL idt idc)).

Fixpoint seed_rows_db (to_do : list (Z * Z)) (d : Store) : Res Store :=
  match to_do with
  | [] => Ok d
  | p :: to_do' =>
      match seed_tt_db p.1 p.2 d with
      | Raise e => Raise e
      | Ok d1 =>
          match seed_tl_db p.1 p.2 d1 with
          | Raise e => Raise e
          | Ok d2 => seed_rows_db to_do' d2
          end
      end
  end.

(** How seeding may change the two target tables: an identifier that had
    rows keeps exactly those rows, an identifier that had none has at most one
    row afterwards. *)
Definition seeded_from (d d' : Store) : Prop :=
  (∀ k, has_tt k d = true → has_tt k d' = true ∧ rows_tt k d' = rows_tt k d) ∧
  (∀ k, has_tt k d = false → (length (rows_tt k d') ≤ 1)%nat) ∧
  (∀ k, has_tl k d = true → has_tl k d' = true ∧ rows_tl k d' = rows_tl k d) ∧
  (∀ k, has_tl k d = false → (length (rows_tl k d') ≤ 1)%nat).

(** The statement one line of a frame gives rise to, and its effect. *)
Definition stmt_of_tt (r : FrameTT) : Stmt :=
  UpdateTT (sql_text (TextoPrimario r)) (sql_text (TextoSecundario r)) (idTipo r).

Definition stmt_of_tl (r : FrameTL) : Stmt :=
  UpdateTL (sql_text (TextoTitle r)) (sql_text (TextoMetaDescription r)) (idTipo_tl r).

Definition apply_frame_tt (d : Store) (r : FrameTT) : Store :=
  update_tt (sql_text (TextoPrimario r)) (sql_text (TextoSecundario r)) (idTipo r) d.

Definition apply_frame_tl (d : Store) (r : FrameTL) : Store :=
  update_tl (sql_text (TextoTitle r)) (sql_text (TextoMetaDescription r)) (idTipo_tl r) d.

(** The sum over the lines of the rows each [WHERE idTipo=?] matches. *)
Definition total_rowcount_tt (df : list FrameTT) (d : Store) : Z :=
  foldr (λ r n, rowcount_tt (idTipo r) d + n) 0 df.

Definition total_rowcount_tl (df : list FrameTL) (d : Store) : Z :=
  foldr (λ r n, rowcount_tl (idTipo_tl r) d + n) 0 df.

(** The dictionary [mapa] that [ensure_id_tipo] builds from the rows of
    [PROCESSADO_BUSCA_TIPOS] it fetched. *)
Definition busca_mapa (df : DataFrame) (d : Store) : gmap (Z * Z) Z :=
  Py.dict_update ∅
    ((λ r, ((r.1.1, r.1.2), r.2)) <$>
     select_busca_tipos (numeric_keys id_cat df) (numeric_keys id_grupo df) d).


(** The two target tables hold the same identifiers, row for row, and the
    two mapping tables are the same. *)
Definition same_keys (d d' : Store) : Prop :=
  tt_idTipo <$> PUB_TIPOS_TEXTOS d' = tt_idTipo <$> PUB_TIPOS_TEXTOS d ∧
  tl_idTipo <$> PUB_TIPOS_TEXTOS_TITULOS d' = tl_idTipo <$> PUB_TIPOS_TEXTOS_TITULOS d ∧
  TEMATICOS_CONTEUDO_ITEM d' = TEMATICOS_CONTEUDO_ITEM d ∧
  PROCESSADO_BUSCA_TIPOS d' = PROCESSADO_BUSCA_TIPOS d.

(** A statement that is no [INSERT], and that, if it is an [UPDATE], names an
    identifier with a row in [PUB_TIPOS_TEXTOS] of [d]. *)
Definition updates_existing (d : Store) (st : Stmt) : Prop :=
  match st with
  | SeedTT _ _ | SeedTL _ _ => False
  | UpdateTT _ _ idt | UpdateTL _ _ idt => has_tt idt d = true
  | _ => True
  end.

(** Every identifier of the sheet fits a signed 64-bit integer.  On a
    numeric [id_tipo] outside that range [astype("Int64")] raises a
    [TypeError] before any statement is sent, a case [build_frames] above
    leaves out: the statements saying that [main] returns an outcome for the
    identifiers of a sheet are stated for sheets with [ids_int64]. *)
Definition ids_int64 (df : DataFrame) : Prop :=
  Forall (λ z, - 2 ^ 63 ≤ z < 2 ^ 63) (ids_plan_of df).

(** The lookups [main] sends before step 6. *)
Definition is_lookup (st : Stmt) : bool :=
  match st with
  | SelectExisting _ | SelectBuscaTipos _ _ => true
  | _ => false
  end.

(** The lines of a frame whose identifier has a row in [PUB_TIPOS_TEXTOS]. *)
Definition lines_with_row_tt (d : Store) (df : list FrameTT) : list FrameTT :=
  filter (λ r, has_tt (idTipo r) d = true) df.

Definition lines_with_row_tl (d : Store) (df : list FrameTL) : list FrameTL :=
  filter (λ r, has_tt (idTipo_tl r) d = true) df.

(** The statements of one update pass: an [UPDATE] per line and the commit,
    nothing for an empty frame. *)
Definition pass_tt (df : list FrameTT) : list Stmt :=
  match df with [] => [] | _ :: _ => (stmt_of_tt <$> df) ++ [ConnCommit] end.

Definition pass_tl (df : list FrameTL) : list Stmt :=
  match df with [] => [] | _ :: _ => (stmt_of_tl <$> df) ++ [ConnCommit] end.

(** The mapping step 7 hands to the seeder: the content ids resolved for the
    missing identifiers, and the default for those left without one. *)
Definition seed_mapping (args : Args) (faltam_all : list Z) (d : Store) : gmap Z Z :=
  let mapa := mapping_of faltam_all (pick_idconteudo args) d in
  let sem_mapa := sorted_difference faltam_all (dom mapa) in
  match default_idconteudo args, sem_mapa with
  | Some idc, _ :: _ => foldl (λ m idt, <[idt := idc]> m) mapa sem_mapa
  | _, _ => mapa
  end.

(** ** Scenarios *)

(** A schema without constraints. *)
Definition accept_all_tt : Store → TTRow → bool := λ _ _, true.

Definition accept_all_tl : Store → TLRow → bool := λ _ _, true.

(** A schema whose [PUB_TIPOS_TEXTOS] refuses the content id 13. *)
Definition refuse_13_tt : Store → TTRow → bool :=
  λ _ r, negb (bool_decide (tt_IdConteudo r = Some 13)).

Definition world_of (d : Store) : World :=
  {| db := d; tx := None; trace := []; log := [] |}.

Definition empty_store : Store :=
  {| PUB_TIPOS_TEXTOS := []; PUB_TIPOS_TEXTOS_TITULOS := [];
     TEMATICOS_CONTEUDO_ITEM := []; PROCESSADO_BUSCA_TIPOS := [] |}.

(** idTipo 42 has its two rows; 99 has none, and three content ids and a
    null one in the mapping table. *)
Definition store_42 : Store :=
  {| PUB_TIPOS_TEXTOS := [seed_row_tt 42 5];
     PUB_TIPOS_TEXTOS_TITULOS := [seed_row_tl 42 5];
     TEMATICOS_CONTEUDO_ITEM := [(99, Some 3); (99, None); (99, Some 7); (99, Some 1)];
     PROCESSADO_BUSCA_TIPOS := [(1, 2, 42)] |}.

Definition line (idt principal secundario title : Cell) : Row :=
  {| id_tipo := idt; id_cat := CNull; id_grupo := CNull;
     Texto_Principal := principal; Texto_Secundario := secundario;
     Texto_Title := title; Texto_Meta_Description := CNull |}.

Definition sheet (title_column : bool) (lines : list Row) : DataFrame :=
  {| has_id_tipo := true; has_id_cat := false; has_id_grupo := false;
     has_Texto_Principal := true; has_Texto_Secundario := true;
     has_Texto_Title := title_column; has_Texto_Meta_Description := false;
     rows := lines |}.

(** One line for idTipo 42, which exists. *)
Definition sheet_42 : DataFrame :=
  sheet false [line (CInt 42) (CStr "A") (CStr "B") CNull].

(** The same line in a sheet that has the title column, the cell empty. *)
Definition sheet_42_empty_title : DataFrame :=
  sheet true [line (CInt 42) (CStr "A") (CStr "B") CNull].

(** idTipo 42, which exists, and 99, which does not. *)
Definition sheet_42_99 : DataFrame :=
  sheet false [line (CInt 42) (CStr "A") (CStr "B") CNull;
               line (CInt 99) (CStr "C") CNull CNull].

(** A sheet keyed by [(id_cat, id_grupo)]: the pair (1, 2) is in
    [PROCESSADO_BUSCA_TIPOS] of [store_42], the pair (1, 3) is not. *)
Definition sheet_by_pair : DataFrame :=
  {| has_id_tipo := false; has_id_cat := true; has_id_grupo := true;
     has_Texto_Principal := true; has_Texto_Secundario := false;
     has_Texto_Title := false; has_Texto_Meta_Description := false;
     rows := [ {| id_tipo := CNull; id_cat := CInt 1; id_grupo := CInt 2;
                  Texto_Principal := CStr "A"; Texto_Secundario := CNull;
                  Texto_Title := CNull; Texto_Meta_Description := CNull |};
               {| id_tipo := CNull; id_cat := CInt 1; id_grupo := CInt 3;
                  Texto_Principal := CStr "B"; Texto_Secundario := CNull;
                  Texto_Title := CNull; Texto_Meta_Description := CNull |} ] |}.

(** [--auto-seed --dry-run --pick-idconteudo min --default-idconteudo 1],
    the defaults for the rest: the first example of the script's header. *)
Definition args_dry_run : Args :=
  {| auto_seed := true; dry_run := true; max_seed := 50;
     abort_if_missing_ratio := threshold_default; pick_idconteudo := "min";
     default_idconteudo := Some 1 |}.

(** The same without [--dry-run]. *)
Definition args_live : Args :=
  {| auto_seed := true; dry_run := false; max_seed := 50;
     abort_if_missing_ratio := threshold_default; pick_idconteudo := "min";
     default_idconteudo := Some 1 |}.

(** No [--auto-seed]: only the defaults. *)
Definition args_no_seed : Args :=
  {| auto_seed := false; dry_run := false; max_seed := 50;
     abort_if_missing_ratio := threshold_default; pick_idconteudo := "min";
     default_idconteudo := None |}.

(** [--dry-run] alone. *)
Definition args_dry_run_no_seed : Args :=
  {| auto_seed := false; dry_run := true; max_seed := 50;
     abort_if_missing_ratio := threshold_default; pick_idconteudo := "min";
     default_idconteudo := None |}.

(** [--auto-seed --max-seed 0]. *)
Definition args_cap_0 : Args :=
  {| auto_seed := true; dry_run := false; max_seed := 0;
     abort_if_missing_ratio := threshold_default; pick_idconteudo := "min";
     default_idconteudo := Some 1 |}.

(** [--auto-seed] alone: a live run without a default content id. *)
Definition args_live_no_default : Args :=
  {| auto_seed := true; dry_run := false; max_seed := 50;
     abort_if_missing_ratio := threshold_default; pick_idconteudo := "min";
     default_idconteudo := None |}.

(** One line for idTipo 77, which has no row and no content id. *)
Definition sheet_77 : DataFrame :=
  sheet false [line (CInt 77) (CStr "D") CNull CNull].



(** Content ids 5 for idTipo 1, the refused 13 for idTipo 2. *)
Definition mapping_1_2 : gmap Z Z := <[1 := 5]> (<[2 := 13]> ∅).

(** A file of the Drive folder, and the record the watcher keeps of it. *)
Definition drive_file : Watcher.DriveFile :=
  {| Watcher.id := "f1"; Watcher.name := "Semana 04.xlsx";
     Watcher.createdTime := Some "2025-01-01T00:00:00Z";
     Watcher.modifiedTime := Some "2025-01-02T00:00:00Z";
     Watcher.md5Checksum := Some "9e107d9d372bb6826bd81d3542a419d6" |}.

(** * Properties *)

(** ** The Python helpers *)

Lemma elem_of_unique {A} `{EqDecision A} (x : A) (l : list A) :
  x ∈ Py.unique l ↔ x ∈ l.
Proof.
  induction l as [|a l IH]; simpl; [done|].
  rewrite !elem_of_cons, list_elem_of_filter, IH.
  destruct (decide (x = a)); tauto.
Qed.

Lemma NoDup_unique {A} `{EqDecision A} (l : list A) : NoDup (Py.unique l).
Proof.
  induction l as [|a l IH]; simpl; [constructor|].
  constructor.
  - rewrite list_elem_of_filter. tauto.
  - by apply NoDup_filter.
Qed.

Lemma elem_of_sorted (x : Z) (l : list Z) : x ∈ Py.sorted l ↔ x ∈ l.
Proof. unfold Py.sorted. by rewrite merge_sort_Permutation. Qed.

Lemma length_sorted (l : list Z) : length (Py.sorted l) = length l.
Proof. unfold Py.sorted. by rewrite merge_sort_Permutation. Qed.

Lemma chunks_cons {A} (fuel : nat) (x : A) (l : list A) :
  Py.chunks (S fuel) (x :: l) =
  take 1000 (x :: l) :: Py.chunks fuel (drop 1000 (x :: l)).
Proof. reflexivity. Qed.

Lemma concat_chunks {A} (fuel : nat) (l : list A) :
  (length l ≤ fuel)%nat → concat (Py.chunks fuel l) = l.
Proof.
  revert l. induction fuel as [|fuel IH]; intros l Hlen.
  - destruct l; [done | simpl in Hlen; lia].
  - destruct l as [|x l]; [done|].
    rewrite chunks_cons, concat_cons, IH, take_drop; [done|].
    rewrite length_drop. simpl in *. lia.
Qed.

(** Chunking loses no identifier and invents none. *)
Lemma concat_chunked {A} (l : list A) : concat (Py.chunked l) = l.
Proof. by apply concat_chunks. Qed.

Lemma elem_of_chunked {A} (x : A) (l : list A) :
  x ∈ l ↔ ∃ chunk, chunk ∈ Py.chunked l ∧ x ∈ chunk.
Proof.
  rewrite <- (concat_chunked l) at 1.
  rewrite list_elem_of_In, in_concat.
  split; intros (chunk & H1 & H2); exists chunk;
    rewrite ?list_elem_of_In in *; tauto.
Qed.

Lemma dict_update_cons {K} `{Countable K} {V} (d : gmap K V) p rows :
  Py.dict_update d (p :: rows) = Py.dict_update (<[p.1 := p.2]> d) rows.
Proof. reflexivity. Qed.

Lemma dict_update_lookup_notin {K} `{Countable K} {V}
    (d : gmap K V) (rows : list (K * V)) (k : K) :
  k ∉ rows.*1 → Py.dict_update d rows !! k = d !! k.
Proof.
  revert d. induction rows as [|[k' v'] rows IH]; intros d Hk; [done|].
  rewrite dict_update_cons, IH; simpl in *.
  - apply lookup_insert_ne. intros ->. apply Hk. left.
  - intros Hin. apply Hk. by right.
Qed.

(** When every row of key [k] carries the same value, that value wins. *)
Lemma dict_update_lookup_fun {K} `{Countable K} {V}
    (d : gmap K V) (rows : list (K * V)) (k : K) (v : V) :
  (∀ v', (k, v') ∈ rows → v' = v) →
  k ∈ rows.*1 →
  Py.dict_update d rows !! k = Some v.
Proof.
  revert d. induction rows as [|[k0 v0] rows IH]; intros d Hfun Hk.
  - by apply elem_of_nil in Hk.
  - rewrite dict_update_cons.
    destruct (decide (k ∈ rows.*1)) as [Hin|Hnin].
    + apply IH; [|done]. intros v' Hv'. apply Hfun. by right.
    + rewrite dict_update_lookup_notin by done.
      simpl in *. apply elem_of_cons in Hk as [->|?]; [|done].
      rewrite lookup_insert_eq. f_equal. apply Hfun. left.
Qed.

(** ** Computations that write nothing *)

Lemma log_grows_refl w : log_grows w w.
Proof. exists []. by rewrite app_nil_r. Qed.

Lemma log_grows_trans w1 w2 w3 :
  log_grows w1 w2 → log_grows w2 w3 → log_grows w1 w3.
Proof.
  intros [m1 H1] [m2 H2]. exists (m1 ++ m2). by rewrite H2, H1, app_assoc.
Qed.

Lemma log_grows_elem_of w w' m : log_grows w w' → m ∈ log w → m ∈ log w'.
Proof. intros [msgs ->] Hm. apply elem_of_app. by left. Qed.

Lemma no_writes_refl w : no_writes w w.
Proof.
  split; [done|]. split; [done|]. split; [|apply log_grows_refl].
  exists []. by rewrite app_nil_r.
Qed.

Lemma no_writes_trans w1 w2 w3 :
  no_writes w1 w2 → no_writes w2 w3 → no_writes w1 w3.
Proof.
  intros (Hd1 & Ht1 & (s1 & Hs1 & Hf1) & Hl1) (Hd2 & Ht2 & (s2 & Hs2 & Hf2) & Hl2).
  split; [congruence|]. split; [congruence|].
  split; [|by eapply log_grows_trans].
  exists (s1 ++ s2). rewrite Hs2, Hs1, app_assoc. split; [done|].
  by apply Forall_app.
Qed.

Lemma no_writes_record st w : is_write st = false → no_writes w (record st w).
Proof.
  intros Hst. split; [done|]. split; [done|].
  split; [|by (exists []; rewrite app_nil_r)].
  exists [st]. split; [done|]. by constructor.
Qed.

Lemma quiet_ret {A} (a : A) : quiet (ret a) (λ _, a).
Proof. intros w. exists w. split; [done | apply no_writes_refl]. Qed.

Lemma quiet_log m : quiet (log_print m) (λ _, ()).
Proof.
  intros w. eexists. split; [reflexivity|].
  split; [done|]. split; [done|]. split; [|by exists [m]].
  exists []. by rewrite app_nil_r.
Qed.

Lemma quiet_bind {A B} (c : Prog A) (k : A → Prog B) f g :
  quiet c f → (∀ a, quiet (k a) (g a)) → quiet (bind c k) (λ d, g (f d) d).
Proof.
  intros Hc Hk w. destruct (Hc w) as (w1 & Hc1 & Hn1).
  destruct (Hk (f (db w)) w1) as (w2 & Hk2 & Hn2).
  exists w2. unfold bind. rewrite Hc1, Hk2.
  destruct Hn1 as (Hd & ?). rewrite Hd. split; [done|].
  eapply no_writes_trans; [|done]. by split.
Qed.

Lemma quiet_fold_each {A S} (l : list A) (body : S → A → Prog S) (f : Store → S → A → S) :
  (∀ s x, quiet (body s x) (λ d, f d s x)) →
  ∀ s, quiet (fold_each l s body) (λ d, foldl (f d) s l).
Proof.
  intros Hbody. induction l as [|x l IH]; intros s; simpl.
  - apply quiet_ret.
  - apply (quiet_bind _ _ (λ d, f d s x) (λ s' d, foldl (f d) s' l)); [apply Hbody|].
    intros s'. apply IH.
Qed.

Lemma quiet_select_existing chunk :
  quiet (execute_select_existing chunk) (select_existing chunk).
Proof.
  intros w. eexists. split; [reflexivity|]. by apply no_writes_record.
Qed.

Lemma quiet_select_idconteudo fn chunk :
  quiet (execute_select_idconteudo fn chunk) (select_idconteudo fn chunk).
Proof.
  intros w. eexists. split; [reflexivity|]. by apply no_writes_record.
Qed.

Lemma quiet_select_busca_tipos cats grupos :
  quiet (execute_select_busca_tipos cats grupos) (select_busca_tipos cats grupos).
Proof.
  intros w. eexists. split; [reflexivity|]. by apply no_writes_record.
Qed.

(** ** [fetch_existing_idtipos] *)

Lemma has_tt_true idt d :
  has_tt idt d = true ↔ ∃ r, r ∈ PUB_TIPOS_TEXTOS d ∧ tt_idTipo r = idt.
Proof.
  unfold has_tt. rewrite existsb_exists.
  split; intros (r & Hr & Heq); exists r.
  - apply list_elem_of_In in Hr. by apply Z.eqb_eq in Heq.
  - apply list_elem_of_In in Hr. by apply Z.eqb_eq in Heq.
Qed.

Lemma has_tl_true idt d :
  has_tl idt d = true ↔ ∃ r, r ∈ PUB_TIPOS_TEXTOS_TITULOS d ∧ tl_idTipo r = idt.
Proof.
  unfold has_tl. rewrite existsb_exists.
  split; intros (r & Hr & Heq); exists r.
  - apply list_elem_of_In in Hr. by apply Z.eqb_eq in Heq.
  - apply list_elem_of_In in Hr. by apply Z.eqb_eq in Heq.
Qed.

Lemma elem_of_select_existing x chunk d :
  x ∈ select_existing chunk d ↔ x ∈ chunk ∧ has_tt x d = true.
Proof.
  unfold select_existing. rewrite list_elem_of_fmap, has_tt_true. split.
  - intros (r & -> & Hr). apply list_elem_of_filter in Hr as [? ?]. eauto.
  - intros (Hx & r & Hr & <-). exists r. split; [done|].
    by apply list_elem_of_filter.
Qed.

Lemma elem_of_foldl_union (f : list Z → list Z) (chunks : list (list Z)) (s : gset Z) x :
  x ∈ foldl (λ out chunk, out ∪ list_to_set (f chunk)) s chunks ↔
  x ∈ s ∨ ∃ chunk, chunk ∈ chunks ∧ x ∈ f chunk.
Proof.
  revert s. induction chunks as [|c chunks IH]; intros s; simpl.
  - split; [by left|]. intros [?|(? & Hc & _)]; [done|]. by apply elem_of_nil in Hc.
  - rewrite IH, elem_of_union, elem_of_list_to_set. split.
    + intros [[?|?]|(c' & ? & ?)]; [by left| |].
      * right. exists c. split; [left|done].
      * right. exists c'. split; [by right|done].
    + intros [?|(c' & Hc' & ?)]; [by left; left|].
      apply elem_of_cons in Hc' as [->|?]; [by left; right|].
      right. by exists c'.
Qed.

(** The existence check returns exactly the identifiers of [ids] that have a
    row, whatever the chunking, and writes nothing. *)
Lemma quiet_fetch_existing_idtipos ids :
  quiet (fetch_existing_idtipos ids) (existing_idtipos ids).
Proof.
  destruct ids as [|i ids]; [apply quiet_ret|].
  intros w. unfold fetch_existing_idtipos.
  destruct (quiet_fold_each (Py.chunked (i :: ids))
    (λ (out : gset Z) chunk,
       fetched <- execute_select_existing chunk ;; ret (out ∪ list_to_set fetched))
    (λ d out chunk, out ∪ list_to_set (select_existing chunk d))) with (s := (∅ : gset Z)) (w := w)
    as (w' & Hrun & Hnw).
  { intros s x.
    apply (quiet_bind _ _ (select_existing x) (λ fetched _, s ∪ list_to_set fetched)).
    - apply quiet_select_existing.
    - intros a. apply quiet_ret. }
  exists w'. split; [|done]. rewrite Hrun. do 2 f_equal.
  apply set_eq. intros x.
  rewrite (elem_of_foldl_union (λ chunk, select_existing chunk (db w))).
  unfold existing_idtipos. rewrite elem_of_list_to_set, list_elem_of_filter.
  rewrite (elem_of_chunked x (i :: ids)). split.
  - intros [Hx|(c & Hc & Hx)]; [by apply not_elem_of_empty in Hx|].
    apply elem_of_select_existing in Hx as [? ?]. eauto.
  - intros (Hx & c & Hc & Hxc). right. exists c. split; [done|].
    by apply elem_of_select_existing.
Qed.

(** ** [resolve_idconteudo] *)

Lemma elem_of_conteudos_of c idt tbl :
  c ∈ conteudos_of idt tbl ↔ (idt, Some c) ∈ tbl.
Proof.
  unfold conteudos_of. rewrite list_elem_of_omap. split.
  - intros ([t o] & Hin & Hsel). simpl in Hsel.
    destruct (decide (t = idt)) as [->|]; [|done]. by subst o.
  - intros Hin. exists (idt, Some c). split; [done|]. simpl.
    by rewrite decide_True.
Qed.

Lemma foldl_min_spec a l :
  foldl Z.min a l ∈ a :: l ∧ ∀ x, x ∈ a :: l → foldl Z.min a l ≤ x.
Proof.
  revert a. induction l as [|b l IH]; intros a; simpl.
  - split; [left|]. intros x Hx. apply list_elem_of_singleton in Hx. lia.
  - destruct (IH (Z.min a b)) as [Hin Hle]. split.
    + apply elem_of_cons in Hin as [Heq|Hin]; [|by do 2 right].
      rewrite Heq. destruct (Z.min_spec a b) as [[_ ->]|[_ ->]]; [left|right; left].
    + intros x Hx. rewrite !elem_of_cons in Hx.
      destruct Hx as [->|[->|Hx]].
      * specialize (Hle (Z.min a b)). etrans; [apply Hle; left|lia].
      * specialize (Hle (Z.min a b)). etrans; [apply Hle; left|lia].
      * apply Hle. by right.
Qed.

Lemma foldl_max_spec a l :
  foldl Z.max a l ∈ a :: l ∧ ∀ x, x ∈ a :: l → x ≤ foldl Z.max a l.
Proof.
  revert a. induction l as [|b l IH]; intros a; simpl.
  - split; [left|]. intros x Hx. apply list_elem_of_singleton in Hx. lia.
  - destruct (IH (Z.max a b)) as [Hin Hle]. split.
    + apply elem_of_cons in Hin as [Heq|Hin]; [|by do 2 right].
      rewrite Heq. destruct (Z.max_spec a b) as [[_ ->]|[_ ->]]; [right; left|left].
    + intros x Hx. rewrite !elem_of_cons in Hx.
      destruct Hx as [->|[->|Hx]].
      * specialize (Hle (Z.max a b)). etrans; [|apply Hle; left]. lia.
      * specialize (Hle (Z.max a b)). etrans; [|apply Hle; left]. lia.
      * apply Hle. by right.
Qed.

Lemma agg_is_Some fn l : l ≠ [] → is_Some (agg fn l).
Proof. destruct l; [done|]. intros _. by eexists. Qed.

Lemma agg_MIN_spec l c :
  agg MIN l = Some c → c ∈ l ∧ ∀ x, x ∈ l → c ≤ x.
Proof.
  destruct l as [|a l]; [done|]. intros [= <-]. apply foldl_min_spec.
Qed.

Lemma agg_MAX_spec l c :
  agg MAX l = Some c → c ∈ l ∧ ∀ x, x ∈ l → x ≤ c.
Proof.
  destruct l as [|a l]; [done|]. intros [= <-]. apply foldl_max_spec.
Qed.

(** The rows of one [SELECT ... GROUP BY]: one row per identifier of the chunk
    that has a non-null content id, carrying the aggregate. *)
Lemma elem_of_select_idconteudo fn chunk d k v :
  (k, v) ∈ select_idconteudo fn chunk d ↔
  k ∈ chunk ∧ agg fn (conteudos_of k (TEMATICOS_CONTEUDO_ITEM d)) = Some v.
Proof.
  unfold select_idconteudo. rewrite list_elem_of_omap. split.
  - intros (t & Ht & Hsel).
    destruct (agg fn (conteudos_of t (TEMATICOS_CONTEUDO_ITEM d))) as [c|] eqn:Hagg;
      [|done].
    simpl in Hsel. injection Hsel as -> ->. split; [|done].
    apply elem_of_unique, list_elem_of_fmap in Ht as (p & -> & Hp).
    apply list_elem_of_filter in Hp. by destruct Hp as [[? _] _].
  - intros [Hk Hagg]. exists k. rewrite Hagg. split; [|done].
    apply elem_of_unique, list_elem_of_fmap.
    destruct (conteudos_of k (TEMATICOS_CONTEUDO_ITEM d)) as [|c l] eqn:Hcs; [done|].
    assert (Hc : c ∈ conteudos_of k (TEMATICOS_CONTEUDO_ITEM d))
      by (rewrite Hcs; left).
    apply elem_of_conteudos_of in Hc.
    exists (k, Some c). split; [done|].
    apply list_elem_of_filter. simpl. by eauto.
Qed.

Lemma select_idconteudo_key fn chunk d k :
  k ∈ (select_idconteudo fn chunk d).*1 →
  k ∈ chunk ∧ is_Some (agg fn (conteudos_of k (TEMATICOS_CONTEUDO_ITEM d))).
Proof.
  intros Hk. apply list_elem_of_fmap in Hk as ([k' v] & -> & Hin).
  apply elem_of_select_idconteudo in Hin as [? ?]. simpl. eauto.
Qed.

Lemma foldl_dict_update_other fn d (chunks : list (list Z)) (m : gmap Z Z) k :
  (∀ chunk, chunk ∈ chunks → k ∉ chunk) →
  foldl (λ mapping chunk, Py.dict_update mapping (select_idconteudo fn chunk d))
        m chunks !! k = m !! k.
Proof.
  revert m. induction chunks as [|c chunks IH]; intros m Hk; simpl; [done|].
  rewrite IH by (intros c' ?; apply Hk; by right).
  apply dict_update_lookup_notin. intros Hin.
  apply select_idconteudo_key in Hin as [Hin _].
  by apply (Hk c); [left|].
Qed.

Lemma foldl_dict_update_agg fn d (chunks : list (list Z)) (m : gmap Z Z) k v :
  agg fn (conteudos_of k (TEMATICOS_CONTEUDO_ITEM d)) = Some v →
  (m !! k = Some v ∨ ∃ chunk, chunk ∈ chunks ∧ k ∈ chunk) →
  foldl (λ mapping chunk, Py.dict_update mapping (select_idconteudo fn chunk d))
        m chunks !! k = Some v.
Proof.
  intros Hagg. revert m. induction chunks as [|c chunks IH]; intros m Hk; simpl.
  - destruct Hk as [?|(? & Hc & _)]; [done|]. by apply elem_of_nil in Hc.
  - apply IH. destruct (decide (k ∈ c)) as [Hkc|Hkc].
    + left. apply dict_update_lookup_fun.
      * intros v' Hv'. apply elem_of_select_idconteudo in Hv' as [_ Hv'].
        congruence.
      * apply list_elem_of_fmap. exists (k, v). split; [done|].
        by apply elem_of_select_idconteudo.
    + destruct Hk as [Hm|(c' & Hc' & Hkc')].
      * left. rewrite dict_update_lookup_notin; [done|].
        intros Hin. by apply select_idconteudo_key in Hin as [? _].
      * apply elem_of_cons in Hc' as [->|?]; [done|]. right. by exists c'.
Qed.

(** The mapping holds, for a requested identifier, the aggregate of its
    non-null content ids, and nothing when it has none. *)
Lemma mapping_of_lookup missing_ids pick d idt :
  idt ∈ missing_ids →
  mapping_of missing_ids pick d !! idt =
  agg (agg_of_pick pick) (conteudos_of idt (TEMATICOS_CONTEUDO_ITEM d)).
Proof.
  intros Hin. unfold mapping_of.
  assert (Hids : idt ∈ Py.sorted (elements (list_to_set missing_ids : gset Z)))
    by (by apply elem_of_sorted, elem_of_elements, elem_of_list_to_set).
  apply elem_of_chunked in Hids as (chunk & Hchunk & Hidt).
  destruct (agg (agg_of_pick pick) (conteudos_of idt (TEMATICOS_CONTEUDO_ITEM d)))
    as [v|] eqn:Hagg.
  - apply foldl_dict_update_agg; [done|]. right. by exists chunk.
  - set (chunks := Py.chunked _). clearbody chunks. clear Hchunk.
    assert (Hgen : ∀ m : gmap Z Z, m !! idt = None →
      foldl (λ mapping c, Py.dict_update mapping
               (select_idconteudo (agg_of_pick pick) c d)) m chunks !! idt = None).
    { induction chunks as [|c chunks IH]; intros m Hm; simpl; [done|].
      apply IH. rewrite dict_update_lookup_notin; [done|].
      intros Hk. apply select_idconteudo_key in Hk as [_ [? Hs]]. congruence. }
    apply Hgen, lookup_empty.
Qed.

Lemma quiet_resolve_idconteudo missing_ids pick :
  quiet (resolve_idconteudo missing_ids pick) (mapping_of missing_ids pick).
Proof.
  unfold resolve_idconteudo, mapping_of.
  destruct (Py.sorted (elements (list_to_set missing_ids : gset Z))) as [|i ids] eqn:Hids.
  { apply quiet_ret. }
  fold (agg_of_pick pick).
  apply (quiet_fold_each (Py.chunked (i :: ids))
    (λ (mapping : gmap Z Z) chunk,
       fetched <- execute_select_idconteudo (agg_of_pick pick) chunk ;;
       ret (Py.dict_update mapping fetched))
    (λ d mapping chunk,
       Py.dict_update mapping (select_idconteudo (agg_of_pick pick) chunk d))).
  intros s x.
  apply (quiet_bind _ _ (select_idconteudo (agg_of_pick pick) x)
           (λ fetched _, Py.dict_update s fetched)).
  - apply quiet_select_idconteudo.
  - intros a. apply quiet_ret.
Qed.

(** C7. For an identifier that was asked for and that the mapping table
    associates with at least one non-null content id, [resolve_idconteudo]
    returns a mapping that sends it to one of those ids: the least one under
    [pick = "min"], the greatest one under [pick = "max"].  Rows whose content
    id is null take no part, and the mapping is a function of the tables only,
    so another run on the same tables returns the same mapping. *)
Theorem resolve_idconteudo_picks_extremum
    (missing_ids : list Z) (pick : string) (w : World) (idt c0 : Z) :
  idt ∈ missing_ids →
  (idt, Some c0) ∈ TEMATICOS_CONTEUDO_ITEM (db w) →
  ∃ mapping w' c,
    resolve_idconteudo missing_ids pick w = (Ok mapping, w') ∧
    mapping !! idt = Some c ∧
    (idt, Some c) ∈ TEMATICOS_CONTEUDO_ITEM (db w) ∧
    (pick = "min" → ∀ x, (idt, Some x) ∈ TEMATICOS_CONTEUDO_ITEM (db w) → c ≤ x) ∧
    (pick = "max" → ∀ x, (idt, Some x) ∈ TEMATICOS_CONTEUDO_ITEM (db w) → x ≤ c) ∧
    (∀ w2, db w2 = db w → (resolve_idconteudo missing_ids pick w2).1 = Ok mapping).
Proof.
  intros Hin Hc0.
  destruct (quiet_resolve_idconteudo missing_ids pick w) as (w' & Hrun & _).
  pose proof (mapping_of_lookup missing_ids pick (db w) idt Hin) as Hlook.
  apply elem_of_conteudos_of in Hc0.
  destruct (agg_is_Some (agg_of_pick pick)
              (conteudos_of idt (TEMATICOS_CONTEUDO_ITEM (db w)))) as [c Hc].
  { intros Hnil. rewrite Hnil in Hc0. by apply elem_of_nil in Hc0. }
  rewrite Hc in Hlook.
  exists (mapping_of missing_ids pick (db w)), w', c.
  split; [done|]. split; [done|].
  assert (Hmem : c ∈ conteudos_of idt (TEMATICOS_CONTEUDO_ITEM (db w))).
  { destruct (agg_of_pick pick).
    - by apply agg_MIN_spec in Hc as [? _].
    - by apply agg_MAX_spec in Hc as [? _]. }
  split; [by apply elem_of_conteudos_of|].
  repeat split.
  - intros -> x Hx. apply elem_of_conteudos_of in Hx.
    change (agg_of_pick "min") with MIN in Hc.
    apply agg_MIN_spec in Hc as [_ Hle]. by apply Hle.
  - intros -> x Hx. apply elem_of_conteudos_of in Hx.
    change (agg_of_pick "max") with MAX in Hc.
    apply agg_MAX_spec in Hc as [_ Hle]. by apply Hle.
  - intros w2 Hdb.
    destruct (quiet_resolve_idconteudo missing_ids pick w2) as (w2' & Hrun2 & _).
    by rewrite Hrun2, Hdb.
Qed.

(** ** [seed_missing] *)

Lemma has_tt_insert_tt idt r d :
  has_tt idt (insert_tt r d) = has_tt idt d || (tt_idTipo r =? idt).
Proof.
  unfold has_tt, insert_tt. simpl. rewrite existsb_app. simpl.
  by rewrite orb_false_r.
Qed.

Lemma has_tl_insert_tl idt r d :
  has_tl idt (insert_tl r d) = has_tl idt d || (tl_idTipo r =? idt).
Proof.
  unfold has_tl, insert_tl. simpl. rewrite existsb_app. simpl.
  by rewrite orb_false_r.
Qed.

Lemma rows_tt_nil idt d : has_tt idt d = false → rows_tt idt d = [].
Proof.
  unfold has_tt, rows_tt. induction (PUB_TIPOS_TEXTOS d) as [|r l IH]; [done|].
  simpl. intros H. apply orb_false_iff in H as [Hr Hl].
  rewrite filter_cons, decide_False by (by apply Z.eqb_neq). by apply IH.
Qed.

Lemma rows_tl_nil idt d : has_tl idt d = false → rows_tl idt d = [].
Proof.
  unfold has_tl, rows_tl. induction (PUB_TIPOS_TEXTOS_TITULOS d) as [|r l IH]; [done|].
  simpl. intros H. apply orb_false_iff in H as [Hr Hl].
  rewrite filter_cons, decide_False by (by apply Z.eqb_neq). by apply IH.
Qed.

(** One conditional insert into [PUB_TIPOS_TEXTOS]: rows are only added, never
    for an identifier that has one, and the other table is not touched. *)
Lemma seed_tt_db_ok idt idc d d' :
  seed_tt_db idt idc d = Ok d' →
  has_tt idt d' = true ∧
  PUB_TIPOS_TEXTOS_TITULOS d' = PUB_TIPOS_TEXTOS_TITULOS d ∧
  (∀ k, has_tt k d = true → has_tt k d' = true ∧ rows_tt k d' = rows_tt k d) ∧
  (∀ k, has_tt k d = false →
        rows_tt k d' = [] ∨ (has_tt k d' = true ∧ length (rows_tt k d') = 1%nat)).
Proof.
  unfold seed_tt_db. destruct (has_tt idt d) eqn:Hex.
  - intros [= <-]. split; [done|]. split; [done|]. split; [done|].
    intros k Hk. left. by apply rows_tt_nil.
  - destruct (tt_accepts d (seed_row_tt idt idc)); [|done].
    intros [= <-]. split; [|split; [done|split]].
    + rewrite has_tt_insert_tt. simpl. by rewrite Z.eqb_refl, orb_true_r.
    + intros k Hk. split.
      * rewrite has_tt_insert_tt. by rewrite Hk.
      * unfold rows_tt, insert_tt. simpl. rewrite filter_app.
        rewrite filter_cons, decide_False, filter_nil, app_nil_r; [done|].
        simpl. intros ->. congruence.
    + intros k Hk. destruct (decide (idt = k)) as [->|Hne].
      * right. split.
        { rewrite has_tt_insert_tt. simpl. by rewrite Z.eqb_refl, orb_true_r. }
        unfold rows_tt, insert_tt. simpl. rewrite filter_app. fold (rows_tt k d).
        rewrite (rows_tt_nil k d Hk). by rewrite filter_cons, decide_True.
      * left. unfold rows_tt, insert_tt. simpl. rewrite filter_app. fold (rows_tt k d).
        rewrite (rows_tt_nil k d Hk). by rewrite filter_cons, decide_False.
Qed.

Lemma seed_tl_db_ok idt idc d d' :
  seed_tl_db idt idc d = Ok d' →
  has_tl idt d' = true ∧
  PUB_TIPOS_TEXTOS d' = PUB_TIPOS_TEXTOS d ∧
  (∀ k, has_tl k d = true → has_tl k d' = true ∧ rows_tl k d' = rows_tl k d) ∧
  (∀ k, has_tl k d = false →
        rows_tl k d' = [] ∨ (has_tl k d' = true ∧ length (rows_tl k d') = 1%nat)).
Proof.
  unfold seed_tl_db. destruct (has_tl idt d) eqn:Hex.
  - intros [= <-]. split; [done|]. split; [done|]. split; [done|].
    intros k Hk. left. by apply rows_tl_nil.
  - destruct (tl_accepts d (seed_row_tl idt idc)); [|done].
    intros [= <-]. split; [|split; [done|split]].
    + rewrite has_tl_insert_tl. simpl. by rewrite Z.eqb_refl, orb_true_r.
    + intros k Hk. split.
      * rewrite has_tl_insert_tl. by rewrite Hk.
      * unfold rows_tl, insert_tl. simpl. rewrite filter_app.
        rewrite filter_cons, decide_False, filter_nil, app_nil_r; [done|].
        simpl. intros ->. congruence.
    + intros k Hk. destruct (decide (idt = k)) as [->|Hne].
      * right. split.
        { rewrite has_tl_insert_tl. simpl. by rewrite Z.eqb_refl, orb_true_r. }
        unfold rows_tl, insert_tl. simpl. rewrite filter_app. fold (rows_tl k d).
        rewrite (rows_tl_nil k d Hk). by rewrite filter_cons, decide_True.
      * left. unfold rows_tl, insert_tl. simpl. rewrite filter_app. fold (rows_tl k d).
        rewrite (rows_tl_nil k d Hk). by rewrite filter_cons, decide_False.
Qed.

Lemma seeded_from_refl d : seeded_from d d.
Proof.
  split; [done|]. split; [|split; [done|]].
  - intros k Hk. rewrite rows_tt_nil by done. simpl. lia.
  - intros k Hk. rewrite rows_tl_nil by done. simpl. lia.
Qed.

Lemma seeded_from_trans d1 d2 d3 :
  seeded_from d1 d2 → seeded_from d2 d3 → seeded_from d1 d3.
Proof.
  intros (A1 & B1 & C1 & D1) (A2 & B2 & C2 & D2).
  split; [|split; [|split]].
  - intros k Hk. destruct (A1 k Hk) as [Hk2 Hr]. destruct (A2 k Hk2) as [? Hr'].
    split; [done | congruence].
  - intros k Hk. destruct (has_tt k d2) eqn:Hk2.
    + destruct (A2 k Hk2) as [_ ->]. by apply B1.
    + by apply B2.
  - intros k Hk. destruct (C1 k Hk) as [Hk2 Hr]. destruct (C2 k Hk2) as [? Hr'].
    split; [done | congruence].
  - intros k Hk. destruct (has_tl k d2) eqn:Hk2.
    + destruct (C2 k Hk2) as [_ ->]. by apply D1.
    + by apply D2.
Qed.

Lemma seed_tt_db_seeded idt idc d d' :
  seed_tt_db idt idc d = Ok d' → seeded_from d d'.
Proof.
  intros H. apply seed_tt_db_ok in H as (_ & Htl & A & B).
  split; [done|]. split; [|split].
  - intros k Hk. destruct (B k Hk) as [->|[_ ->]]; simpl; lia.
  - intros k Hk. unfold has_tl, rows_tl. by rewrite Htl.
  - intros k Hk. unfold rows_tl. rewrite Htl. fold (rows_tl k d).
    rewrite rows_tl_nil by done. simpl. lia.
Qed.

Lemma seed_tl_db_seeded idt idc d d' :
  seed_tl_db idt idc d = Ok d' → seeded_from d d'.
Proof.
  intros H. apply seed_tl_db_ok in H as (_ & Htt & A & B).
  split; [|split; [|split; [done|]]].
  - intros k Hk. unfold has_tt, rows_tt. by rewrite Htt.
  - intros k Hk. unfold rows_tt. rewrite Htt. fold (rows_tt k d).
    rewrite rows_tt_nil by done. simpl. lia.
  - intros k Hk. destruct (B k Hk) as [->|[_ ->]]; simpl; lia.
Qed.

(** A batch that went through has left a row in both tables for every pair,
    and changed the tables only as seeding may. *)
Lemma seed_rows_db_ok to_do d d' :
  seed_rows_db to_do d = Ok d' →
  seeded_from d d' ∧
  ∀ p, p ∈ to_do → has_tt p.1 d' = true ∧ has_tl p.1 d' = true.
Proof.
  revert d. induction to_do as [|p to_do IH]; intros d; simpl.
  - intros [= <-]. split; [apply seeded_from_refl|].
    intros p Hp. by apply elem_of_nil in Hp.
  - destruct (seed_tt_db p.1 p.2 d) as [d1|] eqn:H1; [|done].
    destruct (seed_tl_db p.1 p.2 d1) as [d2|] eqn:H2; [|done].
    intros H3. destruct (IH d2 H3) as [Hs Hall].
    pose proof (seed_tt_db_seeded _ _ _ _ H1) as S1.
    pose proof (seed_tl_db_seeded _ _ _ _ H2) as S2.
    split.
    { apply (seeded_from_trans d d1 d'); [done|].
      by apply (seeded_from_trans d1 d2 d'). }
    intros q Hq. apply elem_of_cons in Hq as [->|Hq]; [|by apply Hall].
    apply seed_tt_db_ok in H1 as (Htt & _).
    apply seed_tl_db_ok in H2 as (Htl & _).
    destruct S2 as (A2 & _). destruct Hs as (A3 & _ & C3 & _).
    split.
    + by apply A3, A2.
    + by apply C3.
Qed.

(** Seeding identifiers that all have their rows changes nothing and cannot
    fail: no [INSERT] is attempted. *)
Lemma seed_rows_db_noop to_do d :
  (∀ p, p ∈ to_do → has_tt p.1 d = true ∧ has_tl p.1 d = true) →
  seed_rows_db to_do d = Ok d.
Proof.
  induction to_do as [|p to_do IH]; intros Hall; simpl; [done|].
  destruct (Hall p) as [Htt Htl]; [left|].
  unfold seed_tt_db, seed_tl_db. rewrite Htt, Htl.
  apply IH. intros q Hq. apply Hall. by right.
Qed.

Lemma seed_rows_db_idempotent to_do d d' :
  seed_rows_db to_do d = Ok d' → seed_rows_db to_do d' = Ok d'.
Proof.
  intros H. apply seed_rows_db_noop. by apply seed_rows_db_ok in H as [_ ?].
Qed.

(** A batch only fails at one of its own statements. *)
Lemma seed_rows_db_raise to_do d e :
  seed_rows_db to_do d = Raise e →
  ∃ p, p ∈ to_do ∧
       (e = StoreError (SeedTT p.1 p.2) ∨ e = StoreError (SeedTL p.1 p.2)).
Proof.
  revert d. induction to_do as [|p to_do IH]; intros d; simpl; [done|].
  destruct (seed_tt_db p.1 p.2 d) as [d1|e1] eqn:H1.
  - destruct (seed_tl_db p.1 p.2 d1) as [d2|e2] eqn:H2.
    + intros H3. destruct (IH d2 H3) as (q & Hq & He).
      exists q. split; [by right|done].
    + intros [= <-]. exists p. split; [left|]. right.
      unfold seed_tl_db in H2. repeat case_match; congruence.
  - intros [= <-]. exists p. split; [left|]. left.
    unfold seed_tt_db in H1. repeat case_match; congruence.
Qed.

(** The loop of [seed_missing] acts on the tables as [seed_rows_db] does; it
    leaves the snapshot of the transaction and the log alone. *)
Lemma seed_rows_run to_do w :
  ∃ w',
    seed_rows to_do w =
      (match seed_rows_db to_do (db w) with Ok _ => Ok () | Raise e => Raise e end, w') ∧
    tx w' = tx w ∧ log w' = log w ∧
    (∃ sts, trace w' = trace w ++ sts) ∧
    (∀ d', seed_rows_db to_do (db w) = Ok d' → db w' = d').
Proof.
  revert w. induction to_do as [|p to_do IH]; intros w.
  - exists w. simpl. repeat split; [by exists []; rewrite app_nil_r|].
    by intros d' [= <-].
  - unfold seed_rows in *. simpl. unfold bind at 1 2.
    unfold execute_seed_tt at 1, seed_tt_db at 1 2.
    destruct (has_tt p.1 (db w)) eqn:Htt;
      [|destruct (tt_accepts (db w) (seed_row_tt p.1 p.2)) eqn:Hacc].
    + unfold execute_seed_tl at 1, seed_tl_db at 1 2. simpl.
      destruct (has_tl p.1 (db w)) eqn:Htl;
        [|destruct (tl_accepts (db w) (seed_row_tl p.1 p.2)) eqn:Hacc2].
      * edestruct IH as (w' & -> & Htx & Hlog & (sts & Htr) & Hdb). simpl in *.
        exists w'. repeat split; try done.
        exists ([SeedTT p.1 p.2; SeedTL p.1 p.2] ++ sts).
        rewrite Htr. by rewrite <- !app_assoc.
      * edestruct IH as (w' & -> & Htx & Hlog & (sts & Htr) & Hdb). simpl in *.
        exists w'. repeat split; try done.
        exists ([SeedTT p.1 p.2; SeedTL p.1 p.2] ++ sts).
        rewrite Htr. by rewrite <- !app_assoc.
      * eexists. split; [reflexivity|]. simpl. repeat split; [|done].
        exists [SeedTT p.1 p.2; SeedTL p.1 p.2]. by rewrite <- app_assoc.
    + unfold execute_seed_tl at 1, seed_tl_db at 1 2. simpl.
      destruct (has_tl p.1 (insert_tt (seed_row_tt p.1 p.2) (db w))) eqn:Htl;
        [|destruct (tl_accepts (insert_tt (seed_row_tt p.1 p.2) (db w))
                      (seed_row_tl p.1 p.2)) eqn:Hacc2].
      * edestruct IH as (w' & -> & Htx & Hlog & (sts & Htr) & Hdb). simpl in *.
        exists w'. repeat split; try done.
        exists ([SeedTT p.1 p.2; SeedTL p.1 p.2] ++ sts).
        rewrite Htr. by rewrite <- !app_assoc.
      * edestruct IH as (w' & -> & Htx & Hlog & (sts & Htr) & Hdb). simpl in *.
        exists w'. repeat split; try done.
        exists ([SeedTT p.1 p.2; SeedTL p.1 p.2] ++ sts).
        rewrite Htr. by rewrite <- !app_assoc.
      * eexists. split; [reflexivity|]. simpl. repeat split; [|done].
        exists [SeedTT p.1 p.2; SeedTL p.1 p.2]. by rewrite <- app_assoc.
    + eexists. split; [reflexivity|]. simpl. repeat split; [|done].
      by exists [SeedTT p.1 p.2].
Qed.

Lemma sorted_items_empty : Py.sorted_items ∅ = [].
Proof. unfold Py.sorted_items. by rewrite map_to_list_empty. Qed.

Lemma seed_missing_empty dry w : seed_missing ∅ dry w = (Ok (0, 0), w).
Proof. unfold seed_missing. by rewrite bool_decide_eq_true_2. Qed.

Lemma quiet_for_each {A} (l : list A) (body : A → Prog unit) :
  (∀ x, quiet (body x) (λ _, ())) → quiet (for_each l body) (λ _, ()).
Proof.
  intros Hbody. induction l as [|x l IH]; simpl; [apply quiet_ret|].
  by apply (quiet_bind _ _ (λ _, ()) (λ _ _, ())).
Qed.

(** A dry-run seed only prints. *)
Lemma quiet_seed_missing_dry_run m : quiet (seed_missing m true) (λ _, (0, 0)).
Proof.
  unfold seed_missing. case_bool_decide; [apply quiet_ret|].
  apply (quiet_bind _ _ (λ _, ()) (λ _ _, (0, 0))); [apply quiet_log|].
  intros _. apply (quiet_bind _ _ (λ _, ()) (λ _ _, (0, 0))).
  - apply quiet_for_each. intros x. apply quiet_log.
  - intros _. apply quiet_ret.
Qed.

(** A live seed of a non-empty mapping, in terms of the tables: the batch
    is committed when every statement went through, and otherwise the
    tables are put back as they were at [BEGIN TRAN] and the exception of the
    failed statement is raised again. *)
Lemma seed_missing_live_run m w :
  m ≠ ∅ →
  ∃ w',
    seed_missing m false w =
      (match seed_rows_db (Py.sorted_items m) (db w) with
       | Ok _ => Ok (0, 0)
       | Raise e => Raise e
       end, w') ∧
    db w' = match seed_rows_db (Py.sorted_items m) (db w) with
            | Ok d' => d'
            | Raise _ => db w
            end ∧
    tx w' = None ∧ log w' = log w ∧
    ∃ sts, trace w' =
           trace w ++ BeginTran :: sts ++
             [match seed_rows_db (Py.sorted_items m) (db w) with
              | Ok _ => Commit
              | Raise _ => Rollback
              end].
Proof.
  intros Hm. unfold seed_missing. rewrite bool_decide_eq_false_2 by done.
  unfold bind at 1. unfold execute_begin_tran at 1.
  set (w1 := set_tx (Some (db w)) (record BeginTran w)).
  destruct (seed_rows_run (Py.sorted_items m) w1)
    as (w2 & Hrun & Htx & Hlog & (sts & Htr) & Hdb).
  change (db w1) with (db w) in *.
  unfold bind at 1, try_except, bind at 1. rewrite Hrun.
  destruct (seed_rows_db (Py.sorted_items m) (db w)) as [d'|e] eqn:Hpure.
  - eexists. split; [reflexivity|]. simpl.
    split; [by apply Hdb|]. split; [done|]. split; [done|].
    exists sts. rewrite Htr. simpl. by rewrite <- !app_assoc.
  - unfold bind, execute_rollback. rewrite Htx. simpl.
    eexists. split; [reflexivity|]. simpl.
    split; [done|]. split; [done|]. split; [done|].
    exists sts. rewrite Htr. simpl. by rewrite <- !app_assoc.
Qed.

(** C10. Whenever [seed_missing] returns, in dry-run as in live mode and for
    every mapping, it returns the pair [(0, 0)]; it can only fail to return in
    live mode.  The rows a live seed inserts are therefore never counted in
    its result. *)
Theorem seed_missing_returns_zero_pair (m : gmap Z Z) (dry : bool) (w : World) :
  match (seed_missing m dry w).1 with
  | Ok counts => counts = (0, 0)
  | Raise _ => dry = false
  end.
Proof.
  destruct dry.
  - destruct (quiet_seed_missing_dry_run m w) as (w' & -> & _). done.
  - destruct (decide (m = ∅)) as [->|Hm].
    + by rewrite seed_missing_empty.
    + destruct (seed_missing_live_run m w Hm) as (w' & -> & _). simpl.
      by destruct (seed_rows_db (Py.sorted_items m) (db w)).
Qed.

(** C5. When a statement of the batch raises after [BEGIN TRAN], the live
    seed raises the same exception to its caller, its last statement is
    [ROLLBACK], no transaction is left open, and the tables are those of
    before the seed step: the rows inserted earlier in the batch are gone. *)
Theorem seed_missing_atomic (m : gmap Z Z) (w w2 : World) (e : Exn) :
  seed_rows (Py.sorted_items m) (execute_begin_tran w).2 = (Raise e, w2) →
  ∃ w',
    seed_missing m false w = (Raise e, w') ∧
    db w' = db w ∧
    tx w' = None ∧
    ∃ sts, trace w' = trace w ++ BeginTran :: sts ++ [Rollback].
Proof.
  intros Hfail.
  destruct (seed_rows_run (Py.sorted_items m) (execute_begin_tran w).2)
    as (w2' & Hrun & _).
  rewrite Hfail in Hrun. simpl in Hrun.
  assert (Hm : m ≠ ∅).
  { intros ->. rewrite sorted_items_empty in Hrun. simpl in Hrun. congruence. }
  destruct (seed_missing_live_run m w Hm) as (w' & Hlive & Hdb & Htx & _ & sts & Htr).
  destruct (seed_rows_db (Py.sorted_items m) (db w)) as [d'|e'] eqn:Hpure.
  { congruence. }
  assert (e' = e) as -> by congruence.
  exists w'. split; [done|]. split; [done|]. split; [done|]. by exists sts.
Qed.

(** C4. Running the live seed a second time, on the state the first run left,
    leaves the tables exactly as the first run left them; when the first run
    returned, the second returns too (it raises nothing); and over both
    runs an identifier that had rows keeps exactly those rows, while an
    identifier that had none ends with at most one row per table. *)
Theorem seed_missing_idempotent (m : gmap Z Z) (w : World) :
  let run1 := seed_missing m false w in
  let run2 := seed_missing m false run1.2 in
  db run2.2 = db run1.2 ∧
  (run1.1 = Ok (0, 0) → run2.1 = Ok (0, 0)) ∧
  seeded_from (db w) (db run1.2) ∧
  seeded_from (db w) (db run2.2).
Proof.
  cbv zeta. destruct (decide (m = ∅)) as [->|Hm].
  { rewrite !seed_missing_empty. simpl.
    split; [done|]. split; [done|]. split; apply seeded_from_refl. }
  destruct (seed_missing_live_run m w Hm) as (w1 & -> & Hdb1 & _). simpl.
  destruct (seed_missing_live_run m w1 Hm) as (w2 & -> & Hdb2 & _). simpl.
  destruct (seed_rows_db (Py.sorted_items m) (db w)) as [d'|e] eqn:Hpure.
  - pose proof (seed_rows_db_idempotent _ _ _ Hpure) as Hagain.
    rewrite Hdb1 in *. rewrite Hagain in *. rewrite Hdb2.
    apply seed_rows_db_ok in Hpure as [Hs _]. done.
  - rewrite Hdb1 in *. rewrite Hpure in *. rewrite Hdb2.
    split; [done|]. split; [done|]. split; apply seeded_from_refl.
Qed.

(** ** [update_textos] and [update_titulos] *)

Lemma sql_text_None c : sql_text c = None ↔ c = CNull.
Proof. destruct c; unfold sql_text; simpl; split; congruence. Qed.

Lemma update_tt_row_idTipo t1 t2 idt r :
  tt_idTipo (update_tt_row t1 t2 idt r) = tt_idTipo r.
Proof. unfold update_tt_row. by destruct (tt_idTipo r =? idt). Qed.

Lemma update_tl_row_idTipo t1 t2 idt r :
  tl_idTipo (update_tl_row t1 t2 idt r) = tl_idTipo r.
Proof. unfold update_tl_row. by destruct (tl_idTipo r =? idt). Qed.

(** An [UPDATE] does not change which rows an identifier has. *)
Lemma rowcount_tt_update_tt k t1 t2 idt d :
  rowcount_tt k (update_tt t1 t2 idt d) = rowcount_tt k d.
Proof.
  unfold rowcount_tt, update_tt. simpl. f_equal.
  induction (PUB_TIPOS_TEXTOS d) as [|r l IH]; [done|].
  rewrite fmap_cons, !filter_cons, update_tt_row_idTipo.
  destruct (decide (tt_idTipo r = k)); simpl; by rewrite IH.
Qed.

Lemma rowcount_tl_update_tl k t1 t2 idt d :
  rowcount_tl k (update_tl t1 t2 idt d) = rowcount_tl k d.
Proof.
  unfold rowcount_tl, update_tl. simpl. f_equal.
  induction (PUB_TIPOS_TEXTOS_TITULOS d) as [|r l IH]; [done|].
  rewrite fmap_cons, !filter_cons, update_tl_row_idTipo.
  destruct (decide (tl_idTipo r = k)); simpl; by rewrite IH.
Qed.

Lemma total_rowcount_tt_update df t1 t2 idt d :
  total_rowcount_tt df (update_tt t1 t2 idt d) = total_rowcount_tt df d.
Proof.
  induction df as [|r df IH]; simpl; [done|].
  by rewrite IH, rowcount_tt_update_tt.
Qed.

Lemma total_rowcount_tl_update df t1 t2 idt d :
  total_rowcount_tl df (update_tl t1 t2 idt d) = total_rowcount_tl df d.
Proof.
  induction df as [|r df IH]; simpl; [done|].
  by rewrite IH, rowcount_tl_update_tl.
Qed.

(** Every row the [WHERE] matches carries the two bound values and
    [Ativo = 1] afterwards. *)
Lemma update_tt_writes t1 t2 idt d r :
  r ∈ rows_tt idt (update_tt t1 t2 idt d) →
  tt_TextoPrimario r = t1 ∧ tt_TextoSecundario r = t2 ∧ tt_Ativo r = 1.
Proof.
  unfold rows_tt, update_tt. simpl. rewrite list_elem_of_filter, list_elem_of_fmap.
  intros [Hid (r0 & -> & _)]. rewrite update_tt_row_idTipo in Hid.
  unfold update_tt_row. apply Z.eqb_eq in Hid. by rewrite Hid.
Qed.

Lemma update_tl_writes t1 t2 idt d r :
  r ∈ rows_tl idt (update_tl t1 t2 idt d) →
  tl_TextoTitle r = t1 ∧ tl_TextoMetaDescription r = t2 ∧ tl_Ativo r = 1.
Proof.
  unfold rows_tl, update_tl. simpl. rewrite list_elem_of_filter, list_elem_of_fmap.
  intros [Hid (r0 & -> & _)]. rewrite update_tl_row_idTipo in Hid.
  unfold update_tl_row. apply Z.eqb_eq in Hid. by rewrite Hid.
Qed.

Lemma update_textos_loop df updated w :
  ∃ w',
    fold_each df updated
      (λ updated r,
         rowcount <- execute_update_tt (sql_text (TextoPrimario r))
                       (sql_text (TextoSecundario r)) (idTipo r) ;;
         ret (updated + rowcount)) w
    = (Ok (updated + total_rowcount_tt df (db w)), w') ∧
    db w' = foldl apply_frame_tt (db w) df ∧
    tx w' = tx w ∧ log w' = log w ∧
    trace w' = trace w ++ (stmt_of_tt <$> df).
Proof.
  revert updated w. induction df as [|r df IH]; intros updated w; simpl.
  - exists w. rewrite Z.add_0_r, app_nil_r. done.
  - unfold bind at 1 2. simpl.
    edestruct IH as (w' & -> & Hdb & Htx & Hlog & Htr).
    exists w'. simpl in *. rewrite total_rowcount_tt_update.
    split; [f_equal; f_equal; lia|]. split; [done|]. split; [done|]. split; [done|].
    rewrite Htr. by rewrite <- app_assoc.
Qed.

Lemma update_titulos_loop df updated w :
  ∃ w',
    fold_each df updated
      (λ updated r,
         rowcount <- execute_update_tl (sql_text (TextoTitle r))
                       (sql_text (TextoMetaDescription r)) (idTipo_tl r) ;;
         ret (updated + rowcount)) w
    = (Ok (updated + total_rowcount_tl df (db w)), w') ∧
    db w' = foldl apply_frame_tl (db w) df ∧
    tx w' = tx w ∧ log w' = log w ∧
    trace w' = trace w ++ (stmt_of_tl <$> df).
Proof.
  revert updated w. induction df as [|r df IH]; intros updated w; simpl.
  - exists w. rewrite Z.add_0_r, app_nil_r. done.
  - unfold bind at 1 2. simpl.
    edestruct IH as (w' & -> & Hdb & Htx & Hlog & Htr).
    exists w'. simpl in *. rewrite total_rowcount_tl_update.
    split; [f_equal; f_equal; lia|]. split; [done|]. split; [done|]. split; [done|].
    rewrite Htr. by rewrite <- app_assoc.
Qed.

(** [update_textos] issues exactly one [UPDATE] per line, in the order of the
    lines, each keyed by the idTipo of its line and binding SQL NULL for a
    missing text; it then commits and returns the sum of the row counts.  An
    idTipo that matches no row adds zero and raises nothing. *)
Lemma update_textos_spec df w :
  ∃ w',
    update_textos df w = (Ok (total_rowcount_tt df (db w)), w') ∧
    db w' = foldl apply_frame_tt (db w) df ∧
    log w' = log w ∧
    trace w' = trace w ++
      match df with [] => [] | _ :: _ => (stmt_of_tt <$> df) ++ [ConnCommit] end.
Proof.
  destruct df as [|r df].
  - exists w. by rewrite app_nil_r.
  - unfold update_textos. unfold bind at 1.
    destruct (update_textos_loop (r :: df) 0 w) as (w1 & -> & Hdb & Htx & Hlog & Htr).
    eexists. split; [reflexivity|]. simpl.
    split; [done|]. split; [done|]. rewrite Htr. simpl. by rewrite <- app_assoc.
Qed.

Lemma update_titulos_spec df w :
  ∃ w',
    update_titulos df w = (Ok (total_rowcount_tl df (db w)), w') ∧
    db w' = foldl apply_frame_tl (db w) df ∧
    log w' = log w ∧
    trace w' = trace w ++
      match df with [] => [] | _ :: _ => (stmt_of_tl <$> df) ++ [ConnCommit] end.
Proof.
  destruct df as [|r df].
  - exists w. by rewrite app_nil_r.
  - unfold update_titulos. unfold bind at 1.
    destruct (update_titulos_loop (r :: df) 0 w) as (w1 & -> & Hdb & Htx & Hlog & Htr).
    eexists. split; [reflexivity|]. simpl.
    split; [done|]. split; [done|]. rewrite Htr. simpl. by rewrite <- app_assoc.
Qed.

(** In the frame of [PUB_TIPOS_TEXTOS] an empty cell stays empty, and is
    bound as SQL NULL. *)
Lemma frame_tt_of_null_text df r f :
  frame_tt_of df r = Some f →
  (Texto_Principal r = CNull → sql_text (TextoPrimario f) = None) ∧
  (Texto_Secundario r = CNull → sql_text (TextoSecundario f) = None).
Proof.
  unfold frame_tt_of. destruct (to_numeric (id_tipo r)); [|done].
  simpl. intros [= <-]. simpl. unfold df_get.
  split; intros ->; by repeat case_match.
Qed.

(** In the frame of [PUB_TIPOS_TEXTOS_TITULOS] an empty cell of a column the
    sheet has went through [astype(str)]: it is the text [nan], and that text
    is what the [UPDATE] binds. *)
Lemma frame_tl_of_null_text df r f :
  frame_tl_of df r = Some f →
  (has_Texto_Title df = true → Texto_Title r = CNull →
     sql_text (TextoTitle f) = Some "nan") ∧
  (has_Texto_Meta_Description df = true → Texto_Meta_Description r = CNull →
     sql_text (TextoMetaDescription f) = Some "nan").
Proof.
  unfold frame_tl_of. destruct (to_numeric (id_tipo r)); [|done].
  simpl. intros [= <-]. simpl. unfold df_get.
  split; intros -> ->; done.
Qed.

(** ** [ensure_id_tipo] *)

Lemma elem_of_numeric_keys z col df :
  z ∈ numeric_keys col df ↔ ∃ r, r ∈ rows df ∧ to_numeric (col r) = Some z.
Proof.
  unfold numeric_keys. by rewrite elem_of_sorted, elem_of_unique, list_elem_of_omap.
Qed.


Lemma elem_of_select_busca_tipos r cats grupos d :
  r ∈ select_busca_tipos cats grupos d ↔
  r ∈ PROCESSADO_BUSCA_TIPOS d ∧ r.1.1 ∈ cats ∧ r.1.2 ∈ grupos.
Proof.
  unfold select_busca_tipos. rewrite elem_of_unique, list_elem_of_filter.
  split; [intros [[? ?] ?] | intros (? & ? & ?)]; done.
Qed.

Lemma dict_update_lookup_Some {K} `{Countable K} {V}
    (d : gmap K V) (rows : list (K * V)) (k : K) (v : V) :
  Py.dict_update d rows !! k = Some v → (k, v) ∈ rows ∨ d !! k = Some v.
Proof.
  revert d. induction rows as [|[k0 v0] rows IH]; intros d; [by right|].
  rewrite dict_update_cons. intros Hl. apply IH in Hl as [?|Hl]; [by left; right|].
  simpl in Hl. destruct (decide (k0 = k)) as [->|Hne].
  - rewrite lookup_insert_eq in Hl. injection Hl as ->. left. left.
  - rewrite lookup_insert_ne in Hl by done. by right.
Qed.

(** [mapa] only knows pairs of the table, and knows every pair of the
    table whose two keys occur as numbers in the sheet. *)
Lemma busca_mapa_Some df d c g t :
  busca_mapa df d !! (c, g) = Some t → (c, g, t) ∈ PROCESSADO_BUSCA_TIPOS d.
Proof.
  unfold busca_mapa. intros Hl.
  apply dict_update_lookup_Some in Hl as [Hin|Hl]; [|by rewrite lookup_empty in Hl].
  apply list_elem_of_fmap in Hin as ([[c' g'] t'] & [= -> -> ->] & Hin).
  by apply elem_of_select_busca_tipos in Hin as [? _].
Qed.



(** What [ensure_id_tipo] does on a sheet without [id_tipo] that can be keyed
    by the pair: one [SELECT], the new column, at most one warning. *)
Lemma ensure_id_tipo_run df w :
  has_id_tipo df = false →
  has_id_cat df = true → has_id_grupo df = true →
  numeric_keys id_cat df ≠ [] → numeric_keys id_grupo df ≠ [] →
  let df' := with_id_tipo (busca_mapa df (db w)) df in
  ∃ w',
    ensure_id_tipo df w = (Ok df', w') ∧
    no_writes w w' ∧
    log w' = log w ++ match pares_sem_id_tipo df' with
                      | [] => []
                      | _ :: _ => [Log_AvisoSemIdTipo (take 20 (pares_sem_id_tipo df'))]
                      end.
Proof.
  intros H0 H1 H2 Hc Hg df'. unfold ensure_id_tipo. rewrite H0, H1, H2. simpl.
  destruct (numeric_keys id_cat df) as [|c cs] eqn:Ec; [done|].
  destruct (numeric_keys id_grupo df) as [|g gs] eqn:Eg; [done|].
  unfold bind at 1, execute_select_busca_tipos. simpl.
  assert (Hbm : Py.dict_update ∅
            ((λ r, (r.1.1, r.1.2, r.2)) <$> select_busca_tipos (c :: cs) (g :: gs) (db w))
          = busca_mapa df (db w)).
  { unfold busca_mapa. by rewrite Ec, Eg. }
  rewrite Hbm. subst df'. set (df' := with_id_tipo (busca_mapa df (db w)) df).
  destruct (pares_sem_id_tipo df') as [|p ps] eqn:Ep.
  - eexists. split; [reflexivity|]. split; [by apply no_writes_record|].
    simpl. by rewrite app_nil_r.
  - unfold bind, log_print. simpl. eexists. split; [reflexivity|]. split; [|done].
    split; [done|]. split; [done|]. simpl. split; [|by eexists].
    exists [SelectBuscaTipos (c :: cs) (g :: gs)]. split; [done|]. by constructor.
Qed.

(** Whenever [ensure_id_tipo] returns, the sheet has the [id_tipo] column and
    nothing was written. *)
Lemma ensure_id_tipo_ok df w df1 w1 :
  ensure_id_tipo df w = (Ok df1, w1) →
  has_id_tipo df1 = true ∧ no_writes w w1.
Proof.
  destruct (has_id_tipo df) eqn:H0.
  { unfold ensure_id_tipo. rewrite H0. intros [= <- <-].
    split; [done | apply no_writes_refl]. }
  destruct (has_id_cat df) eqn:H1; destruct (has_id_grupo df) eqn:H2;
    try (unfold ensure_id_tipo; rewrite H0, H1, H2; simpl; by intros [=]).
  destruct (numeric_keys id_cat df) as [|c cs] eqn:Ec.
  { unfold ensure_id_tipo. rewrite H0, H1, H2, Ec. simpl. by intros [=]. }
  destruct (numeric_keys id_grupo df) as [|g gs] eqn:Eg.
  { unfold ensure_id_tipo. rewrite H0, H1, H2, Ec, Eg. simpl. by intros [=]. }
  destruct (ensure_id_tipo_run df w H0 H1 H2) as (w' & Hrun & Hnw & _).
  { by rewrite Ec. } { by rewrite Eg. }
  rewrite Hrun. intros [= <- <-]. done.
Qed.

(** ** [main] *)

Lemma bind_ok {A B} (c : Prog A) (k : A → Prog B) w a w1 :
  c w = (Ok a, w1) → bind c k w = k a w1.
Proof. intros H. unfold bind. by rewrite H. Qed.

Lemma bind_raise {A B} (c : Prog A) (k : A → Prog B) w e w1 :
  c w = (Raise e, w1) → bind c k w = (Raise e, w1).
Proof. intros H. unfold bind. by rewrite H. Qed.

(** Run the quiet computation at the head of the goal's program. *)
Tactic Notation "run_quiet" constr(Hq) "as" ident(w') ident(Hnw) :=
  lazymatch goal with
  | |- context [bind ?c ?k ?w] =>
      let Hrun := fresh "Hrun" in
      destruct (Hq w) as (w' & Hrun & Hnw);
      rewrite (bind_ok c k w _ w' Hrun); cbv beta
  end.

(** Up to 300 identifiers in the sheet, the binary64 test of the code gives
    the answer of exact arithmetic for the threshold 0.35 (the default) and
    for the threshold 1 (the one the watcher passes), and [ratio <= limit]
    is the negation of [ratio > limit]. *)
Lemma ratio_gt_agrees_with_exact :
  ratio_tests_agree 300 threshold_default 35 100 = true ∧
  ratio_tests_agree 300 threshold_watcher 1 1 = true.
Proof. split; vm_compute; reflexivity. Qed.

(** The two tests part at a threshold that is itself a rounded quotient: the
    binary64 number nearest to two thirds is [6004799503160661 / 2^53], a
    little less than two thirds, yet for 2 identifiers missing out of 3 the
    code's quotient rounds to that very number and is not greater. *)
Lemma ratio_gt_two_thirds :
  Prim2SF threshold_two_thirds = S754_finite false 6004799503160661 (-53) ∧
  exact_ratio_gt 2 3 6004799503160661 (2 ^ 53) = true ∧
  ratio_gt (missing_ratio 2 3) threshold_two_thirds = false.
Proof. vm_compute. done. Qed.

(** The identifiers reported as missing are those of the sheet without a row,
    each counted once. *)
Lemma length_sorted_difference ids d :
  NoDup ids →
  length (sorted_difference ids (existing_idtipos ids d)) =
  length (missing_idtipos ids d).
Proof.
  intros Hnd. unfold sorted_difference, missing_idtipos. rewrite length_sorted.
  apply Permutation_length, NoDup_Permutation.
  - apply NoDup_elements.
  - by apply NoDup_filter.
  - intros x. rewrite elem_of_elements, elem_of_difference, elem_of_list_to_set.
    unfold existing_idtipos.
    rewrite elem_of_list_to_set, !list_elem_of_filter.
    destruct (has_tt x d); split; intros [H1 H2]; split; try done.
    + destruct H2. by split.
    + by intros [? _].
Qed.

Lemma NoDup_ids_plan_of df : NoDup (ids_plan_of df).
Proof. apply NoDup_unique. Qed.

Lemma apply_updates_run df_tt df_tl w :
  ∃ upd_tt upd_tl w',
    apply_updates df_tt df_tl w = (Ok (Concluido upd_tt upd_tl), w') ∧
    db w' = foldl apply_frame_tl (foldl apply_frame_tt (db w) df_tt) df_tl ∧
    log_grows w w'.
Proof.
  unfold apply_updates.
  assert (E1 : match df_tt with [] => ret 0 | _ :: _ => update_textos df_tt end
               = update_textos df_tt) by (by destruct df_tt).
  assert (E2 : match df_tl with [] => ret 0 | _ :: _ => update_titulos df_tl end
               = update_titulos df_tl) by (by destruct df_tl).
  rewrite E1, E2.
  destruct (update_textos_spec df_tt w) as (w1 & Hr1 & Hdb1 & Hlog1 & _).
  rewrite (bind_ok _ _ _ _ _ Hr1).
  destruct (update_titulos_spec df_tl w1) as (w2 & Hr2 & Hdb2 & Hlog2 & _).
  rewrite (bind_ok _ _ _ _ _ Hr2).
  do 3 eexists. split; [reflexivity|]. simpl. split; [by rewrite Hdb2, Hdb1|].
  eexists. simpl. rewrite Hlog2, Hlog1, <- !app_assoc. reflexivity.
Qed.

(** From a sheet whose identifiers resolved, [main] reaches step 6 without a
    write, with the identifiers of the sheet, those that exist and those
    that are missing. *)
Lemma main_reaches_guard args df w df1 w1 :
  ensure_id_tipo df w = (Ok df1, w1) →
  let ids := ids_plan_of df1 in
  let existentes := existing_idtipos ids (db w) in
  ∃ w2,
    no_writes w w2 ∧
    main args df w =
      guard_seed_update args ids existentes (sorted_difference ids existentes)
        (df_textos_of df1) (df_titulos_of df1) w2.
Proof.
  intros Hens ids existentes.
  destruct (ensure_id_tipo_ok _ _ _ _ Hens) as [Hcol Hnw1].
  unfold main, main_kind. simpl.
  rewrite (bind_ok _ _ _ _ _ Hens).
  unfold build_frames. rewrite Hcol. simpl.
  rewrite (bind_ok _ _ w1 (df_textos_of df1, df_titulos_of df1) w1 eq_refl).
  run_quiet (quiet_log (Log_Lidas (length (df_textos_of df1))
                                  (length (df_titulos_of df1)))) as wa Ha.
  simpl. unfold reconcile. fold ids.
  run_quiet (quiet_fetch_existing_idtipos ids) as wb Hb.
  assert (Hdb : db wa = db w).
  { destruct Ha as (-> & _). by destruct Hnw1 as (-> & _). }
  rewrite Hdb. fold existentes.
  run_quiet (quiet_log (Log_NoPMP (size existentes)
                          (length (sorted_difference ids existentes)))) as wc Hc.
  run_quiet (quiet_log (Log_IdsFaltando (sorted_difference ids existentes))) as wd Hd.
  exists wd. split; [|done].
  repeat (eapply no_writes_trans; [eassumption|]). apply no_writes_refl.
Qed.

Lemma filter_and_update_run existentes df_tt df_tl w :
  ∃ upd_tt upd_tl w',
    filter_and_update existentes df_tt df_tl w = (Ok (Concluido upd_tt upd_tl), w') ∧
    log_grows w w'.
Proof.
  unfold filter_and_update.
  destruct (apply_updates_run (filter (λ r, idTipo r ∈ existentes) df_tt)
              (filter (λ r, idTipo_tl r ∈ existentes) df_tl) w)
    as (a & b & w' & Hrun & _ & Hlog).
  by exists a, b, w'.
Qed.

Lemma quiet_apply_fallback args mapa sem_mapa :
  ∃ fb, quiet (apply_fallback args mapa sem_mapa) (λ _, fb).
Proof.
  unfold apply_fallback.
  destruct (default_idconteudo args) as [idc|]; [destruct sem_mapa as [|i l]|].
  - exists (mapa, []). apply quiet_ret.
  - exists (foldl (λ m idt, <[idt:=idc]> m) mapa (i :: l), []).
    apply (quiet_bind _ _ (λ _, ())
             (λ _ _, (foldl (λ m idt, <[idt:=idc]> m) mapa (i :: l), [])));
      [apply quiet_log|].
    intros _. apply quiet_ret.
  - exists (mapa, sem_mapa). apply quiet_ret.
Qed.

(** After the seed [main] reports it; a dry run then prints and returns
    without a write, a live run goes on to the two update passes. *)
Lemma after_seed_run args ids_plan sem_mapa ins df_tt df_tl w :
  ∃ out w',
    after_seed args ids_plan sem_mapa ins df_tt df_tl w = (Ok out, w') ∧
    (∃ msgs, log w' = log w ++ Log_SeedInseridos ins.1 ins.2 :: msgs) ∧
    if dry_run args then out = DryRunEnd ∧ no_writes w w'
    else ∃ upd_tt upd_tl, out = Concluido upd_tt upd_tl.
Proof.
  unfold after_seed.
  run_quiet (quiet_log (Log_SeedInseridos ins.1 ins.2)) as wa Ha.
  assert (Hla : log wa = log w ++ [Log_SeedInseridos ins.1 ins.2])
    by (by injection Hrun as <-).
  assert (Hq : quiet (match sem_mapa with
                      | [] => ret ()
                      | _ :: _ =>
                          log_print (Log_SemIdConteudo (take 20 sem_mapa)
                                       (bool_decide (20 < length sem_mapa)%nat))
                      end) (λ _, ())).
  { destruct sem_mapa; [apply quiet_ret | apply quiet_log]. }
  run_quiet Hq as wb Hb.
  assert (Hgrow : ∀ w', log_grows wb w' →
            ∃ msgs, log w' = log w ++ Log_SeedInseridos ins.1 ins.2 :: msgs).
  { intros w' [m2 H2]. destruct Hb as (_ & _ & _ & [m1 H1]).
    exists (m1 ++ m2). rewrite H2, H1, Hla, <- !app_assoc. done. }
  destruct (dry_run args) eqn:Hdry.
  - run_quiet (quiet_log Log_DryRunEncerrando) as wc Hc.
    exists DryRunEnd, wc. split; [done|].
    split; [by apply Hgrow; destruct Hc as (_ & _ & _ & ?)|].
    split; [done|].
    repeat (eapply no_writes_trans; [eassumption|]). apply no_writes_refl.
  - run_quiet (quiet_fetch_existing_idtipos ids_plan) as wc Hc.
    destruct (filter_and_update_run (existing_idtipos ids_plan (db wb)) df_tt df_tl wc)
      as (a & b & w' & -> & Hlog).
    exists (Concluido a b), w'. split; [done|]. split; [|by exists a, b].
    apply Hgrow. eapply log_grows_trans; [|done]. by destruct Hc as (_ & _ & _ & ?).
Qed.

Lemma seed_missing_live_cases m w :
  (∃ w', seed_missing m false w = (Ok (0, 0), w')) ∨
  (∃ idt idc w',
     seed_missing m false w = (Raise (StoreError (SeedTT idt idc)), w') ∨
     seed_missing m false w = (Raise (StoreError (SeedTL idt idc)), w')).
Proof.
  destruct (decide (m = ∅)) as [->|Hm].
  { left. exists w. apply seed_missing_empty. }
  destruct (seed_missing_live_run m w Hm) as (w' & Hrun & _).
  destruct (seed_rows_db (Py.sorted_items m) (db w)) as [d'|e] eqn:Hpure.
  - left. by exists w'.
  - right. apply seed_rows_db_raise in Hpure as ([idt idc] & _ & [->| ->]).
    + exists idt, idc, w'. by left.
    + exists idt, idc, w'. by right.
Qed.

(** Step 7 above the cap: the warning, and nothing else. *)
Lemma seed_step_over_cap args ids_plan faltam_all df_tt df_tl w :
  max_seed args < Z.of_nat (length faltam_all) →
  ∃ w', seed_step args ids_plan faltam_all df_tt df_tl w = (Ok AbortMaxSeed, w') ∧
        no_writes w w'.
Proof.
  intros Hcap. unfold seed_step.
  replace (Z.of_nat (length faltam_all) >? max_seed args) with true
    by (symmetry; apply Z.gtb_lt; lia).
  run_quiet (quiet_log (Log_AtencaoMaxSeed (length faltam_all) (max_seed args)))
    as wa Ha.
  by exists wa.
Qed.

(** Step 7 within the cap: the seeder is called, and the run ends as the
    mode says, unless a seed statement raised; when it ends, the log holds
    the report printed after the seeder returned. *)
Lemma seed_step_within_cap args ids_plan faltam_all df_tt df_tl w :
  Z.of_nat (length faltam_all) ≤ max_seed args →
  let run := seed_step args ids_plan faltam_all df_tt df_tl w in
  match run.1 with
  | Ok DryRunEnd => dry_run args = true
  | Ok (Concluido _ _) => dry_run args = false
  | Raise (StoreError (SeedTT _ _)) | Raise (StoreError (SeedTL _ _)) =>
      dry_run args = false
  | _ => False
  end ∧
  (∀ out, run.1 = Ok out →
          ∃ msgs, log run.2 = log w ++ msgs ∧ Log_SeedInseridos 0 0 ∈ msgs).
Proof.
  intros Hcap. cbv zeta. unfold seed_step.
  replace (Z.of_nat (length faltam_all) >? max_seed args) with false
    by (symmetry; rewrite Z.gtb_ltb; apply Z.ltb_ge; lia).
  run_quiet (quiet_resolve_idconteudo faltam_all (pick_idconteudo args)) as wa Ha.
  set (mapa := mapping_of faltam_all (pick_idconteudo args) (db w)).
  run_quiet (quiet_log (Log_Mapeados (size mapa)
               (length (sorted_difference faltam_all (dom mapa))))) as wb Hb.
  destruct (quiet_apply_fallback args mapa (sorted_difference faltam_all (dom mapa)))
    as [fb Hfb].
  run_quiet Hfb as wc Hc.
  assert (Hwc : log_grows w wc).
  { destruct Ha as (_ & _ & _ & ?), Hb as (_ & _ & _ & ?), Hc as (_ & _ & _ & ?).
    eapply log_grows_trans; [|done]. by eapply log_grows_trans. }
  assert (Hreport : ∀ wd w', log_grows wc wd →
            (∃ msgs, log w' = log wd ++ Log_SeedInseridos 0 0 :: msgs) →
            ∃ msgs, log w' = log w ++ msgs ∧ Log_SeedInseridos 0 0 ∈ msgs).
  { intros wd w' Hwd [m3 H3].
    destruct (log_grows_trans _ _ _ Hwc Hwd) as [m1 H1].
    exists (m1 ++ Log_SeedInseridos 0 0 :: m3).
    split; [by rewrite H3, H1, <- app_assoc|].
    apply elem_of_app. right. left. }
  destruct (dry_run args) eqn:Hdry.
  - run_quiet (quiet_seed_missing_dry_run fb.1) as wd Hd.
    destruct (after_seed_run args ids_plan fb.2 (0, 0) df_tt df_tl wd)
      as (out & w' & -> & Hlog & Hout).
    rewrite Hdry in Hout. destruct Hout as [-> _]. simpl. split; [done|].
    intros _ _. apply (Hreport wd); [|done]. by destruct Hd as (_ & _ & _ & ?).
  - destruct (seed_missing_live_cases fb.1 wc)
      as [(wd & Hs)|(idt & idc & wd & [Hs|Hs])].
    + rewrite (bind_ok _ _ _ _ _ Hs).
      destruct (after_seed_run args ids_plan fb.2 (0, 0) df_tt df_tl wd)
        as (out & w' & -> & Hlog & Hout).
      rewrite Hdry in Hout. destruct Hout as (a & b & ->). simpl. split; [done|].
      intros _ _. apply (Hreport wd); [|done].
      destruct (decide (fb.1 = ∅)) as [Hm|Hm].
      * rewrite Hm, seed_missing_empty in Hs. injection Hs as <-.
        apply log_grows_refl.
      * destruct (seed_missing_live_run fb.1 wc Hm) as (wd' & Hrun' & _ & _ & Hl & _).
        rewrite Hs in Hrun'. injection Hrun' as _ <-. exists []. by rewrite app_nil_r.
    + rewrite (bind_raise _ _ _ _ _ Hs). simpl. split; [done|]. by intros out [=].
    + rewrite (bind_raise _ _ _ _ _ Hs). simpl. split; [done|]. by intros out [=].
Qed.

(** Step 7 in dry-run mode writes nothing, whatever the cap. *)
Lemma seed_step_dry_run args ids_plan faltam_all df_tt df_tl w :
  dry_run args = true →
  ∃ out w', seed_step args ids_plan faltam_all df_tt df_tl w = (Ok out, w') ∧
            no_writes w w' ∧ (out = AbortMaxSeed ∨ out = DryRunEnd).
Proof.
  intros Hdry.
  destruct (Z_lt_le_dec (max_seed args) (Z.of_nat (length faltam_all))) as [Hcap|Hcap].
  { destruct (seed_step_over_cap args ids_plan faltam_all df_tt df_tl w Hcap)
      as (w' & Hrun & Hnw).
    exists AbortMaxSeed, w'. eauto. }
  unfold seed_step.
  replace (Z.of_nat (length faltam_all) >? max_seed args) with false
    by (symmetry; rewrite Z.gtb_ltb; apply Z.ltb_ge; lia).
  run_quiet (quiet_resolve_idconteudo faltam_all (pick_idconteudo args)) as wa Ha.
  set (mapa := mapping_of faltam_all (pick_idconteudo args) (db w)).
  run_quiet (quiet_log (Log_Mapeados (size mapa)
               (length (sorted_difference faltam_all (dom mapa))))) as wb Hb.
  destruct (quiet_apply_fallback args mapa (sorted_difference faltam_all (dom mapa)))
    as [fb Hfb].
  run_quiet Hfb as wc Hc. rewrite Hdry.
  run_quiet (quiet_seed_missing_dry_run fb.1) as wd Hd.
  destruct (after_seed_run args ids_plan fb.2 (0, 0) df_tt df_tl wd)
    as (out & w' & -> & _ & Hout).
  rewrite Hdry in Hout. destruct Hout as [-> Hnw5].
  exists DryRunEnd, w'. split; [done|]. split; [|by right].
  repeat (eapply no_writes_trans; [eassumption|]). apply no_writes_refl.
Qed.




(** On the seed path (seeding enabled, at least one identifier missing) a
    dry run writes nothing: it ends at the cap or right after the preview. *)
Lemma main_dry_run_seed_path (args : Args) (df df1 : DataFrame) (w w1 : World) :
  auto_seed args = true →
  dry_run args = true →
  ensure_id_tipo df w = (Ok df1, w1) →
  (0 < length (missing_idtipos (ids_plan_of df1) (db w)))%nat →
  ∃ out w',
    main args df w = (Ok out, w') ∧ no_writes w w' ∧
    (out = AbortMaxSeed ∨ out = DryRunEnd).
Proof.
  intros Hauto Hdry Hens HM.
  destruct (main_reaches_guard args df w df1 w1 Hens) as (w2 & Hnw & ->).
  unfold guard_seed_update. rewrite Hauto. cbn [negb].
  rewrite andb_false_r. cbn [andb].
  set (faltam := sorted_difference (ids_plan_of df1)
                   (existing_idtipos (ids_plan_of df1) (db w))).
  assert (Hlen : length faltam = length (missing_idtipos (ids_plan_of df1) (db w)))
    by apply (length_sorted_difference _ _ (NoDup_ids_plan_of df1)).
  assert (bool_decide (faltam ≠ []) = true) as ->.
  { apply bool_decide_eq_true. intros Hnil. rewrite Hnil in Hlen.
    simpl in Hlen. lia. }
  destruct (seed_step_dry_run args (ids_plan_of df1) faltam
              (df_textos_of df1) (df_titulos_of df1) w2 Hdry)
    as (out & w' & -> & Hnw' & Hout).
  exists out, w'. split; [done|]. split; [|done]. by eapply no_writes_trans.
Qed.

(** ** Further properties of the script *)

Lemma chunks_bounds {A} (fuel : nat) (l : list A) :
  Forall (λ chunk, (0 < length chunk ≤ 1000)%nat) (Py.chunks fuel l).
Proof.
  revert l. induction fuel as [|fuel IH]; intros l; [constructor|].
  destruct l as [|x l]; [constructor|].
  rewrite chunks_cons. constructor; [|apply IH].
  rewrite length_take. simpl length. lia.
Qed.

(** X1. The chunks of the two [IN (...)] loops: put end to end they are the
    list of identifiers, and each of them holds between 1 and 1000
    identifiers, so no query is sent with an empty or an oversized list. *)
Theorem chunked_covers_within_bound {A} (l : list A) :
  concat (Py.chunked l) = l ∧
  Forall (λ chunk, (0 < length chunk ≤ 1000)%nat) (Py.chunked l).
Proof. split; [apply concat_chunked | apply chunks_bounds]. Qed.

Lemma fetch_existing_loop (chunks : list (list Z)) (out : gset Z) (w : World) :
  fold_each chunks out
    (λ out chunk,
       fetched <- execute_select_existing chunk ;;
       ret (out ∪ list_to_set fetched)) w
  = (Ok (foldl (λ out chunk, out ∪ list_to_set (select_existing chunk (db w)))
           out chunks),
     {| db := db w; tx := tx w;
        trace := trace w ++ (SelectExisting <$> chunks); log := log w |}).
Proof.
  revert out w. induction chunks as [|c chunks IH]; intros out w.
  - simpl. rewrite app_nil_r. by destruct w.
  - simpl. unfold bind at 1 2. simpl. rewrite IH. simpl.
    by rewrite <- app_assoc.
Qed.

(** X2. [fetch_existing_idtipos] sends one [SELECT] per chunk of the
    identifiers, in order, and nothing else (none at all for an empty list);
    it changes neither the tables nor the log, and the set it returns holds
    exactly the identifiers of the list that have a row in
    [PUB_TIPOS_TEXTOS]. *)
Theorem fetch_existing_idtipos_exact (ids : list Z) (w : World) :
  ∃ existentes,
    fetch_existing_idtipos ids w =
      (Ok existentes,
       {| db := db w; tx := tx w;
          trace := trace w ++ (SelectExisting <$> Py.chunked ids);
          log := log w |}) ∧
    ∀ x, x ∈ existentes ↔ x ∈ ids ∧ has_tt x (db w) = true.
Proof.
  exists (existing_idtipos ids (db w)). split.
  - destruct (quiet_fetch_existing_idtipos ids w) as (w' & Hrun & _).
    assert (Hloop : fetch_existing_idtipos ids w =
              fold_each (Py.chunked ids) (∅ : gset Z)
                (λ out chunk,
                   fetched <- execute_select_existing chunk ;;
                   ret (out ∪ list_to_set fetched)) w)
      by (by destruct ids).
    rewrite Hloop, fetch_existing_loop in Hrun. injection Hrun as Hval _.
    by rewrite Hloop, fetch_existing_loop, Hval.
  - intros x. unfold existing_idtipos.
    rewrite elem_of_list_to_set, list_elem_of_filter. tauto.
Qed.

Lemma mapping_of_dom (ids : list Z) (pick : string) (d : Store) (k : Z) :
  is_Some (mapping_of ids pick d !! k) ↔
  k ∈ ids ∧ ∃ c, (k, Some c) ∈ TEMATICOS_CONTEUDO_ITEM d.
Proof.
  destruct (decide (k ∈ ids)) as [Hin|Hout].
  - rewrite (mapping_of_lookup _ _ _ _ Hin). split.
    + intros [v Hv]. split; [done|].
      destruct (conteudos_of k (TEMATICOS_CONTEUDO_ITEM d)) as [|c l] eqn:Hcs; [done|].
      exists c. apply elem_of_conteudos_of. rewrite Hcs. left.
    + intros [_ [c Hc]]. apply agg_is_Some. intros Hnil.
      apply elem_of_conteudos_of in Hc. rewrite Hnil in Hc. by apply elem_of_nil in Hc.
  - split; [|by intros [? _]].
    unfold mapping_of. rewrite foldl_dict_update_other.
    + rewrite lookup_empty. by intros [? ?].
    + intros chunk Hchunk Hk. apply Hout.
      assert (Hids : k ∈ Py.sorted (elements (list_to_set ids : gset Z)))
        by (apply elem_of_chunked; eauto).
      by apply elem_of_sorted, elem_of_elements, elem_of_list_to_set in Hids.
Qed.

(** X3. The mapping [resolve_idconteudo] returns has an entry for an
    identifier exactly when the identifier was asked for and the mapping
    table holds a non-null content id for it: an identifier without one is
    simply absent, and no other identifier of the table leaks in. *)
Theorem resolve_idconteudo_domain (missing_ids : list Z) (pick : string) (w : World) :
  ∃ mapping w',
    resolve_idconteudo missing_ids pick w = (Ok mapping, w') ∧
    no_writes w w' ∧
    ∀ k, is_Some (mapping !! k) ↔
         k ∈ missing_ids ∧ ∃ c, (k, Some c) ∈ TEMATICOS_CONTEUDO_ITEM (db w).
Proof.
  destruct (quiet_resolve_idconteudo missing_ids pick w) as (w' & Hrun & Hnw).
  exists (mapping_of missing_ids pick (db w)), w'. split; [done|]. split; [done|].
  intros k. apply mapping_of_dom.
Qed.

Lemma for_each_log {A} (l : list A) (f : A → LogMsg) (w : World) :
  for_each l (λ x, log_print (f x)) w =
  (Ok (), {| db := db w; tx := tx w; trace := trace w; log := log w ++ (f <$> l) |}).
Proof.
  revert w. induction l as [|x l IH]; intros w.
  - simpl. rewrite app_nil_r. by destruct w.
  - simpl. unfold bind at 1. simpl. rewrite IH. simpl. by rewrite <- app_assoc.
Qed.

Lemma length_sorted_items (m : gmap Z Z) : length (Py.sorted_items m) = size m.
Proof.
  unfold Py.sorted_items. by rewrite merge_sort_Permutation, length_map_to_list.
Qed.

Lemma elem_of_sorted_items (m : gmap Z Z) k v :
  (k, v) ∈ Py.sorted_items m ↔ m !! k = Some v.
Proof.
  unfold Py.sorted_items. by rewrite merge_sort_Permutation, elem_of_map_to_list.
Qed.

(** X4. A dry-run seed of a non-empty mapping executes no statement at
    all: it returns [(0, 0)], leaves tables, transaction and trace as they
    are, and adds to the log the number of pairs followed by the first 20
    pairs at most, in ascending order. *)
Theorem seed_missing_dry_run_preview (m : gmap Z Z) (w : World) :
  m ≠ ∅ →
  seed_missing m true w =
    (Ok (0, 0),
     {| db := db w; tx := tx w; trace := trace w;
        log := log w ++ Log_DrySeedSugerido (size m) ::
                 ((λ p, Log_DrySeedItem p.1 p.2) <$> take 20 (Py.sorted_items m)) |}).
Proof.
  intros Hm. unfold seed_missing. rewrite bool_decide_eq_false_2 by done.
  unfold bind at 1. unfold log_print at 1. unfold bind at 1.
  rewrite for_each_log. simpl. rewrite length_sorted_items.
  by rewrite <- app_assoc.
Qed.

Lemma has_tt_mono d d' k : seeded_from d d' → has_tt k d' = false → has_tt k d = false.
Proof.
  intros (A & _) Hk. destruct (has_tt k d) eqn:E; [|done].
  destruct (A k E) as [E' _]. congruence.
Qed.

Lemma has_tl_mono d d' k : seeded_from d d' → has_tl k d' = false → has_tl k d = false.
Proof.
  intros (_ & _ & C & _) Hk. destruct (has_tl k d) eqn:E; [|done].
  destruct (C k E) as [E' _]. congruence.
Qed.

(** A batch that went through only appended seed rows, each for a pair of
    the batch whose identifier had no row, and left the two mapping tables
    alone. *)
Lemma seed_rows_db_appends to_do d d' :
  seed_rows_db to_do d = Ok d' →
  (∃ added, PUB_TIPOS_TEXTOS d' = PUB_TIPOS_TEXTOS d ++ added ∧
     Forall (λ r, ∃ p, p ∈ to_do ∧ r = seed_row_tt p.1 p.2 ∧ has_tt p.1 d = false)
            added) ∧
  (∃ added, PUB_TIPOS_TEXTOS_TITULOS d' = PUB_TIPOS_TEXTOS_TITULOS d ++ added ∧
     Forall (λ r, ∃ p, p ∈ to_do ∧ r = seed_row_tl p.1 p.2 ∧ has_tl p.1 d = false)
            added) ∧
  TEMATICOS_CONTEUDO_ITEM d' = TEMATICOS_CONTEUDO_ITEM d ∧
  PROCESSADO_BUSCA_TIPOS d' = PROCESSADO_BUSCA_TIPOS d.
Proof.
  revert d. induction to_do as [|p to_do IH]; intros d; simpl.
  { intros [= <-]. split; [|split; [|done]]; exists []; by rewrite app_nil_r. }
  destruct (seed_tt_db p.1 p.2 d) as [d1|] eqn:H1; [|done].
  destruct (seed_tl_db p.1 p.2 d1) as [d2|] eqn:H2; [|done].
  intros H3.
  pose proof (seed_tt_db_seeded _ _ _ _ H1) as S1.
  pose proof (seed_tl_db_seeded _ _ _ _ H2) as S2.
  pose proof (seeded_from_trans _ _ _ S1 S2) as S12.
  destruct (IH d2 H3) as ((a_tt & Htt & Ftt) & (a_tl & Htl & Ftl) & Hmap & Hbusca).
  assert (Ett : ∃ a1, PUB_TIPOS_TEXTOS d1 = PUB_TIPOS_TEXTOS d ++ a1 ∧
            PUB_TIPOS_TEXTOS_TITULOS d1 = PUB_TIPOS_TEXTOS_TITULOS d ∧
            TEMATICOS_CONTEUDO_ITEM d1 = TEMATICOS_CONTEUDO_ITEM d ∧
            PROCESSADO_BUSCA_TIPOS d1 = PROCESSADO_BUSCA_TIPOS d ∧
            Forall (λ r, r = seed_row_tt p.1 p.2 ∧ has_tt p.1 d = false) a1).
  { unfold seed_tt_db in H1. destruct (has_tt p.1 d) eqn:E.
    - injection H1 as <-. exists []. by rewrite app_nil_r.
    - destruct (tt_accepts d (seed_row_tt p.1 p.2)); [|done].
      injection H1 as <-. exists [seed_row_tt p.1 p.2]. simpl.
      repeat split; try done. by repeat constructor. }
  assert (Etl : ∃ a2, PUB_TIPOS_TEXTOS_TITULOS d2 = PUB_TIPOS_TEXTOS_TITULOS d1 ++ a2 ∧
            PUB_TIPOS_TEXTOS d2 = PUB_TIPOS_TEXTOS d1 ∧
            TEMATICOS_CONTEUDO_ITEM d2 = TEMATICOS_CONTEUDO_ITEM d1 ∧
            PROCESSADO_BUSCA_TIPOS d2 = PROCESSADO_BUSCA_TIPOS d1 ∧
            Forall (λ r, r = seed_row_tl p.1 p.2 ∧ has_tl p.1 d1 = false) a2).
  { unfold seed_tl_db in H2. destruct (has_tl p.1 d1) eqn:E.
    - injection H2 as <-. exists []. by rewrite app_nil_r.
    - destruct (tl_accepts d1 (seed_row_tl p.1 p.2)); [|done].
      injection H2 as <-. exists [seed_row_tl p.1 p.2]. simpl.
      repeat split; try done. by repeat constructor. }
  destruct Ett as (a1 & E1 & E1l & E1m & E1b & F1).
  destruct Etl as (a2 & E2 & E2t & E2m & E2b & F2).
  split; [|split; [|split; congruence]].
  - exists (a1 ++ a_tt). split; [by rewrite Htt, E2t, E1, app_assoc|].
    apply Forall_app. split.
    + eapply Forall_impl; [exact F1|]. intros r [-> ?]. exists p. split; [left|done].
    + eapply Forall_impl; [exact Ftt|]. intros r (q & Hq & -> & Hno).
      exists q. split; [by right|]. split; [done|]. by apply (has_tt_mono d d2).
  - exists (a2 ++ a_tl). split; [by rewrite Htl, E2, E1l, app_assoc|].
    apply Forall_app. split.
    + eapply Forall_impl; [exact F2|]. intros r [-> Hno]. exists p. split; [left|].
      split; [done|]. by apply (has_tl_mono d d1).
    + eapply Forall_impl; [exact Ftl|]. intros r (q & Hq & -> & Hno).
      exists q. split; [by right|]. split; [done|]. by apply (has_tl_mono d d2).
Qed.

(** X5. A live seed that returns has only appended rows: every identifier of
    the mapping now has a row in both target tables, the rows that were there
    are still there, in place and untouched, every new row is the seed row
    (empty texts, [Ativo = 1], the mapped content id) of an identifier that
    had no row in that table, and the two mapping tables are as before. *)
Theorem seed_missing_live_appends (m : gmap Z Z) (w w' : World) (counts : Z * Z) :
  seed_missing m false w = (Ok counts, w') →
  (∀ k, is_Some (m !! k) → has_tt k (db w') = true ∧ has_tl k (db w') = true) ∧
  (∃ added,
     PUB_TIPOS_TEXTOS (db w') = PUB_TIPOS_TEXTOS (db w) ++ added ∧
     Forall (λ r, ∃ k idc, m !! k = Some idc ∧ r = seed_row_tt k idc ∧
                           has_tt k (db w) = false) added) ∧
  (∃ added,
     PUB_TIPOS_TEXTOS_TITULOS (db w') = PUB_TIPOS_TEXTOS_TITULOS (db w) ++ added ∧
     Forall (λ r, ∃ k idc, m !! k = Some idc ∧ r = seed_row_tl k idc ∧
                           has_tl k (db w) = false) added) ∧
  TEMATICOS_CONTEUDO_ITEM (db w') = TEMATICOS_CONTEUDO_ITEM (db w) ∧
  PROCESSADO_BUSCA_TIPOS (db w') = PROCESSADO_BUSCA_TIPOS (db w).
Proof.
  intros Hrun. destruct (decide (m = ∅)) as [->|Hm].
  { rewrite seed_missing_empty in Hrun. injection Hrun as _ <-.
    split; [by intros k [v Hv]; rewrite lookup_empty in Hv|].
    split; [|split; [|done]]; exists []; by rewrite app_nil_r. }
  destruct (seed_missing_live_run m w Hm) as (w1 & Hlive & Hdb & _).
  rewrite Hrun in Hlive.
  destruct (seed_rows_db (Py.sorted_items m) (db w)) as [d'|e] eqn:Hpure; [|done].
  injection Hlive as _ <-. rewrite Hdb.
  destruct (seed_rows_db_ok _ _ _ Hpure) as [_ Hall].
  destruct (seed_rows_db_appends _ _ _ Hpure) as ((a1 & E1 & F1) & (a2 & E2 & F2) & ? & ?).
  split; [|split; [|split; [|done]]].
  - intros k [v Hv]. apply (Hall (k, v)). by apply elem_of_sorted_items.
  - exists a1. split; [done|]. eapply Forall_impl; [exact F1|].
    intros r ([k v] & Hp & -> & Hno). exists k, v.
    split; [by apply elem_of_sorted_items|done].
  - exists a2. split; [done|]. eapply Forall_impl; [exact F2|].
    intros r ([k v] & Hp & -> & Hno). exists k, v.
    split; [by apply elem_of_sorted_items|done].
Qed.

Lemma length_substring_0 (n : nat) (s : string) :
  String.length (substring 0 n s) = Nat.min n (String.length s).
Proof.
  revert s. induction n as [|n IH]; intros [|c s]; simpl; try done.
  by rewrite IH.
Qed.

Lemma substring_0_short (n : nat) (s : string) :
  (String.length s ≤ n)%nat → substring 0 n s = s.
Proof.
  revert s. induction n as [|n IH]; intros [|c s]; simpl; try done; try lia.
  intros Hle. rewrite IH; [done|lia].
Qed.

Lemma substring_0_prefix (n : nat) (s : string) :
  ∃ rest, s = (substring 0 n s ++ rest)%string.
Proof.
  revert s. induction n as [|n IH]; intros [|c s]; simpl.
  - by exists EmptyString.
  - by exists (String c s).
  - by exists EmptyString.
  - destruct (IH s) as [rest Hrest]. exists rest.
    exact (f_equal (String c) Hrest).
Qed.

(** X6. Whatever the sheet holds, a title text that [update_titulos] binds
    has at most 80 characters and a meta description text at most 320, when
    the sheet has the column; the text of a column the sheet does not have is
    the missing value. *)
Theorem df_titulos_text_bounds (df : DataFrame) (f : FrameTL) :
  f ∈ df_titulos_of df →
  (if has_Texto_Title df
   then ∀ s, sql_text (TextoTitle f) = Some s → (String.length s ≤ 80)%nat
   else TextoTitle f = CNull) ∧
  (if has_Texto_Meta_Description df
   then ∀ s, sql_text (TextoMetaDescription f) = Some s → (String.length s ≤ 320)%nat
   else TextoMetaDescription f = CNull).
Proof.
  unfold df_titulos_of.
  destruct (has_Texto_Title df || has_Texto_Meta_Description df) eqn:Hany;
    [|by intros ?%elem_of_nil].
  intros (r & _ & Hf)%list_elem_of_omap. unfold frame_tl_of in Hf.
  destruct (to_numeric (id_tipo r)) as [idt|]; [|done].
  simpl in Hf. injection Hf as <-. simpl. split.
  - destruct (has_Texto_Title df); [|done].
    intros s [= <-]. rewrite length_substring_0. lia.
  - destruct (has_Texto_Meta_Description df); [|done].
    intros s [= <-]. rewrite length_substring_0. lia.
Qed.

(** X7. A line of the sheet with a numeric [id_tipo] and a title text
    gives a line of [df_titulos] for that identifier whose title is the
    beginning of the sheet's text: its first 80 characters when it is
    longer, the whole text otherwise. *)
Theorem df_titulos_title_is_prefix (df : DataFrame) (r : Row) (k : Z) (s : string) :
  r ∈ rows df → id_tipo r = CInt k →
  has_Texto_Title df = true → Texto_Title r = CStr s →
  ∃ f t rest,
    f ∈ df_titulos_of df ∧ idTipo_tl f = k ∧ TextoTitle f = CStr t ∧
    s = (t ++ rest)%string ∧
    String.length t = Nat.min 80 (String.length s) ∧
    ((String.length s ≤ 80)%nat → t = s).
Proof.
  intros Hr Hid Hcol Hs.
  destruct (substring_0_prefix 80 s) as [rest Hrest].
  destruct (frame_tl_of df r) as [f|] eqn:Hf;
    [|by unfold frame_tl_of in Hf; rewrite Hid in Hf].
  exists f, (substring 0 80 s), rest.
  split; [|split; [|split; [|split; [done|split]]]].
  - unfold df_titulos_of. rewrite Hcol. simpl. apply list_elem_of_omap. eauto.
  - unfold frame_tl_of in Hf. rewrite Hid in Hf. simpl in Hf. by injection Hf as <-.
  - unfold frame_tl_of in Hf. rewrite Hid, Hcol in Hf. simpl in Hf.
    injection Hf as <-. simpl. unfold astype_str_slice, df_get. by rewrite Hs.
  - apply length_substring_0.
  - apply substring_0_short.
Qed.

Lemma df_textos_ids (df : DataFrame) :
  idTipo <$> df_textos_of df = omap (λ r, to_numeric (id_tipo r)) (rows df).
Proof.
  unfold df_textos_of. induction (rows df) as [|r l IH]; [done|].
  simpl. unfold frame_tt_of at 1.
  destruct (to_numeric (id_tipo r)); simpl; [f_equal|]; exact IH.
Qed.

Lemma df_titulos_ids (df : DataFrame) :
  idTipo_tl <$> df_titulos_of df =
    if has_Texto_Title df || has_Texto_Meta_Description df
    then omap (λ r, to_numeric (id_tipo r)) (rows df) else [].
Proof.
  unfold df_titulos_of.
  destruct (has_Texto_Title df || has_Texto_Meta_Description df); [|done].
  induction (rows df) as [|r l IH]; [done|].
  simpl. unfold frame_tl_of at 1.
  destruct (to_numeric (id_tipo r)); simpl; [f_equal|]; exact IH.
Qed.

(** X8. The two frames name the same identifiers: [df_textos] has one line
    per sheet line with a numeric [id_tipo], in the order of the sheet;
    [df_titulos] has the same identifiers in the same order when the sheet
    has a title or a meta description column, and no line at all otherwise. *)
Theorem build_frames_same_ids (df : DataFrame) :
  idTipo <$> df_textos_of df = omap (λ r, to_numeric (id_tipo r)) (rows df) ∧
  idTipo_tl <$> df_titulos_of df =
    if has_Texto_Title df || has_Texto_Meta_Description df
    then idTipo <$> df_textos_of df else [].
Proof.
  split; [apply df_textos_ids|]. rewrite df_titulos_ids. by rewrite df_textos_ids.
Qed.

Lemma foldl_apply_frame_tt (d : Store) (df : list FrameTT) :
  PUB_TIPOS_TEXTOS (foldl apply_frame_tt d df) =
    (λ r, foldl (λ r f, update_tt_row (sql_text (TextoPrimario f))
                          (sql_text (TextoSecundario f)) (idTipo f) r) r df)
    <$> PUB_TIPOS_TEXTOS d ∧
  PUB_TIPOS_TEXTOS_TITULOS (foldl apply_frame_tt d df) = PUB_TIPOS_TEXTOS_TITULOS d ∧
  TEMATICOS_CONTEUDO_ITEM (foldl apply_frame_tt d df) = TEMATICOS_CONTEUDO_ITEM d ∧
  PROCESSADO_BUSCA_TIPOS (foldl apply_frame_tt d df) = PROCESSADO_BUSCA_TIPOS d.
Proof.
  revert d. induction df as [|f df IH]; intros d; simpl.
  - by rewrite list_fmap_id.
  - destruct (IH (apply_frame_tt d f)) as (-> & -> & -> & ->).
    unfold apply_frame_tt, update_tt. simpl.
    by rewrite <- list_fmap_compose.
Qed.

Lemma foldl_update_tt_row (r : TTRow) (df : list FrameTT) :
  let r' := foldl (λ r f, update_tt_row (sql_text (TextoPrimario f))
                            (sql_text (TextoSecundario f)) (idTipo f) r) r df in
  tt_idTipo r' = tt_idTipo r ∧ tt_IdConteudo r' = tt_IdConteudo r ∧
  tt_Header r' = tt_Header r ∧
  match last (filter (λ f, idTipo f = tt_idTipo r) df) with
  | Some f =>
      tt_TextoPrimario r' = sql_text (TextoPrimario f) ∧
      tt_TextoSecundario r' = sql_text (TextoSecundario f) ∧
      tt_Ativo r' = 1
  | None => r' = r
  end.
Proof.
  induction df as [|f df IH] using rev_ind; [done|].
  cbv zeta in *. rewrite foldl_app, filter_app, filter_cons, filter_nil.
  simpl foldl. set (r1 := foldl _ r df) in *.
  destruct IH as (Hid & Hidc & Hh & Hlast). unfold update_tt_row.
  destruct (decide (idTipo f = tt_idTipo r)) as [E|E].
  - assert ((tt_idTipo r1 =? idTipo f) = true) as ->
      by (apply Z.eqb_eq; congruence).
    rewrite last_snoc. by simpl.
  - assert ((tt_idTipo r1 =? idTipo f) = false) as ->
      by (apply Z.eqb_neq; congruence).
    rewrite app_nil_r. exact (conj Hid (conj Hidc (conj Hh Hlast))).
Qed.

(** X9. What [update_textos] leaves in [PUB_TIPOS_TEXTOS]: the table keeps
    its rows, in place, each with its [idTipo], [IdConteudo] and [Header]; a
    row whose [idTipo] is on no line of the frame is untouched, and one whose
    [idTipo] is on several lines ends with the two texts of the last of them
    and [Ativo = 1].  The three other tables are as before. *)
Theorem update_textos_last_line_wins (df : list FrameTT) (w : World) :
  ∃ n w',
    update_textos df w = (Ok n, w') ∧
    length (PUB_TIPOS_TEXTOS (db w')) = length (PUB_TIPOS_TEXTOS (db w)) ∧
    (∀ i r, PUB_TIPOS_TEXTOS (db w) !! i = Some r →
       ∃ r', PUB_TIPOS_TEXTOS (db w') !! i = Some r' ∧
         tt_idTipo r' = tt_idTipo r ∧ tt_IdConteudo r' = tt_IdConteudo r ∧
         tt_Header r' = tt_Header r ∧
         match last (filter (λ f, idTipo f = tt_idTipo r) df) with
         | Some f =>
             tt_TextoPrimario r' = sql_text (TextoPrimario f) ∧
             tt_TextoSecundario r' = sql_text (TextoSecundario f) ∧
             tt_Ativo r' = 1
         | None => r' = r
         end) ∧
    PUB_TIPOS_TEXTOS_TITULOS (db w') = PUB_TIPOS_TEXTOS_TITULOS (db w) ∧
    TEMATICOS_CONTEUDO_ITEM (db w') = TEMATICOS_CONTEUDO_ITEM (db w) ∧
    PROCESSADO_BUSCA_TIPOS (db w') = PROCESSADO_BUSCA_TIPOS (db w).
Proof.
  destruct (update_textos_spec df w) as (w' & Hrun & Hdb & _).
  destruct (foldl_apply_frame_tt (db w) df) as (Htt & Htl & Hm & Hb).
  exists (total_rowcount_tt df (db w)), w'. rewrite Hdb, Htt.
  split; [done|]. split; [by rewrite length_fmap|]. split; [|done].
  intros i r Hi. eexists. split; [by rewrite list_lookup_fmap, Hi|].
  apply foldl_update_tt_row.
Qed.

Lemma rowcount_tt_key (k : Z) (d : Store) :
  NoDup (tt_idTipo <$> PUB_TIPOS_TEXTOS d) →
  rowcount_tt k d = if has_tt k d then 1 else 0.
Proof.
  unfold rowcount_tt, has_tt.
  induction (PUB_TIPOS_TEXTOS d) as [|r l IH]; [done|].
  rewrite fmap_cons, NoDup_cons. intros [Hr Hl]. specialize (IH Hl).
  rewrite filter_cons. simpl existsb.
  destruct (decide (tt_idTipo r = k)) as [E|E].
  - rewrite (proj2 (Z.eqb_eq _ _)) by done. simpl.
    destruct (existsb (λ r0, tt_idTipo r0 =? k) l) eqn:Hex; [|lia].
    exfalso. apply Hr. apply existsb_exists in Hex as (r0 & Hin & Hk).
    apply Z.eqb_eq in Hk. rewrite E, <- Hk.
    apply list_elem_of_fmap. exists r0. split; [done|]. by apply list_elem_of_In.
  - by rewrite (proj2 (Z.eqb_neq _ _)) by done.
Qed.

(** X10. When [idTipo] is a key of [PUB_TIPOS_TEXTOS] (no two rows share
    one), the number [update_textos] returns is the number of lines of the
    frame whose [idTipo] has a row: a line for an identifier without a row
    counts for nothing and raises nothing. *)
Theorem update_textos_counts_lines (df : list FrameTT) (w : World) :
  NoDup (tt_idTipo <$> PUB_TIPOS_TEXTOS (db w)) →
  (update_textos df w).1 =
    Ok (Z.of_nat (length (filter (λ f, has_tt (idTipo f) (db w) = true) df))).
Proof.
  intros Hkey. destruct (update_textos_spec df w) as (w' & -> & _).
  simpl. f_equal. induction df as [|f df IH]; [done|].
  simpl. rewrite IH, (rowcount_tt_key _ _ Hkey), filter_cons.
  destruct (has_tt (idTipo f) (db w));
    [rewrite decide_True by done | rewrite decide_False by done];
    simpl length; lia.
Qed.

(** *** [main] without and with [--auto-seed] *)

Lemma ensure_id_tipo_raise df w e w1 :
  ensure_id_tipo df w = (Raise e, w1) → w1 = w.
Proof.
  destruct (has_id_tipo df) eqn:H0.
  { unfold ensure_id_tipo. rewrite H0. by intros [=]. }
  destruct (has_id_cat df) eqn:H1; destruct (has_id_grupo df) eqn:H2;
    try (unfold ensure_id_tipo; rewrite H0, H1, H2; simpl; by intros [= _ <-]).
  destruct (numeric_keys id_cat df) as [|c cs] eqn:Ec.
  { unfold ensure_id_tipo. rewrite H0, H1, H2, Ec. simpl. by intros [= _ <-]. }
  destruct (numeric_keys id_grupo df) as [|g gs] eqn:Eg.
  { unfold ensure_id_tipo. rewrite H0, H1, H2, Ec, Eg. simpl. by intros [= _ <-]. }
  destruct (ensure_id_tipo_run df w H0 H1 H2) as (w' & Hrun & _).
  { by rewrite Ec. } { by rewrite Eg. }
  rewrite Hrun. by intros [=].
Qed.

Lemma main_ensure_raise args df w e w1 :
  ensure_id_tipo df w = (Raise e, w1) → main args df w = (Raise e, w).
Proof.
  intros H. pose proof (ensure_id_tipo_raise _ _ _ _ H) as ->.
  unfold main, main_kind. simpl. by rewrite (bind_raise _ _ _ _ _ H).
Qed.

Lemma same_keys_refl d : same_keys d d.
Proof. by unfold same_keys. Qed.

Lemma same_keys_trans d1 d2 d3 :
  same_keys d1 d2 → same_keys d2 d3 → same_keys d1 d3.
Proof. unfold same_keys. intros (? & ? & ? & ?) (? & ? & ? & ?). split_and!; congruence. Qed.

Lemma same_keys_update_tt t1 t2 k d : same_keys d (update_tt t1 t2 k d).
Proof.
  unfold same_keys, update_tt. simpl. split; [|done].
  induction (PUB_TIPOS_TEXTOS d) as [|r l IH]; [done|].
  by rewrite !fmap_cons, update_tt_row_idTipo, IH.
Qed.

Lemma same_keys_update_tl t1 t2 k d : same_keys d (update_tl t1 t2 k d).
Proof.
  unfold same_keys, update_tl. simpl. split; [done|]. split; [|done].
  induction (PUB_TIPOS_TEXTOS_TITULOS d) as [|r l IH]; [done|].
  by rewrite !fmap_cons, update_tl_row_idTipo, IH.
Qed.

Lemma same_keys_updates d df_tt df_tl :
  same_keys d (foldl apply_frame_tl (foldl apply_frame_tt d df_tt) df_tl).
Proof.
  apply (same_keys_trans _ (foldl apply_frame_tt d df_tt)).
  - revert d. induction df_tt as [|f df IH]; intros d; simpl; [apply same_keys_refl|].
    eapply same_keys_trans; [|apply IH]. apply same_keys_update_tt.
  - generalize (foldl apply_frame_tt d df_tt). clear d.
    induction df_tl as [|f df IH]; intros d; simpl; [apply same_keys_refl|].
    eapply same_keys_trans; [|apply IH]. apply same_keys_update_tl.
Qed.

Lemma has_tt_same_keys d d' k : same_keys d d' → has_tt k d' = has_tt k d.
Proof.
  intros (Htt & _). unfold has_tt.
  assert (E : ∀ l, existsb (λ r, tt_idTipo r =? k) l
                   = existsb (λ z, z =? k) (tt_idTipo <$> l)).
  { induction l as [|r l IH]; [done|]. simpl. by rewrite IH. }
  by rewrite !E, Htt.
Qed.

(** The two update passes as [main] runs them: what they return, what they
    leave and what they send. *)
Lemma apply_updates_effect df_tt df_tl w :
  ∃ upd_tl w',
    apply_updates df_tt df_tl w
      = (Ok (Concluido (total_rowcount_tt df_tt (db w)) upd_tl), w') ∧
    db w' = foldl apply_frame_tl (foldl apply_frame_tt (db w) df_tt) df_tl ∧
    log_grows w w' ∧
    ∃ sts, trace w' = trace w ++ sts ∧
           Forall (λ st, st ∈ (stmt_of_tt <$> df_tt) ∨ st ∈ (stmt_of_tl <$> df_tl) ∨
                         st = ConnCommit) sts.
Proof.
  destruct (apply_updates_run df_tt df_tl w) as (a & b & w' & Hrun & Hdb & Hlog).
  revert Hrun. unfold apply_updates.
  assert (E1 : match df_tt with [] => ret 0 | _ :: _ => update_textos df_tt end
               = update_textos df_tt) by (by destruct df_tt).
  assert (E2 : match df_tl with [] => ret 0 | _ :: _ => update_titulos df_tl end
               = update_titulos df_tl) by (by destruct df_tl).
  rewrite E1, E2.
  destruct (update_textos_spec df_tt w) as (w1 & Hr1 & _ & _ & Ht1).
  rewrite (bind_ok _ _ _ _ _ Hr1).
  destruct (update_titulos_spec df_tl w1) as (w2 & Hr2 & _ & _ & Ht2).
  rewrite (bind_ok _ _ _ _ _ Hr2).
  intros Hrun. eexists _, _.
  injection Hrun as <- <- <-. simpl.
  split; [done|]. split; [done|]. split; [done|].
  eexists. split; [rewrite Ht2, Ht1, <- app_assoc; reflexivity|].
  apply Forall_app. split.
  - destruct df_tt as [|f l]; [constructor|].
    apply Forall_app. split; [|by repeat constructor; right; right].
    apply Forall_forall. intros st Hst. by left.
  - destruct df_tl as [|f l]; [constructor|].
    apply Forall_app. split; [|by repeat constructor; right; right].
    apply Forall_forall. intros st Hst. right. by left.
Qed.

(** X11. Without [--auto-seed] the script inserts nothing, whatever the
    sheet and the other options: it sends no [INSERT], every [UPDATE] it
    sends names an identifier that had a row in [PUB_TIPOS_TEXTOS] when it
    started (also the updates of [PUB_TIPOS_TEXTOS_TITULOS]), and at the end
    the two target tables hold the same identifiers, row for row, and the
    two mapping tables are as they were. *)
Theorem main_without_auto_seed (args : Args) (df : DataFrame) (w : World) :
  auto_seed args = false →
  same_keys (db w) (db (main args df w).2) ∧
  ∃ sts, trace (main args df w).2 = trace w ++ sts ∧
         Forall (updates_existing (db w)) sts.
Proof.
  intros Hauto. destruct (ensure_id_tipo df w) as [[df1|e] w1] eqn:Hens.
  2: { rewrite (main_ensure_raise _ _ _ _ _ Hens). simpl.
       split; [apply same_keys_refl|]. exists []. by rewrite app_nil_r. }
  destruct (main_reaches_guard args df w df1 w1 Hens)
    as (w2 & (Hdb & _ & (sts0 & Htr & Hro) & _) & ->).
  assert (H0 : Forall (updates_existing (db w)) sts0).
  { eapply Forall_impl; [exact Hro|]. intros st. by destruct st. }
  unfold guard_seed_update. rewrite Hauto.
  destruct (_ && _ && _).
  { simpl. rewrite Hdb. split; [apply same_keys_refl|]. by exists sts0. }
  cbn [andb]. unfold filter_and_update.
  set (ex := existing_idtipos (ids_plan_of df1) (db w)).
  destruct (apply_updates_effect (filter (λ r, idTipo r ∈ ex) (df_textos_of df1))
              (filter (λ r, idTipo_tl r ∈ ex) (df_titulos_of df1)) w2)
    as (b & w' & -> & Hdb' & _ & sts & Htr' & Hsts).
  simpl. rewrite Hdb', Hdb. split; [apply same_keys_updates|].
  exists (sts0 ++ sts). split; [by rewrite Htr', Htr, app_assoc|].
  apply Forall_app. split; [done|].
  eapply Forall_impl; [exact Hsts|]. intros st [Hst|[Hst| ->]]; [| |done].
  - apply list_elem_of_fmap in Hst as (f & -> & Hf).
    apply list_elem_of_filter in Hf as [Hf _]. simpl.
    unfold ex, existing_idtipos in Hf.
    by apply elem_of_list_to_set, list_elem_of_filter in Hf as [? _].
  - apply list_elem_of_fmap in Hst as (f & -> & Hf).
    apply list_elem_of_filter in Hf as [Hf _]. simpl.
    unfold ex, existing_idtipos in Hf.
    by apply elem_of_list_to_set, list_elem_of_filter in Hf as [? _].
Qed.

(** X12. With [--auto-seed] the missing-ratio guard is switched off: no
    sheet, no state of the tables and no threshold make [main] end at it. *)
Theorem auto_seed_disables_ratio_guard (args : Args) (df : DataFrame) (w : World) :
  auto_seed args = true →
  (main args df w).1 ≠ Ok AbortMissingRatio.
Proof.
  intros Hauto. destruct (ensure_id_tipo df w) as [[df1|e] w1] eqn:Hens.
  2: { by rewrite (main_ensure_raise _ _ _ _ _ Hens). }
  destruct (main_reaches_guard args df w df1 w1 Hens) as (w2 & _ & ->).
  unfold guard_seed_update. rewrite Hauto. cbn [negb andb].
  rewrite andb_false_r. cbn [andb].
  set (ids := ids_plan_of df1). set (ex := existing_idtipos ids (db w)).
  set (faltam := sorted_difference ids ex).
  destruct (bool_decide (faltam ≠ [])).
  - destruct (Z_lt_le_dec (max_seed args) (Z.of_nat (length faltam))) as [Hcap|Hcap].
    + by destruct (seed_step_over_cap args ids faltam (df_textos_of df1)
                     (df_titulos_of df1) w2 Hcap) as (w' & -> & _).
    + destruct (seed_step_within_cap args ids faltam (df_textos_of df1)
                  (df_titulos_of df1) w2 Hcap) as [Hin _].
      intros Hout. by rewrite Hout in Hin.
  - by destruct (filter_and_update_run ex (df_textos_of df1) (df_titulos_of df1) w2)
      as (a & b & w' & -> & _).
Qed.

Lemma unique_nil_inv {A} `{EqDecision A} (l : list A) : Py.unique l = [] → l = [].
Proof.
  destruct l as [|x l]; [done|]. intros H.
  assert (Hx : x ∈ Py.unique (x :: l)) by (apply elem_of_unique; left).
  rewrite H in Hx. by apply elem_of_nil in Hx.
Qed.

(** X13. A sheet in which no line has a usable identifier is a run without
    effect, whatever the options: [main] ends normally with zero rows
    updated in both tables and no write at all. *)
Theorem main_without_identifiers (args : Args) (df df1 : DataFrame) (w w1 : World) :
  ensure_id_tipo df w = (Ok df1, w1) →
  ids_plan_of df1 = [] →
  ∃ w', main args df w = (Ok (Concluido 0 0), w') ∧ no_writes w w'.
Proof.
  intros Hens Hids.
  destruct (main_reaches_guard args df w df1 w1 Hens) as (w2 & Hnw & ->).
  assert (Hnum : omap (λ r, to_numeric (id_tipo r)) (rows df1) = [])
    by (by apply unique_nil_inv).
  assert (Htt : df_textos_of df1 = []).
  { apply (fmap_nil_inv idTipo). by rewrite df_textos_ids. }
  assert (Htl : df_titulos_of df1 = []).
  { apply (fmap_nil_inv idTipo_tl). rewrite df_titulos_ids, Hnum. by destruct (_ || _). }
  rewrite Hids, Htt, Htl. unfold guard_seed_update, sorted_difference.
  replace ((list_to_set [] : gset Z) ∖ existing_idtipos [] (db w)) with (∅ : gset Z)
    by set_solver.
  rewrite elements_empty. simpl. rewrite andb_false_r.
  eexists. split; [reflexivity|].
  eapply no_writes_trans; [exact Hnw|].
  split; [done|]. split; [done|]. split.
  - exists []. by rewrite app_nil_r.
  - eexists. simpl. rewrite <- !app_assoc. reflexivity.
Qed.

(** *** A live seed followed by the updates *)

(** Step 7 within the cap, up to the call of the seeder: no write, and the
    mapping the seeder receives. *)
Lemma seed_step_reaches_seed args ids faltam df_tt df_tl w :
  Z.of_nat (length faltam) ≤ max_seed args →
  let mapa := mapping_of faltam (pick_idconteudo args) (db w) in
  let sem := sorted_difference faltam (dom mapa) in
  let m := match default_idconteudo args, sem with
           | Some idc, _ :: _ => foldl (λ m idt, <[idt := idc]> m) mapa sem
           | _, _ => mapa
           end in
  ∃ rest wc,
    no_writes w wc ∧
    seed_step args ids faltam df_tt df_tl w =
      (ins <- seed_missing m (dry_run args) ;;
       after_seed args ids rest ins df_tt df_tl) wc.
Proof.
  intros Hcap. cbv zeta. unfold seed_step.
  replace (Z.of_nat (length faltam) >? max_seed args) with false
    by (symmetry; rewrite Z.gtb_ltb; apply Z.ltb_ge; lia).
  run_quiet (quiet_resolve_idconteudo faltam (pick_idconteudo args)) as wa Ha.
  set (mapa := mapping_of faltam (pick_idconteudo args) (db w)).
  set (sem := sorted_difference faltam (dom mapa)).
  run_quiet (quiet_log (Log_Mapeados (size mapa) (length sem))) as wb Hb.
  set (m := match default_idconteudo args, sem with
            | Some idc, _ :: _ => foldl (λ m idt, <[idt := idc]> m) mapa sem
            | _, _ => mapa
            end).
  assert (Hfb : ∃ rest wc,
            apply_fallback args mapa sem wb = (Ok (m, rest), wc) ∧ no_writes wb wc).
  { unfold apply_fallback, m.
    destruct (default_idconteudo args) as [idc|]; [destruct sem as [|i l]|].
    - exists [], wb. split; [done | apply no_writes_refl].
    - destruct (quiet_log (Log_Fallback idc (length (i :: l))) wb) as (wx & Hx & Hnw).
      rewrite (bind_ok _ _ _ _ _ Hx). by exists [], wx.
    - exists sem, wb. split; [done | apply no_writes_refl]. }
  destruct Hfb as (rest & wc & Hfb & Hc). rewrite (bind_ok _ _ _ _ _ Hfb).
  cbn [fst snd]. exists rest, wc. split; [|done].
  repeat (eapply no_writes_trans; [eassumption|]). apply no_writes_refl.
Qed.

(** What a live seed leaves in the tables, whether it returns or raises. *)
Lemma seed_missing_live_db m w r w' :
  seed_missing m false w = (r, w') →
  match r with
  | Ok _ => seed_rows_db (Py.sorted_items m) (db w) = Ok (db w')
  | Raise _ => db w' = db w
  end.
Proof.
  intros Hs. destruct (decide (m = ∅)) as [->|Hm].
  - rewrite seed_missing_empty in Hs. injection Hs as <- <-.
    by rewrite sorted_items_empty.
  - destruct (seed_missing_live_run m w Hm) as (wd & Hrun & Hdb & _).
    rewrite Hs in Hrun.
    destruct (seed_rows_db (Py.sorted_items m) (db w)) as [d1|e];
      injection Hrun as -> <-; by rewrite Hdb.
Qed.

(** After a live seed: the report, the second existence check, and steps 8
    and 9 with the identifiers that exist now. *)
Lemma after_seed_live args ids rest ins df_tt df_tl w :
  dry_run args = false →
  ∃ w3, db w3 = db w ∧
    after_seed args ids rest ins df_tt df_tl w =
      filter_and_update (existing_idtipos ids (db w)) df_tt df_tl w3.
Proof.
  intros Hdry. unfold after_seed.
  run_quiet (quiet_log (Log_SeedInseridos ins.1 ins.2)) as we He.
  assert (Hq : quiet (match rest with
                      | [] => ret ()
                      | _ :: _ =>
                          log_print (Log_SemIdConteudo (take 20 rest)
                                       (bool_decide (20 < length rest)%nat))
                      end) (λ _, ())).
  { destruct rest; [apply quiet_ret | apply quiet_log]. }
  run_quiet Hq as wf Hf. rewrite Hdry.
  run_quiet (quiet_fetch_existing_idtipos ids) as wg Hg.
  assert (Hdbf : db wf = db w).
  { destruct Hf as (-> & _). by destruct He as (-> & _). }
  rewrite Hdbf. exists wg. split; [|done].
  destruct Hg as (-> & _). done.
Qed.

(** A live step 7 within the cap that does not raise: the seed statements
    of the final mapping went through, and the run goes on to steps 8 and 9
    with the identifiers that exist after the seed. *)
Lemma seed_step_live args ids faltam df_tt df_tl w out w' :
  dry_run args = false →
  Z.of_nat (length faltam) ≤ max_seed args →
  seed_step args ids faltam df_tt df_tl w = (Ok out, w') →
  let mapa := mapping_of faltam (pick_idconteudo args) (db w) in
  let sem := sorted_difference faltam (dom mapa) in
  let m := match default_idconteudo args, sem with
           | Some idc, _ :: _ => foldl (λ m idt, <[idt := idc]> m) mapa sem
           | _, _ => mapa
           end in
  ∃ d1 w3,
    seed_rows_db (Py.sorted_items m) (db w) = Ok d1 ∧ db w3 = d1 ∧
    filter_and_update (existing_idtipos ids d1) df_tt df_tl w3 = (Ok out, w').
Proof.
  intros Hdry Hcap. cbv zeta.
  destruct (seed_step_reaches_seed args ids faltam df_tt df_tl w Hcap)
    as (rest & wc & (Hdbc & _) & ->).
  rewrite Hdry.
  set (m := match default_idconteudo args with Some _ => _ | None => _ end).
  destruct (seed_missing m false wc) as [[ins|e] wd] eqn:Hs;
    [|by rewrite (bind_raise _ _ _ _ _ Hs)].
  rewrite (bind_ok _ _ _ _ _ Hs).
  apply seed_missing_live_db in Hs. rewrite Hdbc in Hs.
  destruct (after_seed_live args ids rest ins df_tt df_tl wd Hdry) as (w3 & Hdb3 & ->).
  intros Hfin. by exists (db wd), w3.
Qed.

Lemma filter_all {A} (P : A → Prop) `{∀ x, Decision (P x)} (l : list A) :
  (∀ x, x ∈ l → P x) → filter P l = l.
Proof.
  induction l as [|x l IH]; [done|]. intros Hall.
  rewrite filter_cons, decide_True by (apply Hall; left).
  rewrite IH; [done|]. intros y Hy. apply Hall. by right.
Qed.

Lemma rowcount_tt_pos k d : has_tt k d = true → 1 ≤ rowcount_tt k d.
Proof.
  intros (r & Hr & Hk)%has_tt_true. unfold rowcount_tt.
  assert (Hin : r ∈ filter (λ r, tt_idTipo r = k) (PUB_TIPOS_TEXTOS d))
    by (by apply list_elem_of_filter).
  destruct (filter _ _); [by apply elem_of_nil in Hin | simpl; lia].
Qed.

Lemma elem_of_df_textos_ids df f :
  f ∈ df_textos_of df → idTipo f ∈ ids_plan_of df.
Proof.
  intros Hf. unfold ids_plan_of. apply elem_of_unique.
  rewrite <- df_textos_ids. apply list_elem_of_fmap. eauto.
Qed.

Lemma total_rowcount_tt_ge (l : list FrameTT) d :
  (∀ f, f ∈ l → has_tt (idTipo f) d = true) →
  Z.of_nat (length l) ≤ total_rowcount_tt l d.
Proof.
  induction l as [|f l IH]; intros Hfs; [done|].
  simpl. pose proof (rowcount_tt_pos _ _ (Hfs f ltac:(left))) as Hpos.
  assert (Z.of_nat (length l) ≤ total_rowcount_tt l d)
    by (apply IH; intros g Hg; apply Hfs; by right).
  lia.
Qed.

(** Steps 8 and 9 when every identifier of the sheet has its row. *)
Lemma filter_and_update_all df d1 w3 a b w' :
  db w3 = d1 →
  (∀ k, k ∈ ids_plan_of df → has_tt k d1 = true) →
  filter_and_update (existing_idtipos (ids_plan_of df) d1)
    (df_textos_of df) (df_titulos_of df) w3 = (Ok (Concluido a b), w') →
  same_keys d1 (db w') ∧ Z.of_nat (length (df_textos_of df)) ≤ a.
Proof.
  intros Hdb Hall. unfold filter_and_update.
  rewrite (filter_all _ (df_textos_of df)).
  2: { intros f Hf. apply elem_of_df_textos_ids in Hf.
       unfold existing_idtipos. apply elem_of_list_to_set, list_elem_of_filter. auto. }
  destruct (apply_updates_effect (df_textos_of df)
              (filter (λ r, idTipo_tl r ∈ existing_idtipos (ids_plan_of df) d1)
                 (df_titulos_of df)) w3) as (b' & w'' & -> & Hdb' & _).
  intros [= <- _ <-]. rewrite Hdb', Hdb. split; [apply same_keys_updates|].
  apply total_rowcount_tt_ge. intros f Hf. by apply Hall, elem_of_df_textos_ids.
Qed.

Lemma elem_of_sorted_difference k ids (s : gset Z) :
  k ∈ sorted_difference ids s ↔ k ∈ ids ∧ k ∉ s.
Proof.
  unfold sorted_difference.
  by rewrite elem_of_sorted, elem_of_elements, elem_of_difference, elem_of_list_to_set.
Qed.

Lemma foldl_insert_lookup (m : gmap Z Z) (l : list Z) (v : Z) k :
  foldl (λ m idt, <[idt := v]> m) m l !! k =
    if decide (k ∈ l) then Some v else m !! k.
Proof.
  revert m. induction l as [|x l IH]; intros m; cbn [foldl].
  - by destruct (decide (k ∈ [])) as [?%elem_of_nil|].
  - rewrite IH. destruct (decide (k ∈ l)) as [Hin|Hout];
      destruct (decide (k ∈ x :: l)) as [Hin'|Hout']; try done.
    + exfalso. apply Hout'. by right.
    + apply elem_of_cons in Hin' as [->|?]; [|done]. by rewrite lookup_insert_eq.
    + rewrite lookup_insert_ne; [done|]. intros <-. apply Hout'. left.
Qed.

(** X14. A live run with [--auto-seed] and a default content id that ends
    normally has dropped no line: every identifier of the sheet then has a
    row in [PUB_TIPOS_TEXTOS], one that had none also has one in
    [PUB_TIPOS_TEXTOS_TITULOS], and the number of rows reported as updated in
    [PUB_TIPOS_TEXTOS] is at least the number of lines of [df_textos]. *)
Theorem main_auto_seed_default_covers_sheet
    (args : Args) (df df1 : DataFrame) (w w1 w' : World) (idc a b : Z) :
  auto_seed args = true → dry_run args = false →
  default_idconteudo args = Some idc →
  ensure_id_tipo df w = (Ok df1, w1) →
  main args df w = (Ok (Concluido a b), w') →
  (∀ k, k ∈ ids_plan_of df1 → has_tt k (db w') = true) ∧
  (∀ k, k ∈ ids_plan_of df1 → has_tt k (db w) = false → has_tl k (db w') = true) ∧
  Z.of_nat (length (df_textos_of df1)) ≤ a.
Proof.
  intros Hauto Hdry Hdef Hens.
  destruct (main_reaches_guard args df w df1 w1 Hens) as (w2 & (Hdb2 & _) & ->).
  set (ids := ids_plan_of df1). set (ex := existing_idtipos ids (db w)).
  set (faltam := sorted_difference ids ex).
  assert (Hex : ∀ k, k ∈ ids → k ∉ ex → has_tt k (db w) = false).
  { intros k Hk Hno. destruct (has_tt k (db w)) eqn:E; [|done]. exfalso. apply Hno.
    unfold ex, existing_idtipos. by apply elem_of_list_to_set, list_elem_of_filter. }
  assert (Hex' : ∀ k, k ∈ ex → has_tt k (db w) = true).
  { intros k Hk. unfold ex, existing_idtipos in Hk.
    by apply elem_of_list_to_set, list_elem_of_filter in Hk as [? _]. }
  unfold guard_seed_update. rewrite Hauto. cbn [negb andb].
  rewrite andb_false_r. cbn [andb].
  intros Hrun.
  assert (Hgoal : ∃ d1 w3, db w3 = d1 ∧
            (∀ k, k ∈ ids → has_tt k d1 = true) ∧
            (∀ k, k ∈ ids → has_tt k (db w) = false → has_tl k d1 = true) ∧
            filter_and_update (existing_idtipos ids d1) (df_textos_of df1)
              (df_titulos_of df1) w3 = (Ok (Concluido a b), w')).
  { destruct (bool_decide (faltam ≠ [])) eqn:Hf.
    - destruct (Z_lt_le_dec (max_seed args) (Z.of_nat (length faltam))) as [Hcap|Hcap].
      { destruct (seed_step_over_cap args ids faltam (df_textos_of df1)
                    (df_titulos_of df1) w2 Hcap) as (wx & Hx & _).
        by rewrite Hx in Hrun. }
      destruct (seed_step_live _ _ _ _ _ _ _ _ Hdry Hcap Hrun)
        as (d1 & w3 & Hseed & Hdb3 & Hrun3).
      rewrite Hdef, Hdb2 in Hseed.
      set (mapa := mapping_of faltam (pick_idconteudo args) (db w)) in *.
      destruct (seed_rows_db_ok _ _ _ Hseed) as [(Hkeep & _) Hrows].
      assert (Hcov : ∀ k, k ∈ faltam → has_tt k d1 = true ∧ has_tl k d1 = true).
      { intros k Hk.
        destruct (decide (k ∈ dom mapa)) as [Hin|Hout].
        - apply elem_of_dom in Hin as [v Hv].
          apply (Hrows (k, v)), elem_of_sorted_items.
          destruct (sorted_difference faltam (dom mapa)) as [|i l] eqn:Hsem; [done|].
          rewrite foldl_insert_lookup.
          destruct (decide (k ∈ i :: l)) as [Hbad|_]; [|done].
          rewrite <- Hsem in Hbad. apply elem_of_sorted_difference in Hbad as [_ Hbad].
          exfalso. apply Hbad. apply elem_of_dom. eauto.
        - assert (Hsem : k ∈ sorted_difference faltam (dom mapa))
            by (by apply elem_of_sorted_difference).
          apply (Hrows (k, idc)), elem_of_sorted_items.
          destruct (sorted_difference faltam (dom mapa)) as [|i l];
            [by apply elem_of_nil in Hsem|].
          rewrite foldl_insert_lookup. by rewrite decide_True. }
      exists d1, w3. split; [done|]. split; [|split; [|done]].
      + intros k Hk. destruct (decide (k ∈ ex)) as [Hin|Hout].
        * by apply Hkeep, Hex'.
        * apply Hcov. by apply elem_of_sorted_difference.
      + intros k Hk Hno. apply Hcov, elem_of_sorted_difference. split; [done|].
        intros Hin. apply Hex' in Hin. congruence.
    - apply bool_decide_eq_false in Hf.
      assert (Hnil : faltam = []) by (by destruct faltam; [|exfalso; apply Hf]).
      assert (Hall : ∀ k, k ∈ ids → has_tt k (db w) = true).
      { intros k Hk. apply Hex'. destruct (decide (k ∈ ex)) as [|Hout]; [done|].
        assert (Hbad : k ∈ faltam) by (by apply elem_of_sorted_difference).
        rewrite Hnil in Hbad. by apply elem_of_nil in Hbad. }
      exists (db w), w2. split; [done|]. split; [done|]. split; [|done].
      intros k Hk Hno. rewrite Hall in Hno; [done|done]. }
  destruct Hgoal as (d1 & w3 & Hdb3 & Htt & Htl & Hrun3).
  destruct (filter_and_update_all df1 d1 w3 a b w' Hdb3 Htt Hrun3) as [Hkeys Hcount].
  split; [|split; [|done]].
  - intros k Hk. rewrite (has_tt_same_keys _ _ _ Hkeys). by apply Htt.
  - intros k Hk Hno. specialize (Htl k Hk Hno).
    apply has_tl_true in Htl as (r & Hr & Hkr). destruct Hkeys as (_ & Hkl & _).
    assert (Hin : k ∈ tl_idTipo <$> PUB_TIPOS_TEXTOS_TITULOS (db w')).
    { rewrite Hkl. apply list_elem_of_fmap. eauto. }
    apply list_elem_of_fmap in Hin as (r' & -> & Hr'). apply has_tl_true. eauto.
Qed.

(** X15. The script creates a row for an identifier only in one case: a
    live run with [--auto-seed], for an identifier of the sheet that either
    has a non-null content id in the mapping table or gets the default one.
    In every other case (no [--auto-seed], a dry run, an identifier that is
    not in the sheet, one without content id and without default, a seed
    that was rolled back) an identifier without a row in [PUB_TIPOS_TEXTOS]
    is still without one when [main] ends. *)
Theorem main_inserts_only_resolved_sheet_ids
    (args : Args) (df : DataFrame) (w : World) (k : Z) :
  has_tt k (db w) = false →
  has_tt k (db (main args df w).2) = true →
  auto_seed args = true ∧ dry_run args = false ∧
  (∃ df1 w1, ensure_id_tipo df w = (Ok df1, w1) ∧ k ∈ ids_plan_of df1) ∧
  (is_Some (default_idconteudo args) ∨
   ∃ c, (k, Some c) ∈ TEMATICOS_CONTEUDO_ITEM (db w)).
Proof.
  intros Hno. destruct (ensure_id_tipo df w) as [[df1|e] w1] eqn:Hens.
  2: { rewrite (main_ensure_raise _ _ _ _ _ Hens). simpl. congruence. }
  destruct (main_reaches_guard args df w df1 w1 Hens) as (w2 & (Hdb2 & _) & ->).
  set (ids := ids_plan_of df1). set (ex := existing_idtipos ids (db w)).
  set (faltam := sorted_difference ids ex).
  assert (Hupd : ∀ s w3, has_tt k (db w3) = false →
            has_tt k (db (filter_and_update s (df_textos_of df1)
                            (df_titulos_of df1) w3).2) = false).
  { intros s w3 H3. unfold filter_and_update.
    destruct (apply_updates_effect (filter (λ r, idTipo r ∈ s) (df_textos_of df1))
                (filter (λ r, idTipo_tl r ∈ s) (df_titulos_of df1)) w3)
      as (b & w' & -> & Hdb' & _).
    simpl. by rewrite Hdb', (has_tt_same_keys _ _ _ (same_keys_updates _ _ _)). }
  assert (Hno2 : has_tt k (db w2) = false) by (by rewrite Hdb2).
  unfold guard_seed_update.
  destruct (_ && _ && _); [simpl; congruence|].
  destruct (auto_seed args) eqn:Hauto; cbn [andb];
    [|by rewrite Hupd].
  destruct (bool_decide (faltam ≠ [])); [|by rewrite Hupd].
  destruct (dry_run args) eqn:Hdry.
  { destruct (seed_step_dry_run args ids faltam (df_textos_of df1)
                (df_titulos_of df1) w2 Hdry) as (out & w' & -> & (Hdb' & _) & _).
    simpl. congruence. }
  destruct (Z_lt_le_dec (max_seed args) (Z.of_nat (length faltam))) as [Hcap|Hcap].
  { destruct (seed_step_over_cap args ids faltam (df_textos_of df1)
                (df_titulos_of df1) w2 Hcap) as (w' & -> & (Hdb' & _)).
    simpl. congruence. }
  destruct (seed_step_reaches_seed args ids faltam (df_textos_of df1)
              (df_titulos_of df1) w2 Hcap) as (rest & wc & (Hdbc & _) & ->).
  rewrite Hdry, Hdb2.
  set (mapa := mapping_of faltam (pick_idconteudo args) (db w)).
  set (m := match default_idconteudo args with Some _ => _ | None => _ end).
  destruct (seed_missing m false wc) as [[ins|e] wd] eqn:Hs.
  2: { rewrite (bind_raise _ _ _ _ _ Hs). simpl.
       apply seed_missing_live_db in Hs. congruence. }
  rewrite (bind_ok _ _ _ _ _ Hs).
  apply seed_missing_live_db in Hs. rewrite Hdbc, Hdb2 in Hs.
  destruct (after_seed_live args ids rest ins (df_textos_of df1)
              (df_titulos_of df1) wd Hdry) as (w3 & Hdb3 & ->).
  destruct (has_tt k (db w3)) eqn:Hyes; [|by rewrite Hupd].
  intros _. rewrite Hdb3 in Hyes.
  destruct (seed_rows_db_appends _ _ _ Hs) as ((added & Htt & Hadded) & _).
  apply has_tt_true in Hyes as (r & Hr & Hk). rewrite Htt in Hr.
  apply elem_of_app in Hr as [Hr|Hr].
  { assert (has_tt k (db w) = true) by (apply has_tt_true; eauto). congruence. }
  rewrite Forall_forall in Hadded.
  destruct (Hadded r Hr) as ([k' v] & Hp & -> & _). simpl in Hk. subst k'.
  apply elem_of_sorted_items in Hp.
  assert (Hmapa : ∀ v, mapa !! k = Some v →
            k ∈ faltam ∧ ∃ c, (k, Some c) ∈ TEMATICOS_CONTEUDO_ITEM (db w)).
  { intros v0 Hv0. apply mapping_of_dom with (pick := pick_idconteudo args). eauto. }
  assert (Hcases : k ∈ faltam ∧
            (is_Some (default_idconteudo args) ∨
             ∃ c, (k, Some c) ∈ TEMATICOS_CONTEUDO_ITEM (db w))).
  { unfold m in Hp. destruct (default_idconteudo args) as [idc|].
    - split; [|left; eauto].
      destruct (sorted_difference faltam (dom mapa)) as [|i l] eqn:Hsem.
      + by apply (Hmapa v).
      + rewrite foldl_insert_lookup in Hp.
        destruct (decide (k ∈ i :: l)) as [Hin|_]; [|by apply (Hmapa v)].
        rewrite <- Hsem in Hin. by apply elem_of_sorted_difference in Hin as [? _].
    - destruct (Hmapa v Hp) as [? ?]. split; [done|by right]. }
  destruct Hcases as [Hf Hor]. split; [done|]. split; [done|]. split; [|done].
  exists df1, w1. split; [done|]. by apply elem_of_sorted_difference in Hf as [? _].
Qed.

(** *** The guards of [main], statement by statement *)

Lemma bind_log {B} (m : LogMsg) (k : unit → Prog B) (w : World) :
  bind (log_print m) k w =
  k () {| db := db w; tx := tx w; trace := trace w; log := log w ++ [m] |}.
Proof. reflexivity. Qed.

Lemma fetch_existing_idtipos_run (ids : list Z) (w : World) :
  fetch_existing_idtipos ids w =
    (Ok (existing_idtipos ids (db w)),
     {| db := db w; tx := tx w;
        trace := trace w ++ (SelectExisting <$> Py.chunked ids); log := log w |}).
Proof.
  destruct (quiet_fetch_existing_idtipos ids w) as (w' & Hrun & _).
  assert (Hloop : fetch_existing_idtipos ids w =
            fold_each (Py.chunked ids) (∅ : gset Z)
              (λ out chunk,
                 fetched <- execute_select_existing chunk ;;
                 ret (out ∪ list_to_set fetched)) w)
    by (by destruct ids).
  rewrite Hloop, fetch_existing_loop in Hrun. injection Hrun as Hval _.
  by rewrite Hloop, fetch_existing_loop, Hval.
Qed.

(** What [ensure_id_tipo] sends when it returns: at most the one lookup of
    [PROCESSADO_BUSCA_TIPOS]. *)
Lemma ensure_id_tipo_lookups df w df1 w1 :
  ensure_id_tipo df w = (Ok df1, w1) →
  db w1 = db w ∧ tx w1 = tx w ∧ log_grows w w1 ∧
  ∃ reads, trace w1 = trace w ++ reads ∧ Forall (λ st, is_lookup st = true) reads.
Proof.
  intros Hens. destruct (ensure_id_tipo_ok _ _ _ _ Hens) as [_ (Hdb & Htx & _ & Hlog)].
  split; [done|]. split; [done|]. split; [done|]. revert Hens.
  destruct (has_id_tipo df) eqn:H0.
  { unfold ensure_id_tipo. rewrite H0. intros [= <- <-].
    exists []. by rewrite app_nil_r. }
  destruct (has_id_cat df) eqn:H1; destruct (has_id_grupo df) eqn:H2;
    try (unfold ensure_id_tipo; rewrite H0, H1, H2; simpl; by intros [=]).
  destruct (numeric_keys id_cat df) as [|c cs] eqn:Ec.
  { unfold ensure_id_tipo. rewrite H0, H1, H2, Ec. simpl. by intros [=]. }
  destruct (numeric_keys id_grupo df) as [|g gs] eqn:Eg.
  { unfold ensure_id_tipo. rewrite H0, H1, H2, Ec, Eg. simpl. by intros [=]. }
  unfold ensure_id_tipo. rewrite H0, H1, H2, Ec, Eg. cbn [andb negb].
  unfold bind at 1. unfold execute_select_busca_tipos at 1. cbv beta iota.
  destruct (pares_sem_id_tipo _) as [|p ps].
  - intros [= _ <-]. exists [SelectBuscaTipos (c :: cs) (g :: gs)].
    split; [done|]. by repeat constructor.
  - rewrite bind_log. intros [= _ <-]. exists [SelectBuscaTipos (c :: cs) (g :: gs)].
    split; [done|]. by repeat constructor.
Qed.

(** From a sheet whose identifiers resolved, [main] reaches step 6 having
    sent lookups only. *)
Lemma main_reaches_guard_lookups args df w df1 w1 :
  ensure_id_tipo df w = (Ok df1, w1) →
  let ids := ids_plan_of df1 in
  let existentes := existing_idtipos ids (db w) in
  ∃ w2,
    db w2 = db w ∧ tx w2 = tx w ∧ log_grows w w2 ∧
    (∃ reads, trace w2 = trace w ++ reads ∧ Forall (λ st, is_lookup st = true) reads) ∧
    main args df w =
      guard_seed_update args ids existentes (sorted_difference ids existentes)
        (df_textos_of df1) (df_titulos_of df1) w2.
Proof.
  intros Hens ids existentes.
  destruct (ensure_id_tipo_ok _ _ _ _ Hens) as [Hcol _].
  destruct (ensure_id_tipo_lookups _ _ _ _ Hens)
    as (Hdb1 & Htx1 & [l1 Hl1] & r1 & Ht1 & Hr1).
  unfold main, main_kind. simpl.
  rewrite (bind_ok _ _ _ _ _ Hens).
  unfold build_frames. rewrite Hcol. simpl.
  rewrite (bind_ok _ _ w1 (df_textos_of df1, df_titulos_of df1) w1 eq_refl).
  rewrite bind_log. cbn [fst snd]. unfold reconcile. fold ids.
  rewrite (bind_ok _ _ _ _ _ (fetch_existing_idtipos_run ids _)).
  cbn [db]. rewrite Hdb1. fold existentes. rewrite !bind_log.
  eexists. split; [|split; [|split; [|split; [|reflexivity]]]]; simpl.
  - done.
  - done.
  - eexists. rewrite Hl1, <- !app_assoc. reflexivity.
  - exists (r1 ++ (SelectExisting <$> Py.chunked ids)).
    split; [by rewrite Ht1, app_assoc|].
    apply Forall_app. split; [done|]. apply Forall_fmap, Forall_forall. by intros.
Qed.

Lemma filter_ext_in {A} (P Q : A → Prop)
    `{∀ x, Decision (P x)} `{∀ x, Decision (Q x)} (l : list A) :
  (∀ x, x ∈ l → P x ↔ Q x) → filter P l = filter Q l.
Proof.
  induction l as [|x l IH]; [done|]. intros Hall.
  rewrite !filter_cons, IH by (intros y Hy; apply Hall; by right).
  destruct (decide (P x)) as [HP|HP], (decide (Q x)) as [HQ|HQ]; try done;
    exfalso; apply HQ || apply HP; apply (Hall x); (left || done); done.
Qed.

Lemma elem_of_df_titulos_ids df f :
  f ∈ df_titulos_of df → idTipo_tl f ∈ ids_plan_of df.
Proof.
  intros Hf. unfold ids_plan_of. apply elem_of_unique.
  assert (Hin : idTipo_tl f ∈ idTipo_tl <$> df_titulos_of df)
    by (apply list_elem_of_fmap; eauto).
  rewrite df_titulos_ids in Hin.
  destruct (has_Texto_Title df || has_Texto_Meta_Description df); [done|].
  by apply elem_of_nil in Hin.
Qed.

Lemma elem_of_existing_idtipos k ids d :
  k ∈ existing_idtipos ids d ↔ k ∈ ids ∧ has_tt k d = true.
Proof.
  unfold existing_idtipos. by rewrite elem_of_list_to_set, list_elem_of_filter, (comm and).
Qed.

(** Step 8 keeps the lines whose identifier has a row. *)
Lemma filter_existing_tt df d :
  filter (λ r, idTipo r ∈ existing_idtipos (ids_plan_of df) d) (df_textos_of df)
  = lines_with_row_tt d (df_textos_of df).
Proof.
  apply filter_ext_in. intros f Hf. rewrite elem_of_existing_idtipos.
  split; [by intros [_ ?]|]. intros ?. split; [by apply elem_of_df_textos_ids|done].
Qed.

Lemma filter_existing_tl df d :
  filter (λ r, idTipo_tl r ∈ existing_idtipos (ids_plan_of df) d) (df_titulos_of df)
  = lines_with_row_tl d (df_titulos_of df).
Proof.
  apply filter_ext_in. intros f Hf. rewrite elem_of_existing_idtipos.
  split; [by intros [_ ?]|]. intros ?. split; [by apply elem_of_df_titulos_ids|done].
Qed.

Lemma total_rowcount_tl_same_tl (df : list FrameTL) d d' :
  PUB_TIPOS_TEXTOS_TITULOS d' = PUB_TIPOS_TEXTOS_TITULOS d →
  total_rowcount_tl df d' = total_rowcount_tl df d.
Proof.
  intros E. induction df as [|f df IH]; [done|].
  simpl. unfold rowcount_tl. by rewrite E, IH.
Qed.

(** The two update passes, exactly: what they return, leave and send. *)
Lemma apply_updates_exact df_tt df_tl w :
  ∃ w',
    apply_updates df_tt df_tl w
      = (Ok (Concluido (total_rowcount_tt df_tt (db w))
                       (total_rowcount_tl df_tl (db w))), w') ∧
    db w' = foldl apply_frame_tl (foldl apply_frame_tt (db w) df_tt) df_tl ∧
    log_grows w w' ∧
    trace w' = trace w ++ pass_tt df_tt ++ pass_tl df_tl.
Proof.
  unfold apply_updates.
  assert (E1 : match df_tt with [] => ret 0 | _ :: _ => update_textos df_tt end
               = update_textos df_tt) by (by destruct df_tt).
  assert (E2 : match df_tl with [] => ret 0 | _ :: _ => update_titulos df_tl end
               = update_titulos df_tl) by (by destruct df_tl).
  rewrite E1, E2.
  destruct (update_textos_spec df_tt w) as (w1 & Hr1 & Hdb1 & Hlog1 & Ht1).
  rewrite (bind_ok _ _ _ _ _ Hr1).
  destruct (update_titulos_spec df_tl w1) as (w2 & Hr2 & Hdb2 & Hlog2 & Ht2).
  rewrite (bind_ok _ _ _ _ _ Hr2). rewrite !bind_log.
  assert (Hcount : total_rowcount_tl df_tl (db w1) = total_rowcount_tl df_tl (db w)).
  { apply total_rowcount_tl_same_tl. rewrite Hdb1.
    by destruct (foldl_apply_frame_tt (db w) df_tt) as (_ & -> & _). }
  rewrite Hcount. eexists. split; [reflexivity|]. simpl.
  split; [by rewrite Hdb2, Hdb1|]. split.
  - eexists. rewrite Hlog2, Hlog1, <- !app_assoc. reflexivity.
  - rewrite Ht2, Ht1. unfold pass_tt, pass_tl. by rewrite <- app_assoc.
Qed.

(** Steps 8 and 9 on the frames of a sheet, exactly. *)
Lemma filter_and_update_exact df d w :
  db w = d →
  let df_tt := lines_with_row_tt d (df_textos_of df) in
  let df_tl := lines_with_row_tl d (df_titulos_of df) in
  ∃ w',
    filter_and_update (existing_idtipos (ids_plan_of df) d)
      (df_textos_of df) (df_titulos_of df) w
    = (Ok (Concluido (total_rowcount_tt df_tt d) (total_rowcount_tl df_tl d)), w') ∧
    db w' = foldl apply_frame_tl (foldl apply_frame_tt d df_tt) df_tl ∧
    log_grows w w' ∧
    trace w' = trace w ++ pass_tt df_tt ++ pass_tl df_tl.
Proof.
  intros Hdb df_tt df_tl. unfold filter_and_update.
  rewrite filter_existing_tt, filter_existing_tl. fold df_tt df_tl.
  destruct (apply_updates_exact df_tt df_tl w) as (w' & Hrun & Hdb' & Hlog & Htr).
  rewrite Hdb in Hrun, Hdb'. by exists w'.
Qed.






Lemma resolve_loop fn (chunks : list (list Z)) (mapping : gmap Z Z) (w : World) :
  fold_each chunks mapping
    (λ mapping chunk,
       fetched <- execute_select_idconteudo fn chunk ;;
       ret (Py.dict_update mapping fetched)) w
  = (Ok (foldl (λ mapping chunk,
                  Py.dict_update mapping (select_idconteudo fn chunk (db w)))
           mapping chunks),
     {| db := db w; tx := tx w;
        trace := trace w ++ (SelectIdConteudo fn <$> chunks); log := log w |}).
Proof.
  revert mapping w. induction chunks as [|c chunks IH]; intros mapping w.
  - simpl. rewrite app_nil_r. by destruct w.
  - simpl. unfold bind at 1 2. simpl. rewrite IH. simpl.
    by rewrite <- app_assoc.
Qed.

(** [resolve_idconteudo] on a list that is not empty sends its query, once
    per chunk, and nothing else. *)
Lemma resolve_idconteudo_run (missing_ids : list Z) (pick : string) (w : World) :
  missing_ids ≠ [] →
  ∃ chunk chunks,
    resolve_idconteudo missing_ids pick w =
      (Ok (mapping_of missing_ids pick (db w)),
       {| db := db w; tx := tx w;
          trace := trace w ++ (SelectIdConteudo (agg_of_pick pick) <$> chunk :: chunks);
          log := log w |}).
Proof.
  intros Hne. unfold resolve_idconteudo, mapping_of.
  destruct (Py.sorted (elements (list_to_set missing_ids : gset Z))) as [|i ids] eqn:Hids.
  { exfalso. destruct missing_ids as [|x l]; [done|].
    assert (Hx : x ∈ Py.sorted (elements (list_to_set (x :: l) : gset Z))).
    { apply elem_of_sorted, elem_of_elements, elem_of_list_to_set. left. }
    rewrite Hids in Hx. by apply elem_of_nil in Hx. }
  fold (agg_of_pick pick). rewrite resolve_loop.
  unfold Py.chunked. simpl length. rewrite chunks_cons. eauto.
Qed.

(** Step 7 within the cap, up to the call of the seeder: the content ids are
    queried, nothing is written, and the seeder receives [seed_mapping]. *)
Lemma seed_step_enters args ids faltam df_tt df_tl w :
  Z.of_nat (length faltam) ≤ max_seed args →
  faltam ≠ [] →
  ∃ rest wc,
    db wc = db w ∧ tx wc = tx w ∧ log_grows w wc ∧
    (∃ sts fn chunk, trace wc = trace w ++ sts ∧ SelectIdConteudo fn chunk ∈ sts ∧
                     Forall (λ st, is_write st = false) sts) ∧
    seed_step args ids faltam df_tt df_tl w =
      (ins <- seed_missing (seed_mapping args faltam (db w)) (dry_run args) ;;
       after_seed args ids rest ins df_tt df_tl) wc.
Proof.
  intros Hcap Hne. unfold seed_step.
  replace (Z.of_nat (length faltam) >? max_seed args) with false
    by (symmetry; rewrite Z.gtb_ltb; apply Z.ltb_ge; lia).
  destruct (resolve_idconteudo_run faltam (pick_idconteudo args) w Hne)
    as (chunk & chunks & Hres).
  rewrite (bind_ok _ _ _ _ _ Hres). rewrite bind_log.
  set (mapa := mapping_of faltam (pick_idconteudo args) (db w)).
  set (sem := sorted_difference faltam (dom mapa)).
  set (wb := {| db := _; tx := _; trace := _; log := _ |}).
  assert (Hfb : ∃ rest wc,
            apply_fallback args mapa sem wb
              = (Ok (seed_mapping args faltam (db w), rest), wc) ∧
            db wc = db wb ∧ tx wc = tx wb ∧ trace wc = trace wb ∧ log_grows wb wc).
  { unfold apply_fallback, seed_mapping. fold mapa sem.
    destruct (default_idconteudo args) as [idc|]; [destruct sem as [|i l]|].
    - exists [], wb. split_and!; try done. apply log_grows_refl.
    - rewrite bind_log. eexists [], _. split; [reflexivity|]. simpl.
      split_and!; try done. by eexists.
    - exists sem, wb. split_and!; try done. apply log_grows_refl. }
  destruct Hfb as (rest & wc & Hfb & Hdbc & Htxc & Htrc & Hlogc).
  rewrite (bind_ok _ _ _ _ _ Hfb). cbn [fst snd].
  exists rest, wc. split; [by rewrite Hdbc|]. split; [by rewrite Htxc|].
  split; [|split; [|done]].
  - eapply log_grows_trans; [|exact Hlogc]. by eexists.
  - exists (SelectIdConteudo (agg_of_pick (pick_idconteudo args)) <$> chunk :: chunks),
      (agg_of_pick (pick_idconteudo args)), chunk.
    split; [by rewrite Htrc|]. split; [rewrite fmap_cons; left|].
    apply Forall_fmap, Forall_forall. by intros.
Qed.

(** A dry-run seed, with the first line of its preview. *)
Lemma seed_missing_dry_run_run m w :
  ∃ w',
    seed_missing m true w = (Ok (0, 0), w') ∧ no_writes w w' ∧
    (m ≠ ∅ → ∃ msgs, log w' = log w ++ Log_DrySeedSugerido (size m) :: msgs).
Proof.
  destruct (quiet_seed_missing_dry_run m w) as (w' & Hrun & Hnw).
  exists w'. split; [done|]. split; [done|]. intros Hm. revert Hrun.
  unfold seed_missing. rewrite bool_decide_eq_false_2 by done.
  unfold bind at 1. unfold log_print at 1. unfold bind at 1.
  rewrite for_each_log. simpl. rewrite length_sorted_items.
  intros [= <-]. simpl. rewrite <- app_assoc. eauto.
Qed.

(** A live seed: its result and the tables it leaves are those of the batch
    on the tables, and the trace only grows. *)
Lemma seed_missing_live_result m w :
  ∃ w',
    seed_missing m false w =
      (match seed_rows_db (Py.sorted_items m) (db w) with
       | Ok _ => Ok (0, 0)
       | Raise e => Raise e
       end, w') ∧
    db w' = match seed_rows_db (Py.sorted_items m) (db w) with
            | Ok d' => d'
            | Raise _ => db w
            end ∧
    log w' = log w ∧
    ∃ sts, trace w' = trace w ++ sts.
Proof.
  destruct (decide (m = ∅)) as [->|Hm].
  - exists w. rewrite seed_missing_empty, sorted_items_empty. simpl.
    split_and!; try done. exists []. by rewrite app_nil_r.
  - destruct (seed_missing_live_run m w Hm) as (w' & Hrun & Hdb & _ & Hlog & sts & Htr).
    exists w'. split_and!; try done. eauto.
Qed.

(** After a live seed: the report, the second existence check, steps 8 and
    9, without a write before them. *)
Lemma after_seed_live_run args ids rest ins df_tt df_tl w :
  dry_run args = false →
  ∃ w3, no_writes w w3 ∧
    after_seed args ids rest ins df_tt df_tl w =
      filter_and_update (existing_idtipos ids (db w)) df_tt df_tl w3.
Proof.
  intros Hdry. unfold after_seed.
  run_quiet (quiet_log (Log_SeedInseridos ins.1 ins.2)) as we He.
  assert (Hq : quiet (match rest with
                      | [] => ret ()
                      | _ :: _ =>
                          log_print (Log_SemIdConteudo (take 20 rest)
                                       (bool_decide (20 < length rest)%nat))
                      end) (λ _, ())).
  { destruct rest; [apply quiet_ret | apply quiet_log]. }
  run_quiet Hq as wf Hf. rewrite Hdry.
  run_quiet (quiet_fetch_existing_idtipos ids) as wg Hg.
  assert (Hdbf : db wf = db w).
  { destruct Hf as (-> & _). by destruct He as (-> & _). }
  rewrite Hdbf. exists wg. split; [|done].
  repeat (eapply no_writes_trans; [eassumption|]). apply no_writes_refl.
Qed.

Lemma no_writes_trace w w' :
  no_writes w w' → ∃ sts, trace w' = trace w ++ sts.
Proof. intros (_ & _ & (sts & ? & _) & _). eauto. Qed.

(** C3 (amended). With seeding enabled and [M > 0] identifiers of the sheet
    without a row, the cap decides whether step 7 is entered, not whether
    anything is written.  The run sends nothing but its lookups (no query of
    content ids, no seed statement, no update) exactly when [M] is greater
    than [--max-seed]; it then ends at the cap and has written nothing.
    Within the cap the content ids of the missing identifiers are queried
    and the seeder receives the resulting mapping.  A dry run then previews
    that mapping, ends, and has written nothing.  A live run ends on the
    exception of the first seed statement that is rejected, the tables as
    they were, or else leaves the tables as the seed statements of the
    mapping followed by the updates of the lines whose identifier now has a
    row make them, and reports the rows those updates matched. *)
Theorem max_seed_guard (args : Args) (df df1 : DataFrame) (w w1 : World) :
  auto_seed args = true →
  ensure_id_tipo df w = (Ok df1, w1) →
  ids_int64 df1 →
  let ids := ids_plan_of df1 in
  let M := length (missing_idtipos ids (db w)) in
  (0 < M)%nat →
  let faltam := sorted_difference ids (existing_idtipos ids (db w)) in
  let m := seed_mapping args faltam (db w) in
  let run := main args df w in
  ((∃ sts, trace run.2 = trace w ++ sts ∧ Forall (λ st, is_lookup st = true) sts)
   ↔ max_seed args < Z.of_nat M) ∧
  (max_seed args < Z.of_nat M →
     run.1 = Ok AbortMaxSeed ∧ no_writes w run.2) ∧
  (Z.of_nat M ≤ max_seed args →
     (∃ sts fn chunk, trace run.2 = trace w ++ sts ∧ SelectIdConteudo fn chunk ∈ sts) ∧
     if dry_run args then
       run.1 = Ok DryRunEnd ∧ no_writes w run.2 ∧
       (m ≠ ∅ → ∃ l1 l2, log run.2 = log w ++ l1 ++ Log_DrySeedSugerido (size m) :: l2)
     else
       match seed_rows_db (Py.sorted_items m) (db w) with
       | Raise e => run.1 = Raise e ∧ db run.2 = db w
       | Ok d1 =>
           let df_tt := lines_with_row_tt d1 (df_textos_of df1) in
           let df_tl := lines_with_row_tl d1 (df_titulos_of df1) in
           run.1 = Ok (Concluido (total_rowcount_tt df_tt d1)
                                 (total_rowcount_tl df_tl d1)) ∧
           db run.2 = foldl apply_frame_tl (foldl apply_frame_tt d1 df_tt) df_tl
       end).
Proof.
  intros Hauto Hens _ ids M HM faltam m run. subst run.
  destruct (main_reaches_guard_lookups args df w df1 w1 Hens)
    as (w2 & Hdb2 & Htx2 & Hlog2 & (reads & Htr2 & Hreads) & ->).
  fold ids. fold faltam.
  unfold guard_seed_update. rewrite Hauto. cbn [negb].
  rewrite andb_false_r. cbn [andb].
  assert (Hlen : length faltam = M)
    by apply (length_sorted_difference _ _ (NoDup_ids_plan_of df1)).
  assert (Hne : faltam ≠ []).
  { intros Hnil. rewrite Hnil in Hlen. simpl in Hlen. lia. }
  rewrite bool_decide_eq_true_2 by done.
  assert (Hnw2 : no_writes w w2).
  { split; [done|]. split; [done|]. split; [|done].
    exists reads. split; [done|]. eapply Forall_impl; [exact Hreads|].
    intros st. by destruct st. }
  set (run := seed_step args ids faltam (df_textos_of df1) (df_titulos_of df1) w2).
  assert (Hover : max_seed args < Z.of_nat M →
            run.1 = Ok AbortMaxSeed ∧ no_writes w run.2 ∧ trace run.2 = trace w2).
  { intros Hcap. unfold run, seed_step.
    replace (Z.of_nat (length faltam) >? max_seed args) with true
      by (symmetry; apply Z.gtb_lt; lia).
    rewrite bind_log. simpl. split; [done|]. split; [|done].
    eapply no_writes_trans; [exact Hnw2|].
    split; [done|]. split; [done|]. split.
    - exists []. by rewrite app_nil_r.
    - by eexists. }
  assert (Hwithin : Z.of_nat M ≤ max_seed args →
    (∃ sts fn chunk, trace run.2 = trace w ++ sts ∧ SelectIdConteudo fn chunk ∈ sts) ∧
    if dry_run args then
      run.1 = Ok DryRunEnd ∧ no_writes w run.2 ∧
      (m ≠ ∅ → ∃ l1 l2, log run.2 = log w ++ l1 ++ Log_DrySeedSugerido (size m) :: l2)
    else
      match seed_rows_db (Py.sorted_items m) (db w) with
      | Raise e => run.1 = Raise e ∧ db run.2 = db w
      | Ok d1 =>
          let df_tt := lines_with_row_tt d1 (df_textos_of df1) in
          let df_tl := lines_with_row_tl d1 (df_titulos_of df1) in
          run.1 = Ok (Concluido (total_rowcount_tt df_tt d1)
                                (total_rowcount_tl df_tl d1)) ∧
          db run.2 = foldl apply_frame_tl (foldl apply_frame_tt d1 df_tt) df_tl
      end).
  { intros Hcap. rewrite <- Hlen in Hcap.
    destruct (seed_step_enters args ids faltam (df_textos_of df1)
                (df_titulos_of df1) w2 Hcap Hne)
      as (rest & wc & Hdbc & Htxc & Hlogc & (sts & fn & chunk & Htrc & Hin & Hro) & Hrun).
    unfold run. rewrite Hrun, Hdb2. fold m. clear Hrun.
    assert (Hnwc : no_writes w wc).
    { eapply no_writes_trans; [exact Hnw2|].
      split; [done|]. split; [done|]. split; [eauto|done]. }
    assert (Hsent : ∀ w', (∃ more, trace w' = trace wc ++ more) →
              ∃ sts fn chunk, trace w' = trace w ++ sts ∧ SelectIdConteudo fn chunk ∈ sts).
    { intros w' [more Hmore]. exists (reads ++ sts ++ more), fn, chunk.
      split; [by rewrite Hmore, Htrc, Htr2, <- !app_assoc|].
      apply elem_of_app. right. apply elem_of_app. by left. }
    destruct (dry_run args) eqn:Hdry.
    - destruct (seed_missing_dry_run_run m wc) as (wd & Hs & Hnwd & Hprev).
      rewrite (bind_ok _ _ _ _ _ Hs).
      destruct (after_seed_run args ids rest (0, 0) (df_textos_of df1)
                  (df_titulos_of df1) wd) as (out & w' & -> & [l3 Hl3] & Hout).
      rewrite Hdry in Hout. destruct Hout as [-> Hnw']. simpl.
      assert (Hnwd' : no_writes wc w') by (by eapply no_writes_trans).
      split; [by apply Hsent, no_writes_trace|].
      split; [done|]. split; [by eapply no_writes_trans|].
      intros Hm. destruct (Hprev Hm) as [l2 Hl2].
      destruct Hnwc as (_ & _ & _ & [l1 Hl1]).
      exists l1, (l2 ++ Log_SeedInseridos (0, 0).1 (0, 0).2 :: l3).
      rewrite Hl3, Hl2, Hl1, <- !app_assoc. reflexivity.
    - destruct (seed_missing_live_result m wc) as (wd & Hs & Hdbd & _ & Htrd).
      rewrite Hdbc, Hdb2 in Hs, Hdbd.
      destruct (seed_rows_db (Py.sorted_items m) (db w)) as [d1|e] eqn:Hseed.
      + rewrite (bind_ok _ _ _ _ _ Hs).
        destruct (after_seed_live_run args ids rest (0, 0) (df_textos_of df1)
                    (df_titulos_of df1) wd Hdry) as (w3 & Hnw3 & ->).
        rewrite Hdbd. unfold ids.
        assert (Hdb3 : db w3 = d1) by (destruct Hnw3 as (-> & _); done).
        destruct (filter_and_update_exact df1 d1 w3 Hdb3)
          as (w' & -> & Hdb' & _ & Htr'). simpl.
        split; [|done]. apply Hsent.
        destruct Htrd as [s3 Hs3]. destruct (no_writes_trace _ _ Hnw3) as [s4 Hs4].
        eexists. rewrite Htr', Hs4, Hs3, <- !app_assoc. reflexivity.
      + rewrite (bind_raise _ _ _ _ _ Hs). simpl.
        split; [by apply Hsent|done]. }
  split; [|split; [|done]].
  - split.
    + intros (sts & Hsts & Hall).
      destruct (Z_lt_le_dec (max_seed args) (Z.of_nat M)) as [|Hcap]; [done|].
      exfalso. destruct (Hwithin Hcap) as [(sts' & fn & chunk & Hsts' & Hin) _].
      rewrite Hsts in Hsts'. apply app_inv_head in Hsts'. subst sts'.
      rewrite Forall_forall in Hall. by specialize (Hall _ Hin).
    + intros Hcap. destruct (Hover Hcap) as (_ & _ & Htr).
      exists reads. split; [by rewrite Htr|done].
  - intros Hcap. destruct (Hover Hcap) as (? & ? & _). done.
Qed.

End Script.

(** ** The watcher *)

Lemma cur_info_of_md5 sanitize f :
  Watcher.get (Watcher.cur_info_of sanitize f) "md5Checksum" = Watcher.md5Checksum f.
Proof.
  unfold Watcher.get, Watcher.cur_info_of.
  rewrite !lookup_insert_ne by done. by rewrite lookup_insert_eq.
Qed.

Lemma cur_info_of_modifiedTime sanitize f :
  Watcher.get (Watcher.cur_info_of sanitize f) "modifiedTime" = Watcher.modifiedTime f.
Proof.
  unfold Watcher.get, Watcher.cur_info_of.
  rewrite !lookup_insert_ne by done. by rewrite lookup_insert_eq.
Qed.

(** The record the watcher writes for a file is never the empty object. *)
Lemma cur_info_of_not_empty sanitize f : Watcher.cur_info_of sanitize f ≠ ∅.
Proof. unfold Watcher.cur_info_of. apply insert_non_empty. Qed.

(** Every record of the table stays a non-empty object over a tick. *)
Lemma tick_keeps_records_not_empty sanitize download_ok automacao_ok
    (processed : gmap string Watcher.Info) newest :
  (∀ fid info, processed !! fid = Some info → info ≠ ∅) →
  ∀ fid info,
    (Watcher.tick sanitize download_ok automacao_ok processed newest).1 !! fid
      = Some info →
    info ≠ ∅.
Proof.
  intros Hall fid info. unfold Watcher.tick.
  destruct newest as [f|]; [|apply Hall].
  repeat case_match; simpl; try apply Hall.
  destruct (decide (Watcher.id f = fid)) as [->|Hne].
  - rewrite lookup_insert_eq. intros [= <-]. apply cur_info_of_not_empty.
  - rewrite lookup_insert_ne by done. apply Hall.
Qed.

Lemma should_process_same_fingerprint (prev cur : Watcher.Info) :
  prev ≠ ∅ →
  Watcher.same_fingerprint prev cur →
  Watcher.should_process (Some prev) cur = false.
Proof.
  intros Hne Hfp. unfold Watcher.should_process, Watcher.same_fingerprint in *.
  rewrite bool_decide_eq_false_2 by done.
  destruct (Watcher.truthy (Watcher.get cur "md5Checksum")) eqn:Hcur; simpl.
  - rewrite Hfp, Hcur. simpl. by rewrite bool_decide_eq_false_2 by (by intros []).
  - by rewrite Hfp, bool_decide_eq_false_2 by (by intros []).
Qed.

(** C9. When the newest file of the folder is already in the table of
    processed files (under a record the watcher wrote, hence a non-empty
    one) and its fingerprint is the recorded one (the md5 checksum, or the
    modification time when Drive reports no checksum), [should_process] says no
    and the tick does nothing: no download, no run of the automation script,
    no change to the table. *)
Theorem watcher_skips_processed_file
    (sanitize : string → string) (download_ok automacao_ok : string → bool)
    (processed : gmap string Watcher.Info) (f : Watcher.DriveFile)
    (prev : Watcher.Info) :
  processed !! Watcher.id f = Some prev →
  prev ≠ ∅ →
  Watcher.same_fingerprint prev (Watcher.cur_info_of sanitize f) →
  Watcher.should_process (processed !! Watcher.id f)
    (Watcher.cur_info_of sanitize f) = false ∧
  Watcher.tick sanitize download_ok automacao_ok processed (Some f) = (processed, []).
Proof.
  intros Hprev Hne Hfp.
  assert (Hno : Watcher.should_process (processed !! Watcher.id f)
                  (Watcher.cur_info_of sanitize f) = false).
  { rewrite Hprev. by apply should_process_same_fingerprint. }
  split; [done|]. unfold Watcher.tick. by rewrite Hno.
Qed.

(** ** The scenarios, evaluated *)

(** C1. [--auto-seed --dry-run] on a sheet whose only idTipo exists: the run
    does not stop before the updates.  It issues the [UPDATE] of the line,
    commits, and leaves [PUB_TIPOS_TEXTOS] changed.  [--dry-run] without
    [--auto-seed] does the same. *)
Theorem main_dry_run_applies_updates :
  let w := world_of store_42 in
  let run := main accept_all_tt accept_all_tl args_dry_run sheet_42 w in
  run.1 = Ok (Concluido 1 0) ∧
  trace run.2 = [SelectExisting [42]; UpdateTT (Some "A") (Some "B") 42; ConnCommit] ∧
  db run.2 ≠ db w ∧
  main accept_all_tt accept_all_tl args_dry_run_no_seed sheet_42 w = run.
Proof.
  vm_compute. split; [done|]. split; [done|]. split; [|done]. intros [=].
Qed.

(** C6. A line whose title cell is empty, in a sheet that has the title
    column: [build_frames] hands [update_titulos] the text [nan], the
    [UPDATE] binds that text and not NULL, and the row of
    [PUB_TIPOS_TEXTOS_TITULOS] ends with the title [nan].  (The column the
    sheet does not have, the meta description, is bound as NULL.) *)
Theorem update_titulos_binds_nan_for_empty_title :
  let w := world_of store_42 in
  let run := main accept_all_tt accept_all_tl args_live sheet_42_empty_title w in
  df_titulos_of sheet_42_empty_title =
    [{| idTipo_tl := 42; TextoTitle := CStr "nan"; TextoMetaDescription := CNull |}] ∧
  run.1 = Ok (Concluido 1 1) ∧
  trace run.2 = [SelectExisting [42];
                 UpdateTT (Some "A") (Some "B") 42; ConnCommit;
                 UpdateTL (Some "nan") None 42; ConnCommit] ∧
  PUB_TIPOS_TEXTOS_TITULOS (db run.2) =
    [{| tl_idTipo := 42; tl_TextoTitle := Some "nan"; tl_TextoMetaDescription := None;
        tl_Ativo := 1; tl_IdConteudo := Some 5 |}].
Proof. vm_compute. done. Qed.

(** The example of the specification: content ids 3, 7 and 1 (and a null one)
    for idTipo 99. *)
Example resolve_idconteudo_3_7_1 :
  match (resolve_idconteudo [99] "min" (world_of store_42)).1,
        (resolve_idconteudo [99] "max" (world_of store_42)).1 with
  | Ok by_min, Ok by_max => by_min !! 99 = Some 1 ∧ by_max !! 99 = Some 7
  | _, _ => False
  end.
Proof. vm_compute. done. Qed.

(** A live seed that inserts four rows still returns [(0, 0)]. *)
Example seed_missing_live_inserts_and_returns_zero :
  let run := seed_missing accept_all_tt accept_all_tl mapping_1_2 false
               (world_of empty_store) in
  run.1 = Ok (0, 0) ∧
  length (PUB_TIPOS_TEXTOS (db run.2)) = 2%nat ∧
  length (PUB_TIPOS_TEXTOS_TITULOS (db run.2)) = 2%nat.
Proof. vm_compute. done. Qed.

(** ** The theorems at concrete inputs *)


(** C3, the claim as first stated, at two runs with one identifier missing
    and the cap at 50: a dry run, and a live run whose missing identifier has
    no content id and no default.  Both write nothing, though the number of
    missing identifiers is within the cap. *)
Lemma max_seed_guard_counterexample :
  let w := world_of store_42 in
  let zero_writes (w' : World) :=
    db w' = db w ∧ Forall (λ st, is_write st = false) (trace w') in
  let dry := main accept_all_tt accept_all_tl args_dry_run sheet_42_99 w in
  let live := main accept_all_tt accept_all_tl args_live_no_default sheet_77 w in
  (auto_seed args_dry_run = true ∧
   length (missing_idtipos (ids_plan_of sheet_42_99) (db w)) = 1%nat ∧
   max_seed args_dry_run = 50 ∧
   ¬ (zero_writes dry.2 ↔
      max_seed args_dry_run
        < Z.of_nat (length (missing_idtipos (ids_plan_of sheet_42_99) (db w))))) ∧
  (auto_seed args_live_no_default = true ∧
   length (missing_idtipos (ids_plan_of sheet_77) (db w)) = 1%nat ∧
   max_seed args_live_no_default = 50 ∧
   live.1 = Ok (Concluido 0 0) ∧
   ¬ (zero_writes live.2 ↔
      max_seed args_live_no_default
        < Z.of_nat (length (missing_idtipos (ids_plan_of sheet_77) (db w))))).
Proof.
  cbv zeta. split.
  - split; [reflexivity|]. split; [reflexivity|]. split; [reflexivity|].
    intros [Hzero _].
    assert (H : 50 < 1); [|lia].
    apply Hzero. split; [vm_compute; reflexivity|].
    vm_compute. repeat constructor.
  - split; [reflexivity|]. split; [reflexivity|]. split; [reflexivity|].
    split; [vm_compute; reflexivity|].
    intros [Hzero _].
    assert (H : 50 < 1); [|lia].
    apply Hzero. split; [vm_compute; reflexivity|].
    vm_compute. repeat constructor.
Qed.

Lemma max_seed_guard_witness :
  let w := world_of store_42 in
  (* above the cap: the abort *)
  (auto_seed args_cap_0 = true ∧
   ensure_id_tipo sheet_42_99 w = (Ok sheet_42_99, w) ∧ ids_int64 sheet_42_99 ∧
   (0 < length (missing_idtipos (ids_plan_of sheet_42_99) (db w)))%nat ∧
   (main accept_all_tt accept_all_tl args_cap_0 sheet_42_99 w).1 = Ok AbortMaxSeed ∧
   no_writes w (main accept_all_tt accept_all_tl args_cap_0 sheet_42_99 w).2) ∧
  (* within the cap, live: the seed of idTipo 99 and the two updates *)
  (auto_seed args_live = true ∧
   (main accept_all_tt accept_all_tl args_live sheet_42_99 w).1 = Ok (Concluido 2 0) ∧
   PUB_TIPOS_TEXTOS (db (main accept_all_tt accept_all_tl args_live sheet_42_99 w).2)
     = [{| tt_idTipo := 42; tt_TextoPrimario := Some "A"; tt_TextoSecundario := Some "B";
           tt_Ativo := 1; tt_IdConteudo := Some 5; tt_Header := None |};
        {| tt_idTipo := 99; tt_TextoPrimario := Some "C"; tt_TextoSecundario := None;
           tt_Ativo := 1; tt_IdConteudo := Some 1; tt_Header := None |}]).
Proof.
  cbv zeta.
  assert (I1 : ids_int64 sheet_42_99)
    by (unfold ids_int64; change (ids_plan_of sheet_42_99) with [42; 99];
        repeat constructor; by vm_compute).
  split.
  - destruct (max_seed_guard accept_all_tt accept_all_tl args_cap_0
                sheet_42_99 sheet_42_99 (world_of store_42) (world_of store_42)
                eq_refl eq_refl I1) as (_ & Hover & _); [vm_compute; lia|].
    destruct Hover as [Hout Hnw]; [vm_compute; reflexivity|].
    split; [reflexivity|]. split; [reflexivity|]. split; [exact I1|].
    split; [vm_compute; lia|]. split; [exact Hout | exact Hnw].
  - destruct (max_seed_guard accept_all_tt accept_all_tl args_live
                sheet_42_99 sheet_42_99 (world_of store_42) (world_of store_42)
                eq_refl eq_refl I1) as (_ & _ & Hwithin); [vm_compute; lia|].
    destruct Hwithin as [_ Hlive]; [by vm_compute|].
    split; [reflexivity|]. vm_compute in Hlive. destruct Hlive as [Hout Hdb].
    split; vm_compute; [exact Hout | exact (f_equal PUB_TIPOS_TEXTOS Hdb)].
Defined.

Lemma seed_missing_idempotent_witness :
  let run1 := seed_missing accept_all_tt accept_all_tl mapping_1_2 false
                (world_of empty_store) in
  let run2 := seed_missing accept_all_tt accept_all_tl mapping_1_2 false run1.2 in
  run1.1 = Ok (0, 0) ∧ db run2.2 = db run1.2 ∧ run2.1 = Ok (0, 0).
Proof.
  cbv zeta.
  destruct (seed_missing_idempotent accept_all_tt accept_all_tl mapping_1_2
              (world_of empty_store)) as (Hdb & Hok & _).
  split; [vm_compute; reflexivity|]. split; [exact Hdb|].
  apply Hok. vm_compute. reflexivity.
Defined.

Lemma seed_missing_atomic_witness :
  ∃ w2,
    seed_rows refuse_13_tt accept_all_tl (Py.sorted_items mapping_1_2)
      (execute_begin_tran (world_of empty_store)).2
    = (Raise (StoreError (SeedTT 2 13)), w2) ∧
    PUB_TIPOS_TEXTOS (db w2) = [seed_row_tt 1 5] ∧
    ∃ w', seed_missing refuse_13_tt accept_all_tl mapping_1_2 false (world_of empty_store)
            = (Raise (StoreError (SeedTT 2 13)), w') ∧
          db w' = empty_store.
Proof.
  assert (Hfail : ∃ w2,
    seed_rows refuse_13_tt accept_all_tl (Py.sorted_items mapping_1_2)
      (execute_begin_tran (world_of empty_store)).2
    = (Raise (StoreError (SeedTT 2 13)), w2) ∧
    PUB_TIPOS_TEXTOS (db w2) = [seed_row_tt 1 5]).
  { eexists. split; [vm_compute; reflexivity | reflexivity]. }
  destruct Hfail as (w2 & Hfail & Hpartial).
  exists w2. split; [exact Hfail|]. split; [exact Hpartial|].
  destruct (seed_missing_atomic refuse_13_tt accept_all_tl mapping_1_2
              (world_of empty_store) w2 (StoreError (SeedTT 2 13)) Hfail)
    as (w' & Hrun & Hdb & _).
  exists w'. split; [exact Hrun | exact Hdb].
Defined.

Lemma resolve_idconteudo_picks_extremum_witness :
  99 ∈ [99] ∧
  (99, Some 3) ∈ TEMATICOS_CONTEUDO_ITEM store_42 ∧
  ∃ mapping w' c,
    resolve_idconteudo [99] "min" (world_of store_42) = (Ok mapping, w') ∧
    mapping !! 99 = Some c ∧
    (∀ x, (99, Some x) ∈ TEMATICOS_CONTEUDO_ITEM store_42 → c ≤ x).
Proof.
  assert (H1 : 99 ∈ [99]) by apply list_elem_of_here.
  assert (H2 : (99, Some 3) ∈ TEMATICOS_CONTEUDO_ITEM store_42)
    by apply list_elem_of_here.
  split; [exact H1|]. split; [exact H2|].
  destruct (resolve_idconteudo_picks_extremum [99] "min" (world_of store_42) 99 3 H1 H2)
    as (mapping & w' & c & Hrun & Hl & _ & Hmin & _).
  exists mapping, w', c. split; [exact Hrun|]. split; [exact Hl|].
  apply Hmin. reflexivity.
Defined.


Lemma watcher_skips_processed_file_witness :
  let cur := Watcher.cur_info_of (λ s, s) drive_file in
  let processed : gmap string Watcher.Info := {[ "f1" := cur ]} in
  processed !! Watcher.id drive_file = Some cur ∧
  cur ≠ ∅ ∧
  Watcher.same_fingerprint cur cur ∧
  Watcher.tick (λ s, s) (λ _, true) (λ _, true) processed (Some drive_file)
    = (processed, []).
Proof.
  cbv zeta.
  assert (H1 : ({[ "f1" := Watcher.cur_info_of (λ s, s) drive_file ]}
                  : gmap string Watcher.Info) !! Watcher.id drive_file
               = Some (Watcher.cur_info_of (λ s, s) drive_file))
    by apply lookup_singleton_eq.
  assert (H2 : Watcher.cur_info_of (λ s, s) drive_file ≠ ∅)
    by apply cur_info_of_not_empty.
  assert (H3 : Watcher.same_fingerprint (Watcher.cur_info_of (λ s, s) drive_file)
                 (Watcher.cur_info_of (λ s, s) drive_file)).
  { unfold Watcher.same_fingerprint. by destruct (Watcher.truthy _). }
  split; [exact H1|]. split; [exact H2|]. split; [exact H3|].
  apply (watcher_skips_processed_file (λ s, s) (λ _, true) (λ _, true) _
           drive_file _ H1 H2 H3).
Defined.

(** ** Further properties of the watcher *)

Lemma should_process_own_record sanitize f :
  Watcher.should_process (Some (Watcher.cur_info_of sanitize f))
    (Watcher.cur_info_of sanitize f) = false.
Proof.
  apply should_process_same_fingerprint; [apply cur_info_of_not_empty|].
  unfold Watcher.same_fingerprint. by destruct (Watcher.truthy _).
Qed.

(** A tick leaves the record of every file but the polled one as it is. *)
Lemma tick_other_file sanitize download_ok automacao_ok
    (processed : gmap string Watcher.Info) newest fid :
  match newest with Some g => Watcher.id g ≠ fid | None => True end →
  (Watcher.tick sanitize download_ok automacao_ok processed newest).1 !! fid
    = processed !! fid.
Proof.
  unfold Watcher.tick. destruct newest as [g|]; [|done]. intros Hne.
  repeat case_match; simpl; try done. by rewrite lookup_insert_ne.
Qed.

(** X16. The table of processed files changes for a file only when that
    file was the one polled, it needed processing, and both the download and
    the run of the automation script succeeded; the file is then recorded
    under its current info and the table is saved.  A failed download or a
    failed run records nothing, so the file is tried again at the next
    poll. *)
Theorem tick_records_only_after_success
    (sanitize : string → string) (download_ok automacao_ok : string → bool)
    (processed : gmap string Watcher.Info) (newest : option Watcher.DriveFile)
    (fid : string) :
  let run := Watcher.tick sanitize download_ok automacao_ok processed newest in
  run.1 !! fid ≠ processed !! fid →
  ∃ f, newest = Some f ∧ Watcher.id f = fid ∧
       Watcher.should_process (processed !! fid) (Watcher.cur_info_of sanitize f) = true ∧
       download_ok fid = true ∧ automacao_ok (sanitize (Watcher.name f)) = true ∧
       run.1 = <[fid := Watcher.cur_info_of sanitize f]> processed ∧
       run.2 = [Watcher.Download fid (sanitize (Watcher.name f));
                Watcher.RunAutomacao (sanitize (Watcher.name f));
                Watcher.SaveProcessed run.1].
Proof.
  cbv zeta. unfold Watcher.tick. destruct newest as [f|]; [|done].
  destruct (Watcher.should_process _ _) eqn:Hsp; [|done].
  destruct (download_ok _) eqn:Hd; [|done].
  destruct (automacao_ok _) eqn:Ha; [|done]. simpl.
  destruct (decide (Watcher.id f = fid)) as [<-|Hne];
    [|by rewrite lookup_insert_ne].
  intros _. by exists f.
Qed.

Lemma ticks_other_files sanitize download_ok automacao_ok
    (processed : gmap string Watcher.Info) polls fid :
  Forall (λ p, match p with Some g => Watcher.id g ≠ fid | None => True end) polls →
  (Watcher.ticks sanitize download_ok automacao_ok processed polls).1 !! fid
    = processed !! fid.
Proof.
  intros Hall. revert processed.
  induction Hall as [|p polls Hp _ IH]; intros processed; [done|].
  simpl. rewrite IH. by apply tick_other_file.
Qed.

(** X17. Once the watcher is past a file whose download and run succeed,
    that file is not processed a second time: after the tick that handled
    it, and after any number of polls that returned other files or nothing,
    a poll that returns the same file again does nothing and leaves the
    table as it is. *)
Theorem processed_file_is_not_processed_twice
    (sanitize : string → string) (download_ok automacao_ok : string → bool)
    (processed : gmap string Watcher.Info) (f : Watcher.DriveFile)
    (polls : list (option Watcher.DriveFile)) :
  download_ok (Watcher.id f) = true →
  automacao_ok (sanitize (Watcher.name f)) = true →
  Forall (λ p, match p with
               | Some g => Watcher.id g ≠ Watcher.id f
               | None => True
               end) polls →
  let after := (Watcher.ticks sanitize download_ok automacao_ok processed
                  (Some f :: polls)).1 in
  Watcher.tick sanitize download_ok automacao_ok after (Some f) = (after, []).
Proof.
  intros Hd Ha Hpolls. cbv zeta. cbn [Watcher.ticks fst].
  set (p1 := (Watcher.tick sanitize download_ok automacao_ok processed (Some f)).1).
  assert (H1 : Watcher.should_process (p1 !! Watcher.id f)
                 (Watcher.cur_info_of sanitize f) = false).
  { unfold p1, Watcher.tick.
    destruct (Watcher.should_process (processed !! Watcher.id f) _) eqn:Hsp; [|done].
    rewrite Hd, Ha. simpl. rewrite lookup_insert_eq. apply should_process_own_record. }
  unfold Watcher.tick at 1.
  by rewrite (ticks_other_files _ _ _ _ _ _ Hpolls), H1.
Qed.

(** X18. A file that is in the table with a checksum and now has another
    checksum is processed again: it is downloaded and run, and when both
    succeed its record is replaced by the current info and the table is
    saved. *)
Theorem watcher_reprocesses_changed_file
    (sanitize : string → string) (download_ok automacao_ok : string → bool)
    (processed : gmap string Watcher.Info) (f : Watcher.DriveFile)
    (prev : Watcher.Info) (old new : string) :
  processed !! Watcher.id f = Some prev →
  Watcher.get prev "md5Checksum" = Some old →
  Watcher.md5Checksum f = Some new →
  old ≠ "" → new ≠ "" → old ≠ new →
  download_ok (Watcher.id f) = true →
  automacao_ok (sanitize (Watcher.name f)) = true →
  let processed' := <[Watcher.id f := Watcher.cur_info_of sanitize f]> processed in
  Watcher.tick sanitize download_ok automacao_ok processed (Some f) =
    (processed', [Watcher.Download (Watcher.id f) (sanitize (Watcher.name f));
                  Watcher.RunAutomacao (sanitize (Watcher.name f));
                  Watcher.SaveProcessed processed']).
Proof.
  intros Hprev Hold Hnew Ho Hn Hne Hd Ha. cbv zeta.
  assert (Hsp : Watcher.should_process (processed !! Watcher.id f)
                  (Watcher.cur_info_of sanitize f) = true).
  { rewrite Hprev. unfold Watcher.should_process.
    destruct (bool_decide (prev = ∅)); [done|].
    rewrite cur_info_of_md5, Hnew, Hold. simpl.
    assert (String.eqb new "" = false) as -> by (by apply String.eqb_neq).
    assert (String.eqb old "" = false) as -> by (by apply String.eqb_neq).
    simpl. rewrite bool_decide_eq_true_2; [done|]. congruence. }
  unfold Watcher.tick. by rewrite Hsp, Hd, Ha.
Qed.

(** ** [sanitize_filename] *)

Lemma lstrip_starts_clean l : Sanitize.starts_clean (Sanitize.lstrip l) = true.
Proof.
  induction l as [|c l IH]; [done|]. simpl.
  destruct (Sanitize.isspace c) eqn:E; [done|]. simpl. by rewrite E.
Qed.

Lemma lstrip_clean l : Sanitize.starts_clean l = true → Sanitize.lstrip l = l.
Proof. destruct l as [|c l]; [done|]. simpl. by destruct (Sanitize.isspace c). Qed.

Lemma lstrip_suffix l : ∃ k, l = k ++ Sanitize.lstrip l.
Proof.
  induction l as [|c l [k IH]]; [by exists []|]. simpl.
  destruct (Sanitize.isspace c); [|by exists []]. exists (c :: k). simpl. by f_equal.
Qed.

Lemma starts_clean_prefix l k : Sanitize.starts_clean (l ++ k) = true → Sanitize.starts_clean l = true.
Proof. by destruct l. Qed.

Lemma strip_clean_ends l :
  Sanitize.starts_clean (Sanitize.strip l) = true ∧ Sanitize.starts_clean (reverse (Sanitize.strip l)) = true.
Proof.
  unfold Sanitize.strip. split.
  - destruct (lstrip_suffix (reverse (Sanitize.lstrip l))) as [k Hk].
    apply (starts_clean_prefix _ (reverse k)). rewrite <- reverse_app, <- Hk.
    rewrite reverse_involutive. apply lstrip_starts_clean.
  - rewrite reverse_involutive. apply lstrip_starts_clean.
Qed.

Lemma strip_clean l :
  Sanitize.starts_clean l = true → Sanitize.starts_clean (reverse l) = true → Sanitize.strip l = l.
Proof.
  intros H1 H2. unfold Sanitize.strip. rewrite (lstrip_clean l H1), (lstrip_clean _ H2).
  apply reverse_involutive.
Qed.

Lemma forallb_Forall_forbidden l :
  forallb (λ c, negb (Sanitize.is_forbidden c)) l = true ↔ Forall (λ c, Sanitize.is_forbidden c = false) l.
Proof.
  induction l as [|c l IH]; simpl; [by split|].
  rewrite andb_true_iff, Forall_cons, IH, negb_true_iff. done.
Qed.

Lemma sub_forbidden_ok l : Forall (λ c, Sanitize.is_forbidden c = false) (Sanitize.sub_forbidden l).
Proof.
  unfold Sanitize.sub_forbidden. apply Forall_fmap, Forall_forall. intros c _. simpl.
  by destruct (Sanitize.is_forbidden c) eqn:E.
Qed.

Lemma sub_forbidden_id l : Forall (λ c, Sanitize.is_forbidden c = false) l → Sanitize.sub_forbidden l = l.
Proof.
  unfold Sanitize.sub_forbidden. induction 1 as [|c l Hc _ IH]; [done|].
  by rewrite fmap_cons, Hc, IH.
Qed.

Lemma replace_by_space_id a l :
  Sanitize.is_forbidden a = true → Forall (λ c, Sanitize.is_forbidden c = false) l →
  Sanitize.replace_by_space a l = l.
Proof.
  intros Ha. unfold Sanitize.replace_by_space. induction 1 as [|c l Hc _ IH]; [done|].
  rewrite fmap_cons, IH. destruct (Ascii.eqb c a) eqn:E; [|done].
  apply Ascii.eqb_eq in E. congruence.
Qed.

Lemma sub_forbidden_isspace c :
  Sanitize.isspace (if Sanitize.is_forbidden c then "_"%char else c) = true → Sanitize.isspace c = true.
Proof. by destruct (Sanitize.is_forbidden c). Qed.

Lemma sub_forbidden_starts_clean l :
  Sanitize.starts_clean l = true → Sanitize.starts_clean (Sanitize.sub_forbidden l) = true.
Proof.
  destruct l as [|c l]; [done|]. simpl. rewrite !negb_true_iff. intros Hc.
  destruct (Sanitize.isspace (if Sanitize.is_forbidden c then "_"%char else c)) eqn:E; [|done].
  apply sub_forbidden_isspace in E. congruence.
Qed.

Lemma sub_forbidden_reverse l : reverse (Sanitize.sub_forbidden l) = Sanitize.sub_forbidden (reverse l).
Proof. unfold Sanitize.sub_forbidden. by rewrite fmap_reverse. Qed.

Lemma collapse_single_spaced b l : Sanitize.single_spaced b (Sanitize.collapse_spaces b l) = true.
Proof.
  revert b. induction l as [|c l IH]; intros b; [done|]. simpl.
  destruct (Sanitize.isspace c) eqn:E.
  - destruct b; [apply IH|]. simpl. apply IH.
  - simpl. rewrite E. apply IH.
Qed.

Lemma collapse_id b l : Sanitize.single_spaced b l = true → Sanitize.collapse_spaces b l = l.
Proof.
  revert b. induction l as [|c l IH]; intros b; [done|]. simpl.
  destruct (Sanitize.isspace c) eqn:E.
  - rewrite !andb_true_iff, negb_true_iff. intros [[Hc ->] Hl].
    apply Ascii.eqb_eq in Hc. subst c. by rewrite (IH true Hl).
  - intros Hl. by rewrite (IH false Hl).
Qed.

Lemma collapse_Forall (P : ascii → Prop) b l :
  P " "%char → Forall P l → Forall P (Sanitize.collapse_spaces b l).
Proof.
  intros Hsp Hl. revert b. induction Hl as [|c l Hc _ IH]; intros b; [constructor|].
  simpl. destruct (Sanitize.isspace c); [destruct b|]; try constructor; auto.
Qed.

Lemma collapse_starts_clean l :
  Sanitize.starts_clean l = true → Sanitize.starts_clean (Sanitize.collapse_spaces false l) = true.
Proof.
  destruct l as [|c l]; [done|]. simpl. rewrite negb_true_iff. intros Hc.
  rewrite Hc. simpl. by rewrite Hc.
Qed.

Lemma collapse_snoc b l c :
  Sanitize.isspace c = false → Sanitize.collapse_spaces b (l ++ [c]) = Sanitize.collapse_spaces b l ++ [c].
Proof.
  intros Hc. revert b. induction l as [|x l IH]; intros b; simpl.
  - by rewrite Hc.
  - destruct (Sanitize.isspace x); [destruct b|]; simpl; by rewrite IH.
Qed.

Lemma starts_clean_reverse_inv l :
  Sanitize.starts_clean (reverse l) = true →
  l = [] ∨ ∃ l0 c, l = l0 ++ [c] ∧ Sanitize.isspace c = false.
Proof.
  destruct l as [|x l] using rev_ind; [by left|]. clear IHl.
  rewrite reverse_snoc. simpl. rewrite negb_true_iff. right. eauto.
Qed.

Lemma collapse_ends_clean b l :
  Sanitize.starts_clean (reverse l) = true →
  Sanitize.starts_clean (reverse (Sanitize.collapse_spaces b l)) = true.
Proof.
  intros [->|(l0 & c & -> & Hc)]%starts_clean_reverse_inv; [done|].
  rewrite collapse_snoc by done. rewrite reverse_snoc. simpl. by rewrite Hc.
Qed.

Lemma collapse_nil_inv l :
  Sanitize.starts_clean l = true → Sanitize.collapse_spaces false l = [] → l = [].
Proof.
  destruct l as [|c l]; [done|]. simpl. rewrite negb_true_iff. by intros ->.
Qed.

Lemma single_spaced_app b l k :
  Sanitize.single_spaced b l = true → Sanitize.starts_clean k = true → Sanitize.single_spaced false k = true →
  Sanitize.single_spaced b (l ++ k) = true.
Proof.
  revert b. induction l as [|c l IH]; intros b Hl Hk1 Hk2.
  - destruct k as [|c k]; [done|]. simpl in *. apply negb_true_iff in Hk1.
    rewrite Hk1 in *. done.
  - simpl in *. destruct (Sanitize.isspace c).
    + apply andb_true_iff in Hl as [Hl1 Hl2]. rewrite Hl1. simpl. by apply IH.
    + by apply IH.
Qed.

Lemma endswith_xlsx_app l : Sanitize.endswith_xlsx (l ++ list_ascii_of_string ".xlsx") = true.
Proof.
  unfold Sanitize.endswith_xlsx. apply bool_decide_eq_true. rewrite fmap_app.
  by exists (Sanitize.lower_char <$> l).
Qed.

Lemma endswith_xlsx_not_nil l : Sanitize.endswith_xlsx l = true → l ≠ [].
Proof.
  unfold Sanitize.endswith_xlsx. intros [k Hk]%bool_decide_eq_true ->.
  simpl in Hk. by destruct k.
Qed.

(** The cleaned name is Sanitize.tidy and ends with the extension. *)
Lemma sanitize_chars_tidy name :
  Sanitize.tidy (Sanitize.sanitize_chars name) = true ∧ Sanitize.endswith_xlsx (Sanitize.sanitize_chars name) = true.
Proof.
  unfold Sanitize.sanitize_chars.
  set (s0 := Sanitize.strip _).
  destruct (strip_clean_ends
              (Sanitize.replace_by_space "009" (Sanitize.replace_by_space "010"
                 (Sanitize.replace_by_space "013" name)))) as [Hs1 Hs2].
  fold s0 in Hs1, Hs2.
  set (s2 := Sanitize.collapse_spaces false (Sanitize.sub_forbidden s0)).
  assert (T2 : Sanitize.tidy s2 = true).
  { unfold Sanitize.tidy, s2. rewrite !andb_true_iff. split_and!.
    - apply forallb_Forall_forbidden, collapse_Forall; [done | apply sub_forbidden_ok].
    - apply collapse_single_spaced.
    - by apply collapse_starts_clean, sub_forbidden_starts_clean.
    - apply collapse_ends_clean. rewrite sub_forbidden_reverse.
      by apply sub_forbidden_starts_clean. }
  set (s3 := if bool_decide (s2 = []) then list_ascii_of_string "arquivo.xlsx" else s2).
  assert (T3 : Sanitize.tidy s3 = true ∧ s3 ≠ []).
  { unfold s3. destruct (bool_decide (s2 = [])) eqn:E; [done|].
    by apply bool_decide_eq_false in E. }
  destruct T3 as [T3 N3].
  destruct (Sanitize.endswith_xlsx s3) eqn:E; [done|]. split; [|apply endswith_xlsx_app].
  unfold Sanitize.tidy in *. rewrite !andb_true_iff in *.
  destruct T3 as [[[F S] H] L]. split_and!.
  - rewrite forallb_app, F. done.
  - by apply single_spaced_app.
  - by destruct s3.
  - by rewrite reverse_app.
Qed.

(** A Sanitize.tidy name with the extension is left as it is. *)
Lemma sanitize_chars_fixed name :
  Sanitize.tidy name = true → Sanitize.endswith_xlsx name = true → Sanitize.sanitize_chars name = name.
Proof.
  unfold Sanitize.tidy. rewrite !andb_true_iff. intros [[[F S] H] L] E.
  apply forallb_Forall_forbidden in F. unfold Sanitize.sanitize_chars.
  rewrite (replace_by_space_id "013" name) by first [exact F | reflexivity].
  rewrite (replace_by_space_id "010" name) by first [exact F | reflexivity].
  rewrite (replace_by_space_id "009" name) by first [exact F | reflexivity].
  rewrite strip_clean by done. rewrite sub_forbidden_id by done.
  rewrite collapse_id by done.
  rewrite bool_decide_eq_false_2 by (by apply endswith_xlsx_not_nil).
  by rewrite E.
Qed.

Lemma sanitize_filename_chars (name : string) :
  list_ascii_of_string (Sanitize.sanitize_filename name)
  = Sanitize.sanitize_chars (list_ascii_of_string name).
Proof. unfold Sanitize.sanitize_filename. apply list_ascii_of_string_of_list_ascii. Qed.

(** X19. Whatever name Drive gives, the sanitized name can be used as a
    file name: it holds none of the characters Windows forbids and no control
    character, it has no space at either end and no space but single blanks,
    and it ends with the extension [.xlsx] (in any case), so it is never
    empty. *)
Theorem sanitize_filename_safe (name : string) :
  let r := list_ascii_of_string (Sanitize.sanitize_filename name) in
  Forall (λ c, Sanitize.is_forbidden c = false) r ∧
  Sanitize.tidy r = true ∧
  Sanitize.endswith_xlsx r = true ∧
  (5 ≤ length r)%nat.
Proof.
  cbv zeta. rewrite sanitize_filename_chars.
  destruct (sanitize_chars_tidy (list_ascii_of_string name)) as [T E].
  split; [|split; [done|split; [done|]]].
  - unfold Sanitize.tidy in T. rewrite !andb_true_iff in T.
    apply forallb_Forall_forbidden. tauto.
  - unfold Sanitize.endswith_xlsx in E. apply bool_decide_eq_true in E.
    apply suffix_length in E. by rewrite length_fmap in E.
Qed.

(** X20. A name that is already clean (no forbidden or control character,
    no space at either end, no space but single blanks) and has the
    extension is returned as it is, so the watcher does not report it as
    renamed. *)
Theorem sanitize_filename_keeps_clean_name (name : string) :
  Sanitize.tidy (list_ascii_of_string name) = true →
  Sanitize.endswith_xlsx (list_ascii_of_string name) = true →
  Sanitize.sanitize_filename name = name.
Proof.
  intros T E. unfold Sanitize.sanitize_filename.
  rewrite sanitize_chars_fixed by done. apply string_of_list_ascii_of_string.
Qed.

(** X21. Sanitizing is idempotent: a sanitized name is not changed by a
    second pass. *)
Theorem sanitize_filename_idempotent (name : string) :
  Sanitize.sanitize_filename (Sanitize.sanitize_filename name)
  = Sanitize.sanitize_filename name.
Proof.
  unfold Sanitize.sanitize_filename at 1. rewrite sanitize_filename_chars.
  destruct (sanitize_chars_tidy (list_ascii_of_string name)) as [T E].
  by rewrite sanitize_chars_fixed.
Qed.

(** X22. The watcher only ever downloads to, and runs the automation
    script on, a sanitized name: every local name that appears in the
    actions of a tick is clean and ends with [.xlsx]. *)
Theorem tick_uses_sanitized_names
    (download_ok automacao_ok : string → bool)
    (processed : gmap string Watcher.Info) (newest : option Watcher.DriveFile)
    (act : Watcher.Action) :
  act ∈ (Watcher.tick Sanitize.sanitize_filename download_ok automacao_ok
           processed newest).2 →
  match act with
  | Watcher.Download _ n | Watcher.RunAutomacao n =>
      Sanitize.tidy (list_ascii_of_string n) = true ∧
      Sanitize.endswith_xlsx (list_ascii_of_string n) = true
  | Watcher.SaveProcessed _ => True
  end.
Proof.
  unfold Watcher.tick. destruct newest as [f|]; [|by intros ?%elem_of_nil].
  assert (Hsafe : Sanitize.tidy (list_ascii_of_string
                    (Sanitize.sanitize_filename (Watcher.name f))) = true ∧
                  Sanitize.endswith_xlsx (list_ascii_of_string
                    (Sanitize.sanitize_filename (Watcher.name f))) = true).
  { rewrite sanitize_filename_chars. apply sanitize_chars_tidy. }
  destruct (Watcher.should_process _ _); [|by intros ?%elem_of_nil].
  destruct (download_ok _); [destruct (automacao_ok _)|]; simpl; intros Hact;
    repeat (apply elem_of_cons in Hact as [->|Hact]; [done|]);
    by apply elem_of_nil in Hact.
Qed.

(** ** Further properties of [ensure_id_tipo] and [update_titulos] *)

Lemma dict_update_lookup_in {K} `{Countable K} {V}
    (d : gmap K V) (rows : list (K * V)) (k : K) :
  k ∈ rows.*1 → is_Some (Py.dict_update d rows !! k).
Proof.
  revert d. induction rows as [|p rows IH]; intros d Hk; [by apply elem_of_nil in Hk|].
  rewrite dict_update_cons. destruct (decide (k ∈ rows.*1)) as [Hin|Hout]; [by apply IH|].
  rewrite dict_update_lookup_notin by done.
  rewrite fmap_cons in Hk. apply elem_of_cons in Hk as [->|Hk]; [|done].
  rewrite lookup_insert_eq. eauto.
Qed.

(** X23. On a sheet keyed by [(id_cat, id_grupo)], a line whose pair has a
    row in [PROCESSADO_BUSCA_TIPOS] leaves [ensure_id_tipo] with an [id_tipo]
    that the table gives for exactly that pair, and with the only one when
    the table gives one. *)
Theorem ensure_id_tipo_resolves_pair
    (df : DataFrame) (w : World) (i : nat) (r : Row) (c g t : Z) :
  has_id_tipo df = false → has_id_cat df = true → has_id_grupo df = true →
  rows df !! i = Some r →
  id_cat r = CInt c → id_grupo r = CInt g →
  (c, g, t) ∈ PROCESSADO_BUSCA_TIPOS (db w) →
  ∃ df' w' t',
    ensure_id_tipo df w = (Ok df', w') ∧
    rows df' !! i = Some (set_id_tipo (CInt t') r) ∧
    (c, g, t') ∈ PROCESSADO_BUSCA_TIPOS (db w) ∧
    ((∀ t'', (c, g, t'') ∈ PROCESSADO_BUSCA_TIPOS (db w) → t'' = t) → t' = t).
Proof.
  intros H0 H1 H2 Hi Hc Hg Ht.
  assert (Hr : r ∈ rows df) by (apply list_elem_of_lookup; eauto).
  assert (Hcats : c ∈ numeric_keys id_cat df).
  { apply elem_of_numeric_keys. exists r. by rewrite Hc. }
  assert (Hgrupos : g ∈ numeric_keys id_grupo df).
  { apply elem_of_numeric_keys. exists r. by rewrite Hg. }
  destruct (ensure_id_tipo_run df w H0 H1 H2) as (w' & Hrun & _).
  { intros E. rewrite E in Hcats. by apply elem_of_nil in Hcats. }
  { intros E. rewrite E in Hgrupos. by apply elem_of_nil in Hgrupos. }
  assert (Hsome : is_Some (busca_mapa df (db w) !! (c, g))).
  { unfold busca_mapa. apply dict_update_lookup_in.
    apply list_elem_of_fmap. exists ((c, g), t). split; [done|].
    apply list_elem_of_fmap. exists (c, g, t). split; [done|].
    by apply elem_of_select_busca_tipos. }
  destruct Hsome as [t' Ht'].
  pose proof (busca_mapa_Some _ _ _ _ _ Ht') as Hin.
  eexists _, w', t'. split; [exact Hrun|]. split; [|split; [done|]].
  - simpl. rewrite list_lookup_fmap, Hi. simpl. do 2 f_equal.
    unfold map_row. rewrite Hc, Hg. simpl. by rewrite Ht'.
  - intros Huniq. by apply Huniq.
Qed.

Lemma foldl_apply_frame_tl (d : Store) (df : list FrameTL) :
  PUB_TIPOS_TEXTOS_TITULOS (foldl apply_frame_tl d df) =
    (λ r, foldl (λ r f, update_tl_row (sql_text (TextoTitle f))
                          (sql_text (TextoMetaDescription f)) (idTipo_tl f) r) r df)
    <$> PUB_TIPOS_TEXTOS_TITULOS d ∧
  PUB_TIPOS_TEXTOS (foldl apply_frame_tl d df) = PUB_TIPOS_TEXTOS d ∧
  TEMATICOS_CONTEUDO_ITEM (foldl apply_frame_tl d df) = TEMATICOS_CONTEUDO_ITEM d ∧
  PROCESSADO_BUSCA_TIPOS (foldl apply_frame_tl d df) = PROCESSADO_BUSCA_TIPOS d.
Proof.
  revert d. induction df as [|f df IH]; intros d; simpl.
  - by rewrite list_fmap_id.
  - destruct (IH (apply_frame_tl d f)) as (-> & -> & -> & ->).
    unfold apply_frame_tl, update_tl. simpl.
    by rewrite <- list_fmap_compose.
Qed.

Lemma foldl_update_tl_row (r : TLRow) (df : list FrameTL) :
  let r' := foldl (λ r f, update_tl_row (sql_text (TextoTitle f))
                            (sql_text (TextoMetaDescription f)) (idTipo_tl f) r) r df in
  tl_idTipo r' = tl_idTipo r ∧ tl_IdConteudo r' = tl_IdConteudo r ∧
  match last (filter (λ f, idTipo_tl f = tl_idTipo r) df) with
  | Some f =>
      tl_TextoTitle r' = sql_text (TextoTitle f) ∧
      tl_TextoMetaDescription r' = sql_text (TextoMetaDescription f) ∧
      tl_Ativo r' = 1
  | None => r' = r
  end.
Proof.
  induction df as [|f df IH] using rev_ind; [done|].
  cbv zeta in *. rewrite foldl_app, filter_app, filter_cons, filter_nil.
  simpl foldl. set (r1 := foldl _ r df) in *.
  destruct IH as (Hid & Hidc & Hlast). unfold update_tl_row.
  destruct (decide (idTipo_tl f = tl_idTipo r)) as [E|E].
  - assert ((tl_idTipo r1 =? idTipo_tl f) = true) as ->
      by (apply Z.eqb_eq; congruence).
    rewrite last_snoc. by simpl.
  - assert ((tl_idTipo r1 =? idTipo_tl f) = false) as ->
      by (apply Z.eqb_neq; congruence).
    rewrite app_nil_r. exact (conj Hid (conj Hidc Hlast)).
Qed.

(** X24. What [update_titulos] leaves in [PUB_TIPOS_TEXTOS_TITULOS]: the
    table keeps its rows, in place, each with its [idTipo] and [IdConteudo];
    a row whose [idTipo] is on no line of the frame is untouched, and one
    whose [idTipo] is on several lines ends with the title and the meta
    description of the last of them and [Ativo = 1].  The three other tables
    are as before. *)
Theorem update_titulos_last_line_wins (df : list FrameTL) (w : World) :
  ∃ n w',
    update_titulos df w = (Ok n, w') ∧
    length (PUB_TIPOS_TEXTOS_TITULOS (db w')) = length (PUB_TIPOS_TEXTOS_TITULOS (db w)) ∧
    (∀ i r, PUB_TIPOS_TEXTOS_TITULOS (db w) !! i = Some r →
       ∃ r', PUB_TIPOS_TEXTOS_TITULOS (db w') !! i = Some r' ∧
         tl_idTipo r' = tl_idTipo r ∧ tl_IdConteudo r' = tl_IdConteudo r ∧
         match last (filter (λ f, idTipo_tl f = tl_idTipo r) df) with
         | Some f =>
             tl_TextoTitle r' = sql_text (TextoTitle f) ∧
             tl_TextoMetaDescription r' = sql_text (TextoMetaDescription f) ∧
             tl_Ativo r' = 1
         | None => r' = r
         end) ∧
    PUB_TIPOS_TEXTOS (db w') = PUB_TIPOS_TEXTOS (db w) ∧
    TEMATICOS_CONTEUDO_ITEM (db w') = TEMATICOS_CONTEUDO_ITEM (db w) ∧
    PROCESSADO_BUSCA_TIPOS (db w') = PROCESSADO_BUSCA_TIPOS (db w).
Proof.
  destruct (update_titulos_spec df w) as (w' & Hrun & Hdb & _).
  destruct (foldl_apply_frame_tl (db w) df) as (Htl & Htt & Hm & Hb).
  exists (total_rowcount_tl df (db w)), w'. rewrite Hdb, Htl.
  split; [done|]. split; [by rewrite length_fmap|]. split; [|done].
  intros i r Hi. eexists. split; [by rewrite list_lookup_fmap, Hi|].
  apply foldl_update_tl_row.
Qed.

(** ** [normalize_dataframe] *)

Lemma strip_strip (l : list ascii) : Sanitize.strip (Sanitize.strip l) = Sanitize.strip l.
Proof. destruct (strip_clean_ends l). by apply strip_clean. Qed.

Lemma normalize_strip_strip (c : string) : Normalize.strip (Normalize.strip c) = Normalize.strip c.
Proof.
  unfold Normalize.strip. by rewrite list_ascii_of_string_of_list_ascii, strip_strip.
Qed.

Lemma rename_same k columns : Normalize.rename k k columns = columns.
Proof.
  unfold Normalize.rename. induction columns as [|c l IH]; [done|].
  rewrite fmap_cons, IH. destruct (String.eqb c k) eqn:E; [|done].
  apply String.eqb_eq in E. by subst.
Qed.

Lemma rename_absent k v columns : k ∉ columns → Normalize.rename k v columns = columns.
Proof.
  unfold Normalize.rename. induction columns as [|c l IH]; [done|].
  intros Hk. apply not_elem_of_cons in Hk as [Hne Hk].
  rewrite fmap_cons, IH by done. destruct (String.eqb c k) eqn:E; [|done].
  apply String.eqb_eq in E. by subst.
Qed.

Lemma rename_step k v columns :
  (if bool_decide (k ∈ columns) then Normalize.rename k v columns else columns)
  = Normalize.rename k v columns.
Proof.
  destruct (bool_decide (k ∈ columns)) eqn:E; [done|].
  apply bool_decide_eq_false in E. by rewrite rename_absent.
Qed.

(** The eight conditional renames amount to one pass over the names. *)
Lemma normalize_columns_map (columns : list string) :
  Normalize.normalize_columns columns =
    (λ c, let s := Normalize.strip c in
          if String.eqb s "Texto Secundario"
          then Normalize.Texto_Secundario_accented else s) <$> columns.
Proof.
  unfold Normalize.normalize_columns, Normalize.rename_map. cbn [foldl fst snd].
  rewrite !rename_step, !rename_same.
  unfold Normalize.rename. by rewrite <- list_fmap_compose.
Qed.

(** X25. [normalize_dataframe] keeps the columns of the sheet, each in its
    place.  A header that reads [Texto Secundario], with or without the
    accent and with any spaces around it, becomes the accented name that
    [build_frames] reads; every other header is only stripped of the spaces
    around it. *)
Theorem normalize_columns_accepts_variants (columns : list string) (i : nat) (c : string) :
  columns !! i = Some c →
  length (Normalize.normalize_columns columns) = length columns ∧
  Normalize.normalize_columns columns !! i =
    Some (if bool_decide (Normalize.strip c = "Texto Secundario" ∨
                          Normalize.strip c = Normalize.Texto_Secundario_accented)
          then Normalize.Texto_Secundario_accented
          else Normalize.strip c).
Proof.
  intros Hi. rewrite normalize_columns_map, length_fmap. split; [done|].
  rewrite list_lookup_fmap, Hi. simpl. f_equal.
  destruct (String.eqb (Normalize.strip c) "Texto Secundario") eqn:E.
  - apply String.eqb_eq in E. rewrite bool_decide_eq_true_2; [done|by left].
  - apply String.eqb_neq in E.
    destruct (bool_decide _) eqn:B; [|done].
    apply bool_decide_eq_true in B as [?|?]; done.
Qed.

(** X26. Normalising twice changes nothing more: the names that
    [normalize_dataframe] returns are already normal. *)
Theorem normalize_columns_idempotent (columns : list string) :
  Normalize.normalize_columns (Normalize.normalize_columns columns)
  = Normalize.normalize_columns columns.
Proof.
  rewrite !normalize_columns_map, <- list_fmap_compose.
  apply list_fmap_ext. intros _ c _. simpl.
  destruct (String.eqb (Normalize.strip c) "Texto Secundario") eqn:E; [done|].
  by rewrite normalize_strip_strip, E.
Qed.

(** ** The further properties at concrete inputs *)

Lemma seed_missing_dry_run_preview_witness :
  mapping_1_2 ≠ ∅ ∧
  log (seed_missing accept_all_tt accept_all_tl mapping_1_2 true
         (world_of empty_store)).2
  = [Log_DrySeedSugerido 2; Log_DrySeedItem 1 5; Log_DrySeedItem 2 13].
Proof.
  assert (H : mapping_1_2 ≠ ∅) by apply insert_non_empty.
  split; [exact H|].
  rewrite (seed_missing_dry_run_preview accept_all_tt accept_all_tl mapping_1_2
             (world_of empty_store) H).
  vm_compute. reflexivity.
Defined.

Lemma seed_missing_live_appends_witness :
  let run := seed_missing accept_all_tt accept_all_tl mapping_1_2 false
               (world_of empty_store) in
  run = (Ok (0, 0), run.2) ∧
  TEMATICOS_CONTEUDO_ITEM (db run.2) = [] ∧
  ∀ k, is_Some (mapping_1_2 !! k) →
       has_tt k (db run.2) = true ∧ has_tl k (db run.2) = true.
Proof.
  cbv zeta.
  assert (H : seed_missing accept_all_tt accept_all_tl mapping_1_2 false
                (world_of empty_store)
              = (Ok (0, 0), (seed_missing accept_all_tt accept_all_tl mapping_1_2 false
                               (world_of empty_store)).2))
    by (vm_compute; reflexivity).
  split; [exact H|].
  destruct (seed_missing_live_appends accept_all_tt accept_all_tl mapping_1_2
              (world_of empty_store) _ (0, 0) H) as (Hrows & _ & _ & Hmap & _).
  split; [exact Hmap | exact Hrows].
Defined.

Lemma df_titulos_text_bounds_witness :
  let df := sheet true [line (CInt 42) (CStr "A") (CStr "B") (CStr "Titulo da pagina")] in
  let f := {| idTipo_tl := 42; TextoTitle := CStr "Titulo da pagina";
              TextoMetaDescription := CNull |} in
  f ∈ df_titulos_of df ∧
  (∀ s, sql_text (TextoTitle f) = Some s → (String.length s ≤ 80)%nat) ∧
  TextoMetaDescription f = CNull.
Proof.
  cbv zeta.
  assert (H : {| idTipo_tl := 42; TextoTitle := CStr "Titulo da pagina";
                 TextoMetaDescription := CNull |}
              ∈ df_titulos_of (sheet true [line (CInt 42) (CStr "A") (CStr "B")
                                             (CStr "Titulo da pagina")]))
    by (vm_compute; left).
  split; [exact H|].
  exact (df_titulos_text_bounds _ _ H).
Defined.

Lemma df_titulos_title_is_prefix_witness :
  let r := line (CInt 42) (CStr "A") (CStr "B") (CStr "Titulo da pagina") in
  let df := sheet true [r] in
  r ∈ rows df ∧ id_tipo r = CInt 42 ∧ has_Texto_Title df = true ∧
  Texto_Title r = CStr "Titulo da pagina" ∧
  ∃ f, f ∈ df_titulos_of df ∧ idTipo_tl f = 42 ∧ TextoTitle f = CStr "Titulo da pagina".
Proof.
  cbv zeta.
  assert (H : line (CInt 42) (CStr "A") (CStr "B") (CStr "Titulo da pagina")
              ∈ rows (sheet true [line (CInt 42) (CStr "A") (CStr "B")
                                    (CStr "Titulo da pagina")])) by (simpl; left).
  split; [exact H|]. split; [reflexivity|]. split; [reflexivity|]. split; [reflexivity|].
  destruct (df_titulos_title_is_prefix _ _ 42 "Titulo da pagina" H eq_refl eq_refl eq_refl)
    as (f & t & rest & Hf & Hk & Ht & _ & _ & Hshort).
  exists f. split; [exact Hf|]. split; [exact Hk|].
  rewrite Ht. f_equal. apply Hshort. vm_compute. lia.
Defined.

Lemma update_textos_counts_lines_witness :
  let df := [ {| idTipo := 42; TextoPrimario := CStr "A"; TextoSecundario := CNull |};
              {| idTipo := 99; TextoPrimario := CStr "C"; TextoSecundario := CNull |} ] in
  NoDup (tt_idTipo <$> PUB_TIPOS_TEXTOS (db (world_of store_42))) ∧
  (update_textos df (world_of store_42)).1 = Ok 1.
Proof.
  cbv zeta.
  assert (H : NoDup (tt_idTipo <$> PUB_TIPOS_TEXTOS (db (world_of store_42))))
    by (simpl; apply NoDup_singleton).
  split; [exact H|].
  rewrite (update_textos_counts_lines _ (world_of store_42) H).
  vm_compute. reflexivity.
Defined.

Lemma main_without_auto_seed_witness :
  let run := main accept_all_tt accept_all_tl args_no_seed sheet_42_99
               (world_of store_42) in
  auto_seed args_no_seed = false ∧
  same_keys (db (world_of store_42)) (db run.2).
Proof.
  cbv zeta. split; [reflexivity|].
  destruct (main_without_auto_seed accept_all_tt accept_all_tl args_no_seed
              sheet_42_99 (world_of store_42) eq_refl) as [Hkeys _].
  exact Hkeys.
Defined.

Lemma auto_seed_disables_ratio_guard_witness :
  auto_seed args_live = true ∧
  (main accept_all_tt accept_all_tl args_live sheet_42_99 (world_of store_42)).1
    ≠ Ok AbortMissingRatio.
Proof.
  split; [reflexivity|].
  exact (auto_seed_disables_ratio_guard accept_all_tt accept_all_tl args_live
           sheet_42_99 (world_of store_42) eq_refl).
Defined.

Lemma main_without_identifiers_witness :
  let df := sheet false [line CNull (CStr "A") (CStr "B") CNull] in
  let w := world_of store_42 in
  ensure_id_tipo df w = (Ok df, w) ∧ ids_plan_of df = [] ∧
  ∃ w', main accept_all_tt accept_all_tl args_live df w = (Ok (Concluido 0 0), w') ∧
        no_writes w w'.
Proof.
  cbv zeta. split; [reflexivity|]. split; [reflexivity|].
  exact (main_without_identifiers accept_all_tt accept_all_tl args_live
           (sheet false [line CNull (CStr "A") (CStr "B") CNull])
           (sheet false [line CNull (CStr "A") (CStr "B") CNull])
           (world_of store_42) (world_of store_42) eq_refl eq_refl).
Defined.

Lemma main_auto_seed_default_covers_sheet_witness :
  let w := world_of store_42 in
  let run := main accept_all_tt accept_all_tl args_live sheet_42_99 w in
  auto_seed args_live = true ∧ dry_run args_live = false ∧
  default_idconteudo args_live = Some 1 ∧
  ensure_id_tipo sheet_42_99 w = (Ok sheet_42_99, w) ∧
  run = (Ok (Concluido 2 0), run.2) ∧
  ∀ k, k ∈ ids_plan_of sheet_42_99 → has_tt k (db run.2) = true.
Proof.
  cbv zeta.
  assert (H : main accept_all_tt accept_all_tl args_live sheet_42_99 (world_of store_42)
              = (Ok (Concluido 2 0),
                 (main accept_all_tt accept_all_tl args_live sheet_42_99
                    (world_of store_42)).2))
    by (vm_compute; reflexivity).
  split; [reflexivity|]. split; [reflexivity|]. split; [reflexivity|].
  split; [reflexivity|]. split; [exact H|].
  destruct (main_auto_seed_default_covers_sheet accept_all_tt accept_all_tl args_live
              sheet_42_99 sheet_42_99 (world_of store_42) (world_of store_42) _ 1 2 0
              eq_refl eq_refl eq_refl eq_refl H) as (Hall & _).
  exact Hall.
Defined.

Lemma main_inserts_only_resolved_sheet_ids_witness :
  let w := world_of store_42 in
  let run := main accept_all_tt accept_all_tl args_live sheet_42_99 w in
  has_tt 99 (db w) = false ∧ has_tt 99 (db run.2) = true ∧
  auto_seed args_live = true ∧ dry_run args_live = false.
Proof.
  cbv zeta.
  assert (H : has_tt 99 (db (main accept_all_tt accept_all_tl args_live sheet_42_99
                               (world_of store_42)).2) = true)
    by (vm_compute; reflexivity).
  split; [reflexivity|]. split; [exact H|].
  destruct (main_inserts_only_resolved_sheet_ids accept_all_tt accept_all_tl args_live
              sheet_42_99 (world_of store_42) 99 eq_refl H) as (Ha & Hd & _).
  split; [exact Ha | exact Hd].
Defined.

Lemma tick_records_only_after_success_witness :
  let run := Watcher.tick (λ s, s) (λ _, true) (λ _, true) ∅ (Some drive_file) in
  run.1 !! "f1" ≠ (∅ : gmap string Watcher.Info) !! "f1" ∧
  ∃ f, Some drive_file = Some f ∧ Watcher.id f = "f1".
Proof.
  cbv zeta.
  assert (H : (Watcher.tick (λ s, s) (λ _, true) (λ _, true) ∅ (Some drive_file)).1 !! "f1"
              ≠ (∅ : gmap string Watcher.Info) !! "f1").
  { assert (E : (Watcher.tick (λ s, s) (λ _, true) (λ _, true) ∅ (Some drive_file)).1
                 = <["f1" := Watcher.cur_info_of (λ s, s) drive_file]> ∅)
      by reflexivity.
    rewrite E, lookup_insert_eq, lookup_empty. discriminate. }
  split; [exact H|].
  destruct (tick_records_only_after_success (λ s, s) (λ _, true) (λ _, true) ∅
              (Some drive_file) "f1" H) as (f & Hf & Hid & _).
  exists f. split; [exact Hf | exact Hid].
Defined.

Lemma processed_file_is_not_processed_twice_witness :
  let after := (Watcher.ticks (λ s, s) (λ _, true) (λ _, true) ∅
                  [Some drive_file; None; None]).1 in
  Watcher.tick (λ s, s) (λ _, true) (λ _, true) after (Some drive_file) = (after, []).
Proof.
  cbv zeta.
  apply (processed_file_is_not_processed_twice (λ s, s) (λ _, true) (λ _, true) ∅
           drive_file [None; None] eq_refl eq_refl).
  repeat constructor.
Defined.

Lemma watcher_reprocesses_changed_file_witness :
  let prev : Watcher.Info := {[ "md5Checksum" := Some "0cc175b9c0f1b6a831c399e269772661" ]} in
  let processed : gmap string Watcher.Info := {[ "f1" := prev ]} in
  processed !! Watcher.id drive_file = Some prev ∧
  Watcher.get prev "md5Checksum" = Some "0cc175b9c0f1b6a831c399e269772661" ∧
  (Watcher.tick (λ s, s) (λ _, true) (λ _, true) processed (Some drive_file)).1
    = <["f1" := Watcher.cur_info_of (λ s, s) drive_file]> processed.
Proof.
  cbv zeta.
  assert (H1 : ({[ "f1" := ({[ "md5Checksum" := Some "0cc175b9c0f1b6a831c399e269772661" ]}
                             : Watcher.Info) ]} : gmap string Watcher.Info)
               !! Watcher.id drive_file
               = Some {[ "md5Checksum" := Some "0cc175b9c0f1b6a831c399e269772661" ]})
    by apply lookup_singleton_eq.
  assert (H2 : Watcher.get ({[ "md5Checksum" := Some "0cc175b9c0f1b6a831c399e269772661" ]}
                              : Watcher.Info) "md5Checksum"
               = Some "0cc175b9c0f1b6a831c399e269772661").
  { unfold Watcher.get. by rewrite lookup_singleton_eq. }
  split; [exact H1|]. split; [exact H2|].
  rewrite (watcher_reprocesses_changed_file (λ s, s) (λ _, true) (λ _, true) _
             drive_file _ _ _ H1 H2 eq_refl); try done.
Defined.

Lemma sanitize_filename_keeps_clean_name_witness :
  Sanitize.tidy (list_ascii_of_string "Semana 04.XLSX") = true ∧
  Sanitize.endswith_xlsx (list_ascii_of_string "Semana 04.XLSX") = true ∧
  Sanitize.sanitize_filename "Semana 04.XLSX" = "Semana 04.XLSX".
Proof.
  assert (H1 : Sanitize.tidy (list_ascii_of_string "Semana 04.XLSX") = true)
    by (vm_compute; reflexivity).
  assert (H2 : Sanitize.endswith_xlsx (list_ascii_of_string "Semana 04.XLSX") = true)
    by (vm_compute; reflexivity).
  split; [exact H1|]. split; [exact H2|].
  exact (sanitize_filename_keeps_clean_name "Semana 04.XLSX" H1 H2).
Defined.

Lemma tick_uses_sanitized_names_witness :
  let n := Sanitize.sanitize_filename (Watcher.name drive_file) in
  Watcher.Download "f1" n
    ∈ (Watcher.tick Sanitize.sanitize_filename (λ _, true) (λ _, true) ∅
         (Some drive_file)).2 ∧
  Sanitize.tidy (list_ascii_of_string n) = true ∧
  Sanitize.endswith_xlsx (list_ascii_of_string n) = true.
Proof.
  cbv zeta.
  assert (H : Watcher.Download "f1" (Sanitize.sanitize_filename (Watcher.name drive_file))
              ∈ (Watcher.tick Sanitize.sanitize_filename (λ _, true) (λ _, true) ∅
                   (Some drive_file)).2) by (unfold Watcher.tick; simpl; left).
  split; [exact H|].
  exact (tick_uses_sanitized_names (λ _, true) (λ _, true) ∅ (Some drive_file) _ H).
Defined.

Lemma ensure_id_tipo_resolves_pair_witness :
  ∃ r, rows sheet_by_pair !! 0%nat = Some r ∧
       id_cat r = CInt 1 ∧ id_grupo r = CInt 2 ∧
       (1, 2, 42) ∈ PROCESSADO_BUSCA_TIPOS (db (world_of store_42)) ∧
       ∃ df' w', ensure_id_tipo sheet_by_pair (world_of store_42) = (Ok df', w') ∧
                 rows df' !! 0%nat = Some (set_id_tipo (CInt 42) r).
Proof.
  eexists. split; [reflexivity|]. split; [reflexivity|]. split; [reflexivity|].
  assert (H : (1, 2, 42) ∈ PROCESSADO_BUSCA_TIPOS (db (world_of store_42)))
    by (simpl; left).
  split; [exact H|].
  destruct (ensure_id_tipo_resolves_pair sheet_by_pair (world_of store_42) 0 _ 1 2 42
              eq_refl eq_refl eq_refl eq_refl eq_refl eq_refl H)
    as (df' & w' & t' & Hrun & Hrow & Hin & _).
  exists df', w'. split; [exact Hrun|]. rewrite Hrow. do 2 f_equal.
  simpl in Hin. apply list_elem_of_singleton in Hin. congruence.
Defined.

Lemma normalize_columns_accepts_variants_witness :
  [" Texto Secundario "; "id_tipo "] !! 0%nat = Some " Texto Secundario " ∧
  Normalize.normalize_columns [" Texto Secundario "; "id_tipo "]
    = [Normalize.Texto_Secundario_accented; "id_tipo"].
Proof.
  split; [reflexivity|].
  destruct (normalize_columns_accepts_variants [" Texto Secundario "; "id_tipo "] 0
              " Texto Secundario " eq_refl) as [_ _].
  vm_compute. reflexivity.
Defined.
